(** * A peer-to-peer unicast simulator: the two variants of [mp1.go]

    The repository holds two programs with the same configuration
    loader:

    - the line-text variant ([mp1.go]): records travel as text lines
      ["<id> <text>\n"], every process dials the processes whose id is
      lower than its own and announces itself with a handshake line;
    - the gob variant: records travel as [encoding/gob] values, every
      process dials every other process (with retries) and nothing is
      announced.

    Go's [int] is modelled as [Z] with the 64-bit wrap-around written out,
    Go strings as [string] (one [ascii] per byte), Go maps as [gmap].
    The functions of the Go standard library the programs call
    ([strconv.Atoi], [strconv.Itoa], [strings.Split], [strings.Join],
    [strings.TrimPrefix], [bufio.Scanner], [rand.Intn]) are modelled after
    their documented behaviour. *)

From Stdlib Require Import ZArith Ascii String List Lia Bool.
From Stdlib Require Import DecimalFacts DecimalPos DecimalString.
From stdpp Require Import base list gmap strings.

Import ListNotations.
Local Open Scope Z_scope.

(** ** Machine integers *)

Definition MaxInt64 : Z := 9223372036854775807.
Definition MinInt64 : Z := -9223372036854775808.
Definition MaxUint64 : Z := 18446744073709551615.

Definition is_int64 (z : Z) : bool := (MinInt64 <=? z) && (z <=? MaxInt64).

(** Two's complement wrap-around of a mathematical integer to [int64]. *)
Definition wrap64 (z : Z) : Z := (z + 2 ^ 63) mod 2 ^ 64 - 2 ^ 63.

(** ** Strings *)

Definition LF : ascii := "010"%char.
Definition CR : ascii := "013"%char.
Definition SP : ascii := " "%char.

Definition slen (s : string) : Z := Z.of_nat (String.length s).

Fixpoint contains_byte (c : ascii) (s : string) : bool :=
  match s with
  | EmptyString => false
  | String a s' => Ascii.eqb a c || contains_byte c s'
  end.

(** [strings.HasPrefix], [strings.TrimPrefix], [strings.HasSuffix]. *)
Fixpoint HasPrefix (s p : string) {struct p} : bool :=
  match p, s with
  | EmptyString, _ => true
  | String b p', String a s' => Ascii.eqb a b && HasPrefix s' p'
  | String _ _, EmptyString => false
  end.

Fixpoint drop_bytes (n : nat) (s : string) : string :=
  match n, s with
  | O, _ => s
  | S n', String _ s' => drop_bytes n' s'
  | S _, EmptyString => EmptyString
  end.

Definition TrimPrefix (s p : string) : string :=
  if HasPrefix s p then drop_bytes (String.length p) s else s.

Fixpoint ends_with_byte (c : ascii) (s : string) : bool :=
  match s with
  | EmptyString => false
  | String a EmptyString => Ascii.eqb a c
  | String _ s' => ends_with_byte c s'
  end.

(** [strings.Split(s, sep)] for a one-byte separator: the pieces between
    the separators, never an empty list. *)
Fixpoint Split (s : string) (sep : ascii) : list string :=
  match s with
  | EmptyString => [EmptyString]
  | String a s' =>
      if Ascii.eqb a sep then EmptyString :: Split s' sep
      else match Split s' sep with
           | [] => [String a EmptyString]
           | w :: ws => String a w :: ws
           end
  end.

(** [strings.Join(elems, sep)]. *)
Fixpoint Join (elems : list string) (sep : string) : string :=
  match elems with
  | [] => EmptyString
  | [w] => w
  | w :: ws => w +:+ sep +:+ Join ws sep
  end.

(** ** [strconv] *)

Inductive NumError := ErrSyntax | ErrRange.

Definition digit_of (c : ascii) : option Z :=
  let n := Z.of_nat (nat_of_ascii c) in
  if (48 <=? n) && (n <=? 57) then Some (n - 48) else None.

(** The loop of [strconv.ParseUint(s, 10, 64)]: it stops at the first
    byte that is no digit with a syntax error, and at the first overflow
    with the value [MaxUint64] and a range error, whichever comes
    first. *)
Fixpoint ParseUint_loop (s : string) (n : Z) : Z * option NumError :=
  match s with
  | EmptyString => (n, None)
  | String c s' =>
      match digit_of c with
      | None => (0, Some ErrSyntax)
      | Some d =>
          if MaxUint64 / 10 + 1 <=? n then (MaxUint64, Some ErrRange)
          else let n1 := n * 10 + d in
               if MaxUint64 <? n1 then (MaxUint64, Some ErrRange)
               else ParseUint_loop s' n1
      end
  end.

Definition ParseUint (s : string) : Z * option NumError :=
  match s with
  | EmptyString => (0, Some ErrSyntax)
  | _ => ParseUint_loop s 0
  end.

(** [strconv.ParseInt(s, 10, 64)]: an optional sign, then [ParseUint]; a
    range error comes with the nearest bound. *)
Definition ParseInt (s : string) : Z * option NumError :=
  match s with
  | EmptyString => (0, Some ErrSyntax)
  | String c rest =>
      let neg := Ascii.eqb c "-" in
      let body := if Ascii.eqb c "+" || neg then rest else s in
      match ParseUint body with
      | (_, Some ErrSyntax) => (0, Some ErrSyntax)
      | (un, _) =>
          if negb neg && (2 ^ 63 <=? un) then (MaxInt64, Some ErrRange)
          else if neg && (2 ^ 63 <? un) then (MinInt64, Some ErrRange)
          else (if neg then - un else un, None)
      end
  end.

(** [strconv.Atoi]: on 64-bit platforms [ParseInt(s, 10, 0)] (its fast
    path for short inputs computes the same result). *)
Definition Atoi (s : string) : Z * option NumError := ParseInt s.

(** [strconv.Itoa]: the decimal digits, with a leading minus sign for a
    negative value. *)
Definition Itoa (z : Z) : string := NilEmpty.string_of_int (Z.to_int z).

(** ** [bufio.Scanner] with the default [ScanLines] split function *)

Inductive IOError := ErrTooLong | ErrRead | ErrNotExist.

Definition MaxScanTokenSize : Z := 65536.

(** The raw lines of an input: cut after every line feed; a last line
    without line feed counts when it is not empty. *)
Fixpoint raw_lines (s : string) : list string :=
  match s with
  | EmptyString => []
  | String a s' =>
      if Ascii.eqb a LF then EmptyString :: raw_lines s'
      else match raw_lines s' with
           | [] => [String a EmptyString]
           | l :: ls => String a l :: ls
           end
  end.

(** [dropCR]: one trailing carriage return is removed from a line. *)
Fixpoint dropCR (s : string) : string :=
  match s with
  | EmptyString => EmptyString
  | String a EmptyString => if Ascii.eqb a CR then EmptyString else s
  | String a s' => String a (dropCR s')
  end.

(** Tokens are delivered until a line does not fit the buffer. *)
Fixpoint scan_tokens (ls : list string) : list string * option IOError :=
  match ls with
  | [] => ([], None)
  | l :: ls' =>
      if MaxScanTokenSize <=? slen l then ([], Some ErrTooLong)
      else let (ts, e) := scan_tokens ls' in (dropCR l :: ts, e)
  end.

(** What a reader delivers: the bytes read, and the error that ended the
    reading when it was not the end of the input. *)
Record Reader := mkReader { r_data : string; r_err : option IOError }.

(** All the tokens [scanner.Scan()] yields, and the final
    [scanner.Err()]. *)
Definition Scanner (r : Reader) : list string * option IOError :=
  let (ts, e) := scan_tokens (raw_lines (r_data r)) in
  (ts, match e with Some e' => Some e' | None => r_err r end).

(** ** Outcomes of fallible code *)

(** A Go call either returns, returns an error value, or panics (an index
    out of range, [rand.Intn] with a non-positive argument). *)
Inductive Result (A : Type) :=
| Ok (a : A)
| Err (e : IOError)
| Panic.
Arguments Ok {A} a.
Arguments Err {A} e.
Arguments Panic {A}.

#[global] Instance Result_bind : MBind Result := fun A B k m =>
  match m with
  | Ok a => k a
  | Err e => Err e
  | Panic => Panic
  end.

(** [xs[i]] on a slice: a panic when [i] is out of range. *)
Definition index {A} (xs : list A) (i : nat) : Result A :=
  match xs !! i with
  | Some x => Ok x
  | None => Panic
  end.

(** ** The data model: [Process] and [Config] *)

Record Process := mkProcess { ID : Z; IP : string; Port : string }.

Record Config := mkConfig {
  MinDelay : Z;
  MaxDelay : Z;
  Processes : list Process
}.

#[global] Instance Process_eq_dec : EqDecision Process.
Proof. solve_decision. Defined.

(** The address a process listens on and is dialled at in [mp1.go]:
    [IP + ":" + Port]. *)
Definition addr (p : Process) : string := IP p +:+ ":" +:+ Port p.

(** ** [ParseConfig] (the same in both variants) *)

(** The body of the loop over the process lines. *)
Definition parse_process (line : string) : Result Process :=
  let processInfo := Split line SP in
  f0 ← index processInfo 0;
  let processID := fst (Atoi f0) in
  f1 ← index processInfo 1;
  f2 ← index processInfo 2;
  Ok (mkProcess processID f1 f2).

Fixpoint parse_processes (lines : list string) (acc : list Process)
  : Result (list Process) :=
  match lines with
  | [] => Ok acc
  | l :: ls => p ← parse_process l; parse_processes ls (acc ++ [p])
  end.

(** A file system maps a name to a readable file, if it can be opened. *)
Definition FileSystem := string -> option Reader.

Definition ParseConfig (fs : FileSystem) (filename : string) : Result Config :=
  match fs filename with
  | None => Err ErrNotExist
  | Some file =>
      let (tokens, scan_err) := Scanner file in
      (* [scanner.Scan()] then [scanner.Text()]: the empty string when
         there is no first line *)
      let first := match tokens with [] => EmptyString | l :: _ => l end in
      let minMaxDelays := Split first SP in
      d0 ← index minMaxDelays 0;
      let minDelay := fst (Atoi d0) in
      d1 ← index minMaxDelays 1;
      let maxDelay := fst (Atoi d1) in
      ps ← parse_processes (tail tokens) [];
      match scan_err with
      | Some e => Err e
      | None => Ok (mkConfig minDelay maxDelay ps)
      end
  end.

(** What [main] does with the result: [log.Fatal] on an error, otherwise
    one [startProcess] goroutine per process of the configuration. *)
Inductive Startup :=
| Aborted (e : IOError)
| Panicked
| Running (config : Config) (started : list Process).

Definition main_startup (fs : FileSystem) : Startup :=
  match ParseConfig fs "config.txt" with
  | Err e => Aborted e
  | Panic => Panicked
  | Ok config => Running config (Processes config)
  end.

(** ** The delay draw *)

(** [rand.Intn(n)]: a panic for [n <= 0], otherwise a value of [[0, n)].
    The generator is abstracted to its raw draw [r]; every value of the
    range is the result for some draw. *)
Definition Intn (r : Z) (n : Z) : option Z :=
  if n <=? 0 then None else Some (r mod n).

(** [minDelay + rand.Intn(maxDelay-minDelay)], in [int] arithmetic. *)
Definition draw_delay (r : Z) (minDelay maxDelay : Z) : option Z :=
  match Intn r (wrap64 (maxDelay - minDelay)) with
  | None => None
  | Some k => Some (wrap64 (minDelay + k))
  end.

Definition Millisecond : Z := 1000000.

(** [time.Duration(d) * time.Millisecond], an [int64] of nanoseconds. *)
Definition Duration_ms (d : Z) : Z := wrap64 (d * Millisecond).

(** ** Connections *)

(** What one [Write] puts on a connection: text bytes in the line-text
    variant, one gob-encoded [UnicastMessage] in the gob variant. *)
Inductive Payload :=
| Bytes (s : string)
| GobValue (SourceID : Z) (Message : string).

(** An established TCP connection: the process that dialled, the entry of
    the configuration it dialled, and the writes of either end in order. *)
Record Wire := mkWire {
  w_from : Process;
  w_to : Process;
  w_up : list Payload;     (* written by the dialling end *)
  w_down : list Payload    (* written by the accepting end *)
}.

(** A [net.Conn] value is the position of its wire. *)
Definition Conn := nat.

(** A write of process [p] on connection [c]. *)
Definition write_wire (p : Process) (x : Payload) (w : Wire) : Wire :=
  if decide (w_from w = p)
  then mkWire (w_from w) (w_to w) (w_up w ++ [x]) (w_down w)
  else mkWire (w_from w) (w_to w) (w_up w) (w_down w ++ [x]).

Definition conn_write (p : Process) (c : Conn) (x : Payload)
    (ws : list Wire) : list Wire :=
  alter (write_wire p x) c ws.

(** The text bytes of a sequence of writes. *)
Fixpoint stream (xs : list Payload) : string :=
  match xs with
  | [] => EmptyString
  | Bytes s :: xs' => s +:+ stream xs'
  | GobValue _ _ :: xs' => stream xs'
  end.

(** ** The console loop [handleUserInput] *)

(** A goroutine started by [unicast_send_with_delay]: it sleeps, then
    sends. *)
Record Pending := mkPending {
  p_delay : Z;        (* nanoseconds *)
  p_conn : Conn;
  p_sender : Z;
  p_text : string
}.

(** The state a console loop works on. *)
Record Runtime := mkRuntime {
  connections : gmap Z Conn;   (* peer id -> connection *)
  wires : list Wire;           (* the connections and what was written *)
  pending : list Pending;      (* sends waiting for their delay *)
  stdout : list string;        (* lines printed so far *)
  draws : nat                  (* random draws so far *)
}.

Definition println (s : string) (rt : Runtime) : Runtime :=
  mkRuntime (connections rt) (wires rt) (pending rt) (stdout rt ++ [s])
            (draws rt).

Definition unicast_send_with_delay (conn : Conn) (processID : Z)
    (message : string) (delay : Z) (rt : Runtime) : Runtime :=
  mkRuntime (connections rt) (wires rt)
            (pending rt ++ [mkPending delay conn processID message])
            (stdout rt) (draws rt).

Definition next_draw (rt : Runtime) : Runtime :=
  mkRuntime (connections rt) (wires rt) (pending rt) (stdout rt)
            (S (draws rt)).

(** The delay of the next send, as [time.Duration]; [rand.Intn] may
    panic. [rnd n] is the raw value of the n-th random draw. *)
Definition next_delay (rnd : nat -> Z) (minDelay maxDelay : Z) (rt : Runtime)
  : Result (Z * Runtime) :=
  match draw_delay (rnd (draws rt)) minDelay maxDelay with
  | None => Panic
  | Some d => Ok (Duration_ms d, next_draw rt)
  end.

Module LineText.
Section Console.

(** The environment: the raw value of the n-th random draw and the
    printed form of the clock. *)
Variable rnd : nat -> Z.
Variable now : string.

(** [unicast_send]: one line, the sender's id before the text. *)
Definition unicast_send (processID : Z) (message : string) : Payload :=
  Bytes (Itoa processID +:+ " " +:+ message +:+ String LF "").

(** The body of the loop of [handleUserInput], for one console line. *)
Definition handle_line (process : Process) (minDelay maxDelay : Z)
    (text : string) (rt : Runtime) : Result Runtime :=
  let command := Split text SP in
  if (length command <? 2)%nat then
    Ok (println "Invalid command. Please enter a command in the format: send [destinationID] [message]" rt)
  else
    c0 ← index command 0;
    if String.eqb c0 "send" then
      c1 ← index command 1;
      let destinationID := fst (Atoi c1) in
      let message :=
        if (2 <? length command)%nat then Join (drop 2 command) " "
        else "" in
      match connections rt !! destinationID with
      | None =>
          Ok (println ("No connection to process " +:+ Itoa destinationID
                       +:+ ". Please check the configuration.") rt)
      | Some conn =>
          '(delay, rt1) ← next_delay rnd minDelay maxDelay rt;
          let rt2 :=
            unicast_send_with_delay conn (ID process) message delay rt1 in
          Ok (println ("Sent message: " +:+ message +:+ " to process: "
                       +:+ Itoa destinationID +:+ " , system time is: "
                       +:+ now) rt2)
      end
    else Ok rt.

Fixpoint handle_lines (process : Process) (minDelay maxDelay : Z)
    (lines : list string) (rt : Runtime) : Result Runtime :=
  match lines with
  | [] => Ok rt
  | l :: ls =>
      rt' ← handle_line process minDelay maxDelay l rt;
      handle_lines process minDelay maxDelay ls rt'
  end.

Definition handleUserInput (process : Process) (minDelay maxDelay : Z)
    (stdin : Reader) (rt : Runtime) : Result Runtime :=
  handle_lines process minDelay maxDelay (fst (Scanner stdin)) rt.

(** The goroutine of a pending send, once its delay has elapsed. *)
Definition fire (process : Process) (p : Pending) (rt : Runtime)
  : Runtime :=
  mkRuntime (connections rt)
    (conn_write process (p_conn p)
                (unicast_send (p_sender p) (p_text p)) (wires rt))
    (pending rt) (stdout rt) (draws rt).

(** [unicast_receive]: every line of the connection is cut at its first
    space into the sender's id and the text. The result lists the pairs
    (sender id as written, text) in the order they are printed. *)
Definition receive_line (message : string) : string * string :=
  let senderID :=
    match Split message SP with
    | [] => EmptyString
    | w :: _ => w
    end in
  (senderID, TrimPrefix message (senderID +:+ " ")).

Definition unicast_receive (conn : Reader) : list (string * string) :=
  map receive_line (fst (Scanner conn)).

End Console.
End LineText.

Module Gob.
Section Console.

Variable rnd : nat -> Z.
Variable now : string.

(** [unicast_send]: one [UnicastMessage] value through the encoder. *)
Definition unicast_send (sourceID : Z) (message : string) : Payload :=
  GobValue sourceID message.

Definition invalid_format : string :=
  "Invalid command format. Use: send [destinationID] [message]".

Definition handle_line (process : Process) (minDelay maxDelay : Z)
    (text : string) (rt : Runtime) : Result Runtime :=
  let command := Split text SP in
  c0 ← index command 0;
  if String.eqb c0 "send" && (1 <? length command)%nat then
    c1 ← index command 1;
    match Atoi c1 with
    | (destinationID, None) =>
        match connections rt !! destinationID with
        | Some encoder =>
            let message := Join (drop 2 command) " " in
            '(delay, rt1) ← next_delay rnd minDelay maxDelay rt;
            let rt2 :=
              unicast_send_with_delay encoder (ID process) message delay
                                      rt1 in
            Ok (println ("Sent message: " +:+ message +:+ " to process "
                         +:+ Itoa destinationID +:+ ", system time is: "
                         +:+ now) rt2)
        | None =>
            Ok (println ("Invalid destination process ID: "
                         +:+ Itoa destinationID) rt)
        end
    | (_, Some _) => Ok (println invalid_format rt)
    end
  else Ok (println invalid_format rt).

Fixpoint handle_lines (process : Process) (minDelay maxDelay : Z)
    (lines : list string) (rt : Runtime) : Result Runtime :=
  match lines with
  | [] => Ok rt
  | l :: ls =>
      rt' ← handle_line process minDelay maxDelay l rt;
      handle_lines process minDelay maxDelay ls rt'
  end.

Definition handleUserInput (process : Process) (minDelay maxDelay : Z)
    (stdin : Reader) (rt : Runtime) : Result Runtime :=
  handle_lines process minDelay maxDelay (fst (Scanner stdin)) rt.

(** The goroutine of a pending send on an open connection, once its
    delay has elapsed; [GobEnd.fire] adds the failure of [Encode] on a
    closed one. *)
Definition fire (process : Process) (p : Pending) (rt : Runtime)
  : Runtime :=
  mkRuntime (connections rt)
    (conn_write process (p_conn p)
                (unicast_send (p_sender p) (p_text p)) (wires rt))
    (pending rt) (stdout rt) (draws rt).

(** [unicast_receive]: the values are printed as they are decoded; the
    first failing [Decode] (the end of the stream included) ends the
    program with [log.Fatal]. A gob stream is taken as the sequence of
    the values written to it: the bytes of [encoding/gob] are not
    modelled. *)
Fixpoint unicast_receive (decoder : list Payload) : list (Z * string) :=
  match decoder with
  | GobValue sourceID message :: rest =>
      (sourceID, message) :: unicast_receive rest
  | _ => []
  end.

End Console.
End Gob.

(** ** The network during mesh establishment *)

Record Net := mkNet {
  listeners : list string;   (* addresses with a listening socket *)
  net_wires : list Wire;     (* established connections, by [Conn] *)
  attempts : nat;            (* dial attempts so far *)
  slept : list Z             (* sleeps of the retry loops, in seconds *)
}.

Definition empty_net : Net := mkNet [] [] 0 [].

(** [startProcess] either gets through a phase, ends the program with
    [log.Fatal], or crashes it with a panic. *)
Inductive Outcome (A : Type) :=
| Done (a : A) (n : Net)
| Fatal (n : Net)
| Crashed (n : Net).
Arguments Done {A} a n.
Arguments Fatal {A} n.
Arguments Crashed {A} n.

(** [net.Dial]: the environment decides whether the k-th attempt of the
    run succeeds ([dial_ok k]); a success is a new connection. *)
Definition Dial (dial_ok : nat -> bool) (from to : Process) (n : Net)
  : option Conn * Net :=
  let n' := mkNet (listeners n) (net_wires n) (S (attempts n)) (slept n) in
  if dial_ok (attempts n)
  then (Some (length (net_wires n)),
        mkNet (listeners n) (net_wires n ++ [mkWire from to [] []])
              (S (attempts n)) (slept n))
  else (None, n').

Definition net_write (p : Process) (c : Conn) (x : Payload) (n : Net) : Net :=
  mkNet (listeners n) (conn_write p c x (net_wires n)) (attempts n) (slept n).

Definition net_sleep (seconds : Z) (n : Net) : Net :=
  mkNet (listeners n) (net_wires n) (attempts n) (slept n ++ [seconds]).

(** [net.Listen] on the address [a]: refused when a listener of the run
    holds the very same address. The system can refuse a listen for
    other reasons as well (the same socket under another spelling of the
    address, a port held by another program); these are not produced
    here, so that a run of the model is one in which they do not
    occur. *)
Definition net_listen (a : string) (n : Net) : option Net :=
  if bool_decide (a ∈ listeners n) then None
  else Some (mkNet (listeners n ++ [a]) (net_wires n) (attempts n) (slept n)).

(** The connections a listener at address [a] gets to accept, in the
    order they were established. *)
Fixpoint incoming_from (a : string) (c : Conn) (ws : list Wire)
  : list (Conn * Wire) :=
  match ws with
  | [] => []
  | w :: ws' =>
      if String.eqb (addr (w_to w)) a
      then (c, w) :: incoming_from a (S c) ws'
      else incoming_from a (S c) ws'
  end.

Definition incoming (a : string) (ws : list Wire) : list (Conn * Wire) :=
  incoming_from a 0%nat ws.

(** Whether some connection was dialled by [p] towards [q]. *)
Definition dials (ws : list Wire) (p q : Process) : bool :=
  existsb (fun w => bool_decide (w_from w = p) && bool_decide (w_to w = q)) ws.

(** The connections between [p] and [q], whoever dialled. *)
Definition channels_between (ws : list Wire) (p q : Process) : list Wire :=
  filter (fun w => (w_from w = p ∧ w_to w = q) ∨ (w_from w = q ∧ w_to w = p))
         ws.

(** ** [startProcess] of the line-text variant *)

Module LineMesh.
Section Mesh.

Variable dial_ok : nat -> bool.

(** [fmt.Fprintln(conn, process.ID)]. *)
Definition handshake (process : Process) : Payload :=
  Bytes (Itoa (ID process) +:+ String LF "").

(** [net.Listen]; a failure is fatal. *)
Definition listen (process : Process) (n : Net) : Outcome unit :=
  match net_listen (addr process) n with
  | None => Fatal n
  | Some n' => Done tt n'
  end.

(** The loop over [config.Processes] that dials the lower ids. *)
Fixpoint dial_loop (process : Process) (others : list Process)
    (connections : gmap Z Conn) (n : Net) : Outcome (gmap Z Conn) :=
  match others with
  | [] => Done connections n
  | otherProcess :: rest =>
      if ID otherProcess <? ID process then
        match Dial dial_ok process otherProcess n with
        | (None, n1) => Fatal n1
        | (Some conn, n1) =>
            let connections' := <[ID otherProcess := conn]> connections in
            let n2 := net_write process conn (handshake process) n1 in
            dial_loop process rest connections' n2
        end
      else dial_loop process rest connections n
  end.

(** [getOtherID]: the first line of the connection, as an integer. *)
Definition getOtherID (conn : Reader) : option Z :=
  let firstLine :=
    match fst (Scanner conn) with
    | [] => EmptyString
    | l :: _ => l
    end in
  match Atoi firstLine with
  | (otherID, None) => Some otherID
  | (_, Some _) => None
  end.

(** The accept loop, over the connections that reach the listener. *)
Fixpoint accept_loop (pend : list (Conn * Wire))
    (connections : gmap Z Conn) (n : Net) : Outcome (gmap Z Conn) :=
  match pend with
  | [] => Done connections n
  | (conn, w) :: rest =>
      match getOtherID (mkReader (stream (w_up w)) None) with
      | None => Fatal n
      | Some otherID =>
          accept_loop rest (<[otherID := conn]> connections) n
      end
  end.

(** The three phases of the whole system, each run for every process
    in turn: all listeners, then all dial loops, then all accept loops
    on what has arrived. *)
Fixpoint listen_all (ps : list Process) (n : Net) : Outcome unit :=
  match ps with
  | [] => Done tt n
  | p :: ps' =>
      match listen p n with
      | Done _ n1 => listen_all ps' n1
      | Fatal n1 => Fatal n1
      | Crashed n1 => Crashed n1
      end
  end.

Fixpoint dial_all (config : Config) (ps : list Process) (n : Net)
  : Outcome (list (Process * gmap Z Conn)) :=
  match ps with
  | [] => Done [] n
  | p :: ps' =>
      match dial_loop p (Processes config) ∅ n with
      | Done m n1 =>
          match dial_all config ps' n1 with
          | Done ms n2 => Done ((p, m) :: ms) n2
          | Fatal n2 => Fatal n2
          | Crashed n2 => Crashed n2
          end
      | Fatal n1 => Fatal n1
      | Crashed n1 => Crashed n1
      end
  end.

Fixpoint accept_all (pms : list (Process * gmap Z Conn)) (n : Net)
  : Outcome (list (Process * gmap Z Conn)) :=
  match pms with
  | [] => Done [] n
  | (p, m) :: pms' =>
      match accept_loop (incoming (addr p) (net_wires n)) m n with
      | Done m' n1 =>
          match accept_all pms' n1 with
          | Done ms n2 => Done ((p, m') :: ms) n2
          | Fatal n2 => Fatal n2
          | Crashed n2 => Crashed n2
          end
      | Fatal n1 => Fatal n1
      | Crashed n1 => Crashed n1
      end
  end.

Definition mesh (config : Config)
  : Outcome (list (Process * gmap Z Conn)) :=
  match listen_all (Processes config) empty_net with
  | Done _ n1 =>
      match dial_all config (Processes config) n1 with
      | Done pms n2 => accept_all pms n2
      | Fatal n2 => Fatal n2
      | Crashed n2 => Crashed n2
      end
  | Fatal n1 => Fatal n1
  | Crashed n1 => Crashed n1
  end.

End Mesh.
End LineMesh.

(** ** [startProcess] of the gob variant *)

Module GobMesh.
Section Mesh.

Variable dial_ok : nat -> bool.

Definition retries : nat := 5.

(** The address of [net.Listen("tcp", ":"+process.Port)]. *)
Definition listen_addr (process : Process) : string := ":" +:+ Port process.

(** The server goroutine ignores the error of [net.Listen]; without a
    listener its first [Accept] is a nil dereference. *)
Definition listen (process : Process) (n : Net) : Outcome unit :=
  match net_listen (listen_addr process) n with
  | None => Crashed n
  | Some n' => Done tt n'
  end.

(** [for i := 0; i < retries; i++]: [left] iterations remain, the
    current one has index [i]. *)
Fixpoint dial_retry (left : nat) (i : Z) (process otherProcess : Process)
    (n : Net) : option Conn * Net :=
  match left with
  | O => (None, n)
  | S left' =>
      match Dial dial_ok process otherProcess n with
      | (Some conn, n1) => (Some conn, n1)
      | (None, n1) =>
          dial_retry left' (i + 1) process otherProcess
                     (net_sleep (i + 1) n1)
      end
  end.

(** The client side: every other id is dialled. The [defer conn.Close()]
    of each connection has no effect before [startProcess] returns; it
    is [GobEnd.deferred]. *)
Fixpoint dial_loop (process : Process) (others : list Process)
    (connMap : gmap Z Conn) (n : Net) : Outcome (gmap Z Conn) :=
  match others with
  | [] => Done connMap n
  | otherProcess :: rest =>
      if negb (ID otherProcess =? ID process) then
        match dial_retry retries 0 process otherProcess n with
        | (None, n1) => Fatal n1
        | (Some conn, n1) =>
            dial_loop process rest (<[ID otherProcess := conn]> connMap) n1
        end
      else dial_loop process rest connMap n
  end.

Fixpoint listen_all (ps : list Process) (n : Net) : Outcome unit :=
  match ps with
  | [] => Done tt n
  | p :: ps' =>
      match listen p n with
      | Done _ n1 => listen_all ps' n1
      | Fatal n1 => Fatal n1
      | Crashed n1 => Crashed n1
      end
  end.

Fixpoint dial_all (config : Config) (ps : list Process) (n : Net)
  : Outcome (list (Process * gmap Z Conn)) :=
  match ps with
  | [] => Done [] n
  | p :: ps' =>
      match dial_loop p (Processes config) ∅ n with
      | Done m n1 =>
          match dial_all config ps' n1 with
          | Done ms n2 => Done ((p, m) :: ms) n2
          | Fatal n2 => Fatal n2
          | Crashed n2 => Crashed n2
          end
      | Fatal n1 => Fatal n1
      | Crashed n1 => Crashed n1
      end
  end.

(** Accepted connections only get a receiver; no map is touched. The
    processes run as one schedule of the concurrent program, every
    listener first and then the dial loops in the order of the
    configuration; what another schedule changes for a dial, a peer that
    does not listen yet, is a refusal by [dial_ok]. The outcome is the
    state at the end of the last dial loop; the [wg.Wait()] that follows
    and the return of [startProcess] are [GobEnd.Wait]. *)
Definition mesh (config : Config)
  : Outcome (list (Process * gmap Z Conn)) :=
  match listen_all (Processes config) empty_net with
  | Done _ n1 => dial_all config (Processes config) n1
  | Fatal n1 => Fatal n1
  | Crashed n1 => Crashed n1
  end.

End Mesh.
End GobMesh.

(** ** The end of [startProcess] in the gob variant *)

(** After its dial loop [startProcess] starts the console loop and calls
    [wg.Wait()]; when that returns, [startProcess] returns and the
    deferred [conn.Close()] calls run. *)
Module GobEnd.
Section Return.

(** Whether the wait group of a process counts a running receiver when
    the process reaches [wg.Wait()], that is, whether the process has
    accepted a connection by then. The scheduler decides. *)
Variable receiving : Process -> bool.

(** [defer conn.Close()] is registered for every connection the dial
    loop establishes: the connections of [ws] that [process] dialled. *)
Fixpoint deferred_from (process : Process) (c : Conn) (ws : list Wire)
  : list Conn :=
  match ws with
  | [] => []
  | w :: ws' =>
      if decide (w_from w = process)
      then c :: deferred_from process (S c) ws'
      else deferred_from process (S c) ws'
  end.

Definition deferred (process : Process) (ws : list Wire) : list Conn :=
  deferred_from process 0%nat ws.

(** [wg.Wait()] and what follows: with a receiver running it blocks for
    good, since [unicast_receive] never returns; with none it returns at
    once, [startProcess] returns and the deferred calls close what the
    process dialled. The result is the connections closed. *)
Definition Wait (process : Process) (ws : list Wire) : list Conn :=
  if receiving process then [] else deferred process ws.

(** The connections closed once every process has reached
    [wg.Wait()]. *)
Definition closed (procs : list Process) (ws : list Wire) : list Conn :=
  procs ≫= fun p => Wait p ws.

End Return.

(** The goroutine of a pending send, once its delay has elapsed, when
    the connections [shut] have been closed: [Encode] fails on a closed
    connection and [unicast_send] ends the program with [log.Fatal]
    ([None]). *)
Definition fire (shut : list Conn) (process : Process) (p : Pending)
    (rt : Runtime) : option Runtime :=
  if bool_decide (p_conn p ∈ shut) then None
  else Some (Gob.fire process p rt).

End GobEnd.

(** ** Example inputs *)

Definition nl : string := String LF "".

(** A file system whose only file is [config.txt]. *)
Definition config_file (text : string) : FileSystem :=
  fun name =>
    if String.eqb name "config.txt" then Some (mkReader text None) else None.

Definition no_file : FileSystem := fun _ => None.

Definition P1 : Process := mkProcess 1 "127.0.0.1" "8001".
Definition P2 : Process := mkProcess 2 "127.0.0.1" "8002".
Definition P3 : Process := mkProcess 3 "127.0.0.1" "8003".

(** The topology of the README, with three processes. *)
Definition config3 : Config := mkConfig 100 200 [P1; P2; P3].

Definition config2 : Config := mkConfig 100 200 [P1; P2].

(** Two processes and an empty delay range. *)
Definition equal_bounds_text : string :=
  "100 100" +:+ nl +:+ "1 127.0.0.1 8001" +:+ nl +:+ "2 127.0.0.1 8002" +:+ nl.

Definition always_up : nat -> bool := fun _ => true.
Definition never_up : nat -> bool := fun _ => false.
Definition up_after (k : nat) : nat -> bool := fun i => (k <=? i)%nat.

(** The console state of a process once the mesh stands: its map and the
    connections, nothing printed, nothing pending. *)
Definition console_start (connections : gmap Z Conn) (n : Net) : Runtime :=
  mkRuntime connections (net_wires n) [] [] 0.

(** The console state of the first process of a finished mesh. *)
Definition first_console (o : Outcome (list (Process * gmap Z Conn)))
  : option (Process * Runtime) :=
  match o with
  | Done ((p, m) :: _) n => Some (p, console_start m n)
  | _ => None
  end.

Definition empty_runtime : Runtime := mkRuntime ∅ [] [] [] 0.

(** The space-separated fields of a line, as the parsers index them. *)
Definition field_count (line : string) : nat := length (Split line SP).
Definition field (line : string) (i : nat) : string :=
  nth i (Split line SP) EmptyString.

(** A configuration whose integer fields are no integers. *)
Definition garbled_text : string :=
  "fast slow" +:+ nl +:+ "one 127.0.0.1 8001" +:+ nl.

(** ** Vocabulary of the mesh statements *)

(** The peers a process dials: in the line-text variant the entries with
    a lower id, in the gob variant the entries with another id. *)
Definition lower_peers (p : Process) (procs : list Process) : list Process :=
  filter (fun o => ID o < ID p) procs.

Definition other_peers (p : Process) (procs : list Process) : list Process :=
  filter (fun o => ID o <> ID p) procs.

(** A connection right after [net.Dial], and one on which the dialling
    end has written its handshake and nothing else. *)
Definition fresh_wire (p o : Process) : Wire := mkWire p o [] [].

Definition handshaken (p o : Process) : Wire :=
  mkWire p o [LineMesh.handshake p] [].

(** The wire [w] has [p] at one end and a process with id [k] at the
    other. *)
Definition touches (p : Process) (k : Z) (w : Wire) : Prop :=
  (w_from w = p /\ ID (w_to w) = k) \/ (w_to w = p /\ ID (w_from w) = k).

(** The seconds 1, 2, ..., k. *)
Definition backoff (k : nat) : list Z := map (fun j => Z.of_nat (S j)) (seq 0 k).

(** The connections of a finished mesh, as the dial loops of the
    processes [ps] create them in a topology [procs]. *)
Definition line_wires (procs ps : list Process) : list Wire :=
  ps ≫= fun p => handshaken p <$> lower_peers p procs.

Definition gob_wires (procs ps : list Process) : list Wire :=
  ps ≫= fun p => fresh_wire p <$> other_peers p procs.

(** A local map [m] of process [p] over the connections [W]: every entry
    leads to a connection between [p] and the peer of that id, and every
    peer of [peers] has an entry. *)
Definition map_sound (W : list Wire) (p : Process) (m : gmap Z Conn) : Prop :=
  forall k c, m !! k = Some c -> exists w, W !! c = Some w /\ touches p k w.

Definition map_covers (peers : list Process) (m : gmap Z Conn) : Prop :=
  forall q, q ∈ peers -> is_Some (m !! ID q).

Definition int64_ids (procs : list Process) : Prop :=
  Forall (fun p => is_int64 (ID p) = true) procs.

(** The dialling end has written its handshake before anything else. *)
Definition handshake_first (w : Wire) : Prop :=
  exists rest, w_up w = LineMesh.handshake (w_from w) :: rest.

(** The pending sends of several processes going off, one after the
    other, on the shared connections. *)
Definition fire_all (sends : list (Process * Pending)) (rt : Runtime) : Runtime :=
  foldl (fun rt s => LineText.fire (fst s) (snd s) rt) rt sends.

(** ** Vocabulary of the further properties *)

(** A send as [handleUserInput] of [process] schedules it over the map
    [conns]: the sender is the process itself, the connection is one of
    the map, the delay is a draw from the configured range. *)
Definition scheduled_by (process : Process) (conns : gmap Z Conn)
    (minDelay maxDelay : Z) (pd : Pending) : Prop :=
  p_sender pd = ID process
  /\ (exists k, conns !! k = Some (p_conn pd))
  /\ exists r d, draw_delay r minDelay maxDelay = Some d
                 /\ p_delay pd = Duration_ms d.

(** A console state with one connection, to process 2, and console
    input of three lines: a send to process 2, a stray word and a send to
    the unknown process 9. *)
Definition one_peer_runtime : Runtime :=
  mkRuntime {[2 := 0%nat]} [mkWire P1 P2 [] []] [] [] 0.

Definition three_lines : Reader :=
  mkReader ("send 2 hi" +:+ nl +:+ "hello" +:+ nl +:+ "send 9 x" +:+ nl) None.

(** A configuration file in the format the comment of [ParseConfig]
    describes: the two delays on the first line, then one line
    [ID IP Port] per process, every line closed by a line feed. *)
Definition format_process (p : Process) : string :=
  Itoa (ID p) +:+ " " +:+ IP p +:+ " " +:+ Port p.

Fixpoint format_lines (ls : list string) : string :=
  match ls with
  | [] => EmptyString
  | l :: ls' => l +:+ String LF (format_lines ls')
  end.

Definition format_config (config : Config) : string :=
  format_lines ((Itoa (MinDelay config) +:+ " " +:+ Itoa (MaxDelay config))
                :: map format_process (Processes config)).

(** A word that can stand in such a line: no space, no line feed, no
    carriage return. *)
Definition plain_word (s : string) : bool :=
  negb (contains_byte SP s) && negb (contains_byte LF s)
  && negb (contains_byte CR s).

(** A file whose reading breaks off with an error after two good lines. *)
Definition broken_read : FileSystem :=
  fun name =>
    if String.eqb name "config.txt"
    then Some (mkReader ("100 200" +:+ nl +:+ "1 127.0.0.1 8001" +:+ nl)
                        (Some ErrRead))
    else None.

(** A configuration with a blank line at its end. *)
Definition blank_line_text : string :=
  "100 200" +:+ nl +:+ "1 127.0.0.1 8001" +:+ nl +:+ nl.

(** The same lines as an editor with two-byte line ends writes them: a
    carriage return before every line feed. *)
Fixpoint format_lines_crlf (ls : list string) : string :=
  match ls with
  | [] => EmptyString
  | l :: ls' => l +:+ String CR (String LF (format_lines_crlf ls'))
  end.

(** A port word that names one fixed TCP port: a decimal number from 1
    to 65535. With port 0 the system picks a free port for each
    listener, so that no two listeners meet. *)
Definition fixed_port (port : string) : bool :=
  match Atoi port with
  | (k, None) => (1 <=? k) && (k <=? 65535)
  | (_, Some _) => false
  end.

(** A run in which the process started last reaches [wg.Wait()] before
    any peer has connected to it, and the others after. *)
Definition last_returns : Process -> bool := fun p => negb (ID p =? 3).

(** Two processes on one port, at different IP addresses. *)
Definition same_port : Config :=
  mkConfig 100 200 [mkProcess 1 "127.0.0.1" "8001";
                    mkProcess 2 "127.0.0.2" "8001"].

(** Two processes on one address. *)
Definition same_addr : Config :=
  mkConfig 100 200 [mkProcess 1 "127.0.0.1" "8001";
                    mkProcess 2 "127.0.0.1" "8001"].

(** Three processes, two of which share an id. *)
Definition twin : Process := mkProcess 2 "127.0.0.1" "8003".
Definition twin_ids : Config := mkConfig 100 200 [P1; P2; twin].

(** ** Proof automation *)

(** [String.append] is kept folded by [simpl]; its two equations are
    applied by conversion. *)
Ltac str_simpl :=
  repeat match goal with
    | |- context [String ?a ?s +:+ ?t] =>
        change (String a s +:+ t) with (String a (s +:+ t))
    | |- context [EmptyString +:+ ?t] => change (EmptyString +:+ t) with t
    end;
  simpl.

(** * Properties *)

(** ** Machine arithmetic *)

Lemma wrap64_small z : MinInt64 <= z <= MaxInt64 -> wrap64 z = z.
Proof.
  unfold wrap64, MinInt64, MaxInt64. intros Hz.
  rewrite Z.mod_small by lia. lia.
Qed.

Lemma wrap64_high z : MaxInt64 < z <= MaxUint64 -> wrap64 z = z - 2 ^ 64.
Proof.
  unfold wrap64, MaxInt64, MaxUint64. intros Hz.
  replace (z + 2 ^ 63) with ((z - 2 ^ 63) + 1 * 2 ^ 64) by lia.
  rewrite Z.mod_add by lia. rewrite Z.mod_small by lia. lia.
Qed.

Lemma is_int64_spec z : is_int64 z = true <-> MinInt64 <= z <= MaxInt64.
Proof. unfold is_int64. rewrite andb_true_iff, !Z.leb_le. tauto. Qed.

Lemma Intn_range r n k : Intn r n = Some k -> 0 <= k < n.
Proof.
  unfold Intn. destruct (Z.leb_spec n 0); [discriminate|].
  intros [= <-]. apply Z.mod_pos_bound. lia.
Qed.

Lemma Intn_total r n : 0 < n -> Intn r n = Some (r mod n).
Proof. unfold Intn. intros. destruct (Z.leb_spec n 0); [lia|done]. Qed.

Lemma Intn_surjective n k : 0 <= k < n -> Intn k n = Some k.
Proof. intros. rewrite Intn_total by lia. by rewrite Z.mod_small. Qed.

Lemma draw_delay_bounds r minDelay maxDelay d :
  is_int64 minDelay = true -> is_int64 maxDelay = true ->
  minDelay < maxDelay ->
  draw_delay r minDelay maxDelay = Some d ->
  minDelay <= d < maxDelay.
Proof.
  rewrite !is_int64_spec. intros Hmin Hmax Hlt. unfold draw_delay.
  destruct (Intn r (wrap64 (maxDelay - minDelay))) as [k|] eqn:Hk;
    [|discriminate].
  intros [= <-]. apply Intn_range in Hk.
  destruct (Z_le_gt_dec (maxDelay - minDelay) MaxInt64) as [Hs|Hb].
  - rewrite wrap64_small in Hk by (unfold MinInt64, MaxInt64 in *; lia).
    rewrite wrap64_small by (unfold MinInt64, MaxInt64 in *; lia). lia.
  - rewrite wrap64_high in Hk
      by (unfold MinInt64, MaxInt64, MaxUint64 in *; lia).
    unfold MinInt64, MaxInt64 in *. lia.
Qed.

Lemma draw_delay_total r minDelay maxDelay :
  is_int64 minDelay = true -> is_int64 maxDelay = true ->
  minDelay < maxDelay -> maxDelay - minDelay <= MaxInt64 ->
  exists d, draw_delay r minDelay maxDelay = Some d.
Proof.
  rewrite !is_int64_spec. intros Hmin Hmax Hlt Hd. unfold draw_delay.
  rewrite wrap64_small by (unfold MinInt64, MaxInt64 in *; lia).
  rewrite Intn_total by lia. eauto.
Qed.

Lemma draw_delay_equal r m : draw_delay r m m = None.
Proof. unfold draw_delay. by rewrite Z.sub_diag. Qed.

(** ** Strings *)

Lemma append_nil_l (t : string) : "" +:+ t = t.
Proof. reflexivity. Qed.

Lemma append_cons a (s t : string) : String a s +:+ t = String a (s +:+ t).
Proof. reflexivity. Qed.


Lemma append_nil_r s : s +:+ "" = s.
Proof. induction s as [|a s IH]; str_simpl; [done|by rewrite IH]. Qed.

Lemma append_assoc (s t u : string) : (s +:+ t) +:+ u = s +:+ (t +:+ u).
Proof. induction s as [|a s IH]; str_simpl; [done|by rewrite IH]. Qed.

Lemma length_append (s t : string) :
  String.length (s +:+ t) = (String.length s + String.length t)%nat.
Proof. induction s as [|a s IH]; str_simpl; [done|by rewrite IH]. Qed.

Lemma slen_append (s t : string) : slen (s +:+ t) = slen s + slen t.
Proof. unfold slen. rewrite length_append. lia. Qed.

Lemma contains_byte_append c (s t : string) :
  contains_byte c (s +:+ t) = contains_byte c s || contains_byte c t.
Proof.
  induction s as [|a s IH]; str_simpl; [done|].
  rewrite IH. by rewrite orb_assoc.
Qed.

Lemma HasPrefix_append (p t : string) : HasPrefix (p +:+ t) p = true.
Proof.
  induction p as [|a p IH]; str_simpl; [done|].
  by rewrite Ascii.eqb_refl, IH.
Qed.

Lemma drop_bytes_append (p t : string) :
  drop_bytes (String.length p) (p +:+ t) = t.
Proof. induction p as [|a p IH]; str_simpl; done. Qed.

Lemma TrimPrefix_append (p t : string) : TrimPrefix (p +:+ t) p = t.
Proof.
  unfold TrimPrefix. by rewrite HasPrefix_append, drop_bytes_append.
Qed.

Lemma Split_nonempty s sep : Split s sep <> [].
Proof.
  induction s as [|a s IH]; simpl; [done|].
  destruct (Ascii.eqb a sep); [done|]. by destruct (Split s sep).
Qed.

(** A piece without separator, then the separator: the piece is the
    first element of the split. *)
Lemma Split_cons sep (a b : string) :
  contains_byte sep a = false ->
  Split (a +:+ String sep b) sep = a :: Split b sep.
Proof.
  induction a as [|c a IH]; str_simpl.
  - intros _. by rewrite Ascii.eqb_refl.
  - intros H. apply orb_false_iff in H as [Hc Ha].
    rewrite Hc, IH by done. done.
Qed.

Lemma Split_single sep (a : string) :
  contains_byte sep a = false -> Split a sep = [a].
Proof.
  induction a as [|c a IH]; simpl; [done|].
  intros H. apply orb_false_iff in H as [Hc Ha].
  rewrite Hc, IH by done. done.
Qed.

(** Joining the pieces of a split with the separator gives the string
    back. *)
Lemma Join_Split s sep : Join (Split s sep) (String sep "") = s.
Proof.
  induction s as [|a s IH]; simpl; [done|].
  pose proof (Split_nonempty s sep) as Hn.
  destruct (Split s sep) as [|w ws] eqn:E; [done|].
  destruct (Ascii.eqb a sep) eqn:Ha.
  - apply Ascii.eqb_eq in Ha as ->.
    change (Join ("" :: w :: ws) (String sep ""))
      with ("" +:+ String sep "" +:+ Join (w :: ws) (String sep "")).
    rewrite IH. reflexivity.
  - destruct ws as [|w' ws].
    + simpl in IH. subst w. reflexivity.
    + change (Join (String a w :: w' :: ws) (String sep ""))
        with (String a w +:+ String sep "" +:+ Join (w' :: ws) (String sep "")).
      change (Join (w :: w' :: ws) (String sep ""))
        with (w +:+ String sep "" +:+ Join (w' :: ws) (String sep "")) in IH.
      rewrite append_cons. by rewrite IH.
Qed.

Lemma raw_lines_cons (a rest : string) :
  contains_byte LF a = false ->
  raw_lines (a +:+ String LF rest) = a :: raw_lines rest.
Proof.
  induction a as [|c a IH]; str_simpl.
  - done.
  - intros H. apply orb_false_iff in H as [Hc Ha].
    rewrite Hc, IH by done. done.
Qed.

Lemma dropCR_id s : ends_with_byte CR s = false -> dropCR s = s.
Proof.
  induction s as [|a s IH]; simpl; [done|].
  destruct s as [|b s]; [by intros ->|].
  intros H. by rewrite IH.
Qed.

Lemma ends_with_byte_append c (s : string) b t :
  ends_with_byte c (s +:+ String b t) = ends_with_byte c (String b t).
Proof.
  induction s as [|a s IH]; [done|].
  change (String a s +:+ String b t) with (String a (s +:+ String b t)).
  cbn [ends_with_byte]. destruct (s +:+ String b t) eqn:E.
  - by destruct s.
  - done.
Qed.

Lemma ends_with_byte_sep c b t :
  Ascii.eqb b c = false ->
  ends_with_byte c (String b t) = ends_with_byte c t.
Proof. intros H. destruct t; simpl; [done|done]. Qed.

(** ** [strconv]: digits, [Itoa] and [Atoi] *)

Lemma digit_of_range c d : digit_of c = Some d -> 0 <= d <= 9.
Proof.
  unfold digit_of.
  destruct (Z.leb_spec 48 (Z.of_nat (nat_of_ascii c)));
    destruct (Z.leb_spec (Z.of_nat (nat_of_ascii c)) 57); simpl;
    intros [= <-]; lia.
Qed.

(** The bytes of a printed unsigned number are digits. *)
Lemma string_of_uint_digits c d :
  digit_of c = None -> contains_byte c (NilEmpty.string_of_uint d) = false.
Proof.
  intros Hc.
  induction d as [|d IHd|d IHd|d IHd|d IHd|d IHd|d IHd|d IHd|d IHd|d IHd|d IHd];
    cbn [NilEmpty.string_of_uint contains_byte]; [done|..];
    rewrite IHd, orb_false_r; apply Ascii.eqb_neq; intros <-; discriminate.
Qed.

Lemma Itoa_bytes c z :
  digit_of c = None -> c <> "-"%char -> contains_byte c (Itoa z) = false.
Proof.
  intros Hc Hm. unfold Itoa.
  destruct (Z.to_int z) as [d|d];
    cbn [NilEmpty.string_of_int contains_byte].
  - by apply string_of_uint_digits.
  - rewrite string_of_uint_digits by done.
    rewrite orb_false_r. apply Ascii.eqb_neq. congruence.
Qed.

Lemma Itoa_no_space z : contains_byte SP (Itoa z) = false.
Proof. by apply Itoa_bytes. Qed.

Lemma Itoa_no_LF z : contains_byte LF (Itoa z) = false.
Proof. by apply Itoa_bytes. Qed.

Lemma Itoa_no_CR z : contains_byte CR (Itoa z) = false.
Proof. by apply Itoa_bytes. Qed.

Lemma of_uint_acc_mono d : forall q, (q <= Pos.of_uint_acc d q)%positive.
Proof.
  induction d as [|d IHd|d IHd|d IHd|d IHd|d IHd|d IHd|d IHd|d IHd|d IHd|d IHd];
    intros q; simpl; [lia|..];
    (etransitivity; [|apply IHd]); lia.
Qed.

(** On the digits of [d] the loop of [ParseUint] computes what
    [Pos.of_uint_acc] computes, as long as the value fits 64 bits. *)
Lemma ParseUint_loop_acc d : forall p,
  Z.pos (Pos.of_uint_acc d p) <= MaxUint64 ->
  ParseUint_loop (NilEmpty.string_of_uint d) (Z.pos p)
  = (Z.pos (Pos.of_uint_acc d p), None).
Proof.
  induction d as [|d IHd|d IHd|d IHd|d IHd|d IHd|d IHd|d IHd|d IHd|d IHd|d IHd];
    intros p Hb; cbn [NilEmpty.string_of_uint Pos.of_uint_acc] in *;
    [done|..];
    (cbn [ParseUint_loop];
     match goal with
     | |- context [digit_of ?c] =>
         let v := eval vm_compute in (digit_of c) in
         change (digit_of c) with v; cbv iota
     end;
     match type of Hb with
     | context [Pos.of_uint_acc ?d' ?q] =>
         pose proof (of_uint_acc_mono d' q) as Hm;
         specialize (IHd q Hb)
     end;
     unfold MaxUint64 in *;
     destruct (Z.leb_spec (18446744073709551615 / 10 + 1) (Z.pos p)) as [Hc|Hc];
     [exfalso; change (18446744073709551615 / 10 + 1)
        with 1844674407370955162 in Hc; lia|];
     match goal with
     | |- context [?a <? ?b] => destruct (Z.ltb_spec a b) as [Ho|Ho]
     end;
     [exfalso; lia|];
     rewrite <- IHd; f_equal; lia).
Qed.

Lemma ParseUint_loop_of_uint d :
  Z.of_N (Pos.of_uint d) <= MaxUint64 ->
  ParseUint_loop (NilEmpty.string_of_uint d) 0
  = (Z.of_N (Pos.of_uint d), None).
Proof.
  induction d as [|d IHd|d IHd|d IHd|d IHd|d IHd|d IHd|d IHd|d IHd|d IHd|d IHd];
    intros Hb; cbn [NilEmpty.string_of_uint Pos.of_uint] in *;
    [done| |..].
  { cbn [ParseUint_loop]. change (digit_of "0") with (Some 0).
    cbv iota. change (MaxUint64 / 10 + 1 <=? 0) with false.
    change (MaxUint64 <? 0 * 10 + 0) with false. cbv iota.
    by apply IHd. }
  all: cbn [ParseUint_loop];
      match goal with
      | |- context [digit_of ?c] =>
          let v := eval vm_compute in (digit_of c) in
          change (digit_of c) with v; cbv iota
      end;
      change (MaxUint64 / 10 + 1 <=? 0) with false; cbv iota;
      match goal with
      | |- context [MaxUint64 <? ?b] =>
          let v := eval vm_compute in (MaxUint64 <? b) in
          change (MaxUint64 <? b) with v; cbv iota
      end;
      match type of Hb with
      | context [Pos.of_uint_acc ?d' ?q] =>
          change (Z.of_N (N.pos (Pos.of_uint_acc d' q)))
            with (Z.pos (Pos.of_uint_acc d' q)) in *;
          rewrite <- (ParseUint_loop_acc d' q Hb)
      end; reflexivity.
Qed.

Lemma string_of_uint_nonempty d :
  d <> Decimal.Nil -> NilEmpty.string_of_uint d <> "".
Proof. by destruct d. Qed.

Lemma ParseUint_to_uint p :
  Z.pos p <= MaxUint64 ->
  ParseUint (NilEmpty.string_of_uint (Pos.to_uint p)) = (Z.pos p, None).
Proof.
  intros Hb. unfold ParseUint.
  pose proof (string_of_uint_nonempty _ (DecimalPos.Unsigned.to_uint_nonnil p)) as Hn.
  destruct (NilEmpty.string_of_uint (Pos.to_uint p)) eqn:E; [done|].
  rewrite <- E, ParseUint_loop_of_uint; rewrite DecimalPos.Unsigned.of_to; done.
Qed.

(** Parsing a printed integer gives the integer back. *)
Lemma Atoi_Itoa z : is_int64 z = true -> Atoi (Itoa z) = (z, None).
Proof.
  rewrite is_int64_spec. unfold MinInt64, MaxInt64. intros Hz.
  destruct z as [|p|p]; [done| |].
  - unfold Itoa, Atoi, ParseInt. cbn [Z.to_int NilEmpty.string_of_int].
    pose proof (ParseUint_to_uint p) as HP.
    pose proof (string_of_uint_digits "-" (Pos.to_uint p) eq_refl) as Hm.
    pose proof (string_of_uint_digits "+" (Pos.to_uint p) eq_refl) as Hpl.
    destruct (NilEmpty.string_of_uint (Pos.to_uint p)) as [|c s] eqn:E.
    { by apply string_of_uint_nonempty in E;
        [|apply DecimalPos.Unsigned.to_uint_nonnil]. }
    simpl in Hm, Hpl.
    apply orb_false_iff in Hm as [Hm _]. apply orb_false_iff in Hpl as [Hpl _].
    rewrite Hm, Hpl. cbn [orb negb andb].
    rewrite HP by (unfold MaxUint64; lia).
    destruct (Z.leb_spec (2 ^ 63) (Z.pos p)); [lia|done].
  - unfold Itoa, Atoi, ParseInt. cbn [Z.to_int NilEmpty.string_of_int].
    change (Ascii.eqb "-" "-") with true.
    change (Ascii.eqb "-" "+") with false. cbn [orb negb andb].
    rewrite ParseUint_to_uint by (unfold MaxUint64; lia).
    destruct (Z.ltb_spec (2 ^ 63) (Z.pos p)); [lia|done].
Qed.

(** What [Atoi] returns is an [int], and a syntax error comes with 0. *)
Lemma ParseUint_loop_bound s : forall n,
  0 <= n <= MaxUint64 ->
  0 <= fst (ParseUint_loop s n) <= MaxUint64.
Proof.
  induction s as [|c s IH]; intros n Hn; simpl; [done|].
  destruct (digit_of c) as [d|] eqn:Hd; [|simpl; unfold MaxUint64; lia].
  apply digit_of_range in Hd.
  destruct (Z.leb_spec (MaxUint64 / 10 + 1) n); [simpl; unfold MaxUint64; lia|].
  destruct (Z.ltb_spec MaxUint64 (n * 10 + d)); [simpl; unfold MaxUint64; lia|].
  apply IH. lia.
Qed.

Lemma Atoi_int64 s : is_int64 (fst (Atoi s)) = true.
Proof.
  unfold Atoi, ParseInt. destruct s as [|c rest]; [done|].
  set (body := if _ : bool then rest else String c rest).
  assert (0 <= fst (ParseUint body) <= MaxUint64) as Hb.
  { unfold ParseUint. destruct body; [simpl; unfold MaxUint64; lia|].
    apply ParseUint_loop_bound. unfold MaxUint64. lia. }
  destruct (ParseUint body) as [un [[]|]]; simpl in Hb; [done| |].
  all: destruct (Ascii.eqb c "-"); cbn [negb andb];
    repeat match goal with
    | |- context [if ?a <=? ?b then _ else _] => destruct (Z.leb_spec a b)
    | |- context [if ?a <? ?b then _ else _] => destruct (Z.ltb_spec a b)
    end; simpl; apply is_int64_spec; unfold MinInt64, MaxInt64, MaxUint64 in *;
    lia.
Qed.

Lemma Atoi_syntax_zero s : snd (Atoi s) = Some ErrSyntax -> fst (Atoi s) = 0.
Proof.
  unfold Atoi, ParseInt. destruct s as [|c rest]; [done|].
  destruct (ParseUint _) as [un [[]|]]; [done|..];
    repeat match goal with
    | |- context [if ?b then _ else _] => destruct b
    end; simpl; congruence.
Qed.

(** The printed form of an [int] has at most twenty bytes. *)
Lemma length_string_of_uint d :
  String.length (NilEmpty.string_of_uint d) = Decimal.nb_digits d.
Proof. induction d; simpl; congruence. Qed.

Lemma of_uint_acc_lower d : forall acc,
  Z.pos acc * 10 ^ Z.of_nat (Decimal.nb_digits d)
  <= Z.pos (Pos.of_uint_acc d acc).
Proof.
  induction d as [|d IHd|d IHd|d IHd|d IHd|d IHd|d IHd|d IHd|d IHd|d IHd|d IHd];
    intros acc; cbn [Decimal.nb_digits Pos.of_uint_acc];
    [rewrite Z.pow_0_r; lia|..];
    rewrite Nat2Z.inj_succ, Z.pow_succ_r by lia;
    (etransitivity; [|apply IHd]);
    assert (0 < 10 ^ Z.of_nat (Decimal.nb_digits d))
      by (apply Z.pow_pos_nonneg; lia);
    nia.
Qed.

Lemma to_uint_no_leading_zero p d : Pos.to_uint p <> Decimal.D0 d.
Proof.
  intros E.
  pose proof (DecimalPos.Unsigned.to_of (Pos.to_uint p)) as Hn.
  rewrite DecimalPos.Unsigned.of_to in Hn. cbn [N.to_uint] in Hn.
  rewrite E, DecimalFacts.unorm_D0 in Hn.
  assert (d = Decimal.Nil \/ d <> Decimal.Nil) as [->|Hd]
    by (destruct d; auto; right; discriminate).
  - by apply (DecimalPos.Unsigned.to_uint_nonzero p).
  - pose proof (DecimalFacts.nb_digits_unorm d Hd) as Hle.
    rewrite <- Hn in Hle. cbn [Decimal.nb_digits] in Hle. lia.
Qed.

Lemma nb_digits_to_uint p :
  10 ^ (Z.of_nat (Decimal.nb_digits (Pos.to_uint p)) - 1) <= Z.pos p.
Proof.
  pose proof (DecimalPos.Unsigned.of_to p) as Hv.
  pose proof (to_uint_no_leading_zero p) as Hz.
  pose proof (DecimalPos.Unsigned.to_uint_nonnil p) as Hnil.
  destruct (Pos.to_uint p) as [|d|d|d|d|d|d|d|d|d|d];
    [done|by destruct (Hz d)|..];
    cbn [Pos.of_uint Decimal.nb_digits] in *; injection Hv as <-;
    rewrite Nat2Z.inj_succ;
    replace (Z.succ (Z.of_nat (Decimal.nb_digits d)) - 1)
      with (Z.of_nat (Decimal.nb_digits d)) by lia;
    (etransitivity; [|apply of_uint_acc_lower]);
    assert (0 < 10 ^ Z.of_nat (Decimal.nb_digits d))
      by (apply Z.pow_pos_nonneg; lia);
    lia.
Qed.

Lemma slen_Itoa z : is_int64 z = true -> slen (Itoa z) <= 20.
Proof.
  rewrite is_int64_spec. unfold MinInt64, MaxInt64, slen, Itoa. intros Hz.
  assert (forall p, Z.pos p <= 2 ^ 63 ->
            (Decimal.nb_digits (Pos.to_uint p) <= 19)%nat) as Hd.
  { intros p Hp. pose proof (nb_digits_to_uint p) as Hlow.
    destruct (le_lt_dec (Decimal.nb_digits (Pos.to_uint p)) 19) as [|Hbig];
      [done|exfalso].
    assert (10 ^ 19 <= 10 ^ (Z.of_nat (Decimal.nb_digits (Pos.to_uint p)) - 1))
      by (apply Z.pow_le_mono_r; lia).
    lia. }
  destruct z as [|p|p]; cbn [Z.to_int NilEmpty.string_of_int String.length].
  - cbn. lia.
  - rewrite length_string_of_uint. specialize (Hd p). lia.
  - rewrite length_string_of_uint. specialize (Hd p). lia.
Qed.

Lemma contains_not_ends c s :
  contains_byte c s = false -> ends_with_byte c s = false.
Proof.
  induction s as [|a s IH]; [done|]. cbn [contains_byte].
  intros [Ha Hs]%orb_false_iff. destruct s; [done|]. by apply IH.
Qed.

(** ** The console loop *)

Lemma Split_send (X text : string) :
  contains_byte SP X = false ->
  Split ("send " +:+ X +:+ " " +:+ text) SP = "send" :: X :: Split text SP.
Proof.
  intros HX.
  change ("send " +:+ X +:+ " " +:+ text)
    with ("send" +:+ String SP (X +:+ String SP text)).
  rewrite Split_cons by reflexivity. by rewrite Split_cons.
Qed.

Lemma Split_send_bare (X : string) :
  contains_byte SP X = false -> Split ("send " +:+ X) SP = ["send"; X].
Proof.
  intros HX. change ("send " +:+ X) with ("send" +:+ String SP X).
  rewrite Split_cons by reflexivity. by rewrite Split_single.
Qed.

Lemma length_Split_pos s sep : (1 <= length (Split s sep))%nat.
Proof.
  pose proof (Split_nonempty s sep). destruct (Split s sep); simpl; [done|lia].
Qed.

Lemma Join_Split_space s : Join (Split s SP) " " = s.
Proof. exact (Join_Split s SP). Qed.

(** One line ["send X text"] in the line-text variant: the destination is
    whatever value [Atoi] returns, error or not. *)
Lemma LineText_handle_send rnd now process minDelay maxDelay X text rt :
  contains_byte SP X = false ->
  LineText.handle_line rnd now process minDelay maxDelay
    ("send " +:+ X +:+ " " +:+ text) rt
  = match connections rt !! fst (Atoi X) with
    | None =>
        Ok (println ("No connection to process " +:+ Itoa (fst (Atoi X))
                     +:+ ". Please check the configuration.") rt)
    | Some conn =>
        '(delay, rt1) ← next_delay rnd minDelay maxDelay rt;
        Ok (println ("Sent message: " +:+ text +:+ " to process: "
                     +:+ Itoa (fst (Atoi X)) +:+ " , system time is: "
                     +:+ now)
              (unicast_send_with_delay conn (ID process) text delay rt1))
    end.
Proof.
  intros HX. unfold LineText.handle_line. rewrite Split_send by done.
  pose proof (length_Split_pos text SP) as Hl.
  cbn [length]. destruct (Nat.ltb_spec (S (S (length (Split text SP)))) 2);
    [lia|].
  cbn [index lookup list_lookup mbind Result_bind].
  change (String.eqb "send" "send") with true. cbv iota.
  destruct (Nat.ltb_spec 2 (S (S (length (Split text SP))))); [|lia].
  cbn [drop]. by rewrite drop_0, Join_Split_space.
Qed.

Lemma LineText_handle_send_bare rnd now process minDelay maxDelay X rt :
  contains_byte SP X = false ->
  LineText.handle_line rnd now process minDelay maxDelay ("send " +:+ X) rt
  = match connections rt !! fst (Atoi X) with
    | None =>
        Ok (println ("No connection to process " +:+ Itoa (fst (Atoi X))
                     +:+ ". Please check the configuration.") rt)
    | Some conn =>
        '(delay, rt1) ← next_delay rnd minDelay maxDelay rt;
        Ok (println ("Sent message: " +:+ "" +:+ " to process: "
                     +:+ Itoa (fst (Atoi X)) +:+ " , system time is: "
                     +:+ now)
              (unicast_send_with_delay conn (ID process) "" delay rt1))
    end.
Proof.
  intros HX. unfold LineText.handle_line. rewrite Split_send_bare by done.
  reflexivity.
Qed.

(** The same line in the gob variant: a failed parse is reported. *)
Lemma Gob_handle_send rnd now process minDelay maxDelay X text rt :
  contains_byte SP X = false ->
  Gob.handle_line rnd now process minDelay maxDelay
    ("send " +:+ X +:+ " " +:+ text) rt
  = match Atoi X with
    | (destinationID, None) =>
        match connections rt !! destinationID with
        | Some encoder =>
            '(delay, rt1) ← next_delay rnd minDelay maxDelay rt;
            Ok (println ("Sent message: " +:+ text +:+ " to process "
                         +:+ Itoa destinationID +:+ ", system time is: "
                         +:+ now)
                  (unicast_send_with_delay encoder (ID process) text delay rt1))
        | None =>
            Ok (println ("Invalid destination process ID: "
                         +:+ Itoa destinationID) rt)
        end
    | (_, Some _) => Ok (println Gob.invalid_format rt)
    end.
Proof.
  intros HX. unfold Gob.handle_line. rewrite Split_send by done.
  pose proof (length_Split_pos text SP) as Hl.
  cbn [length index lookup list_lookup mbind Result_bind].
  change (String.eqb "send" "send") with true.
  destruct (Nat.ltb_spec 1 (S (S (length (Split text SP))))); [|lia].
  cbn [andb drop]. by rewrite drop_0, Join_Split_space.
Qed.

Lemma Gob_handle_send_bare rnd now process minDelay maxDelay X rt :
  contains_byte SP X = false ->
  Gob.handle_line rnd now process minDelay maxDelay ("send " +:+ X) rt
  = match Atoi X with
    | (destinationID, None) =>
        match connections rt !! destinationID with
        | Some encoder =>
            '(delay, rt1) ← next_delay rnd minDelay maxDelay rt;
            Ok (println ("Sent message: " +:+ "" +:+ " to process "
                         +:+ Itoa destinationID +:+ ", system time is: "
                         +:+ now)
                  (unicast_send_with_delay encoder (ID process) "" delay rt1))
        | None =>
            Ok (println ("Invalid destination process ID: "
                         +:+ Itoa destinationID) rt)
        end
    | (_, Some _) => Ok (println Gob.invalid_format rt)
    end.
Proof.
  intros HX. unfold Gob.handle_line. rewrite Split_send_bare by done.
  reflexivity.
Qed.

Lemma next_delay_equal rnd m rt : next_delay rnd m m rt = Panic.
Proof. unfold next_delay. by rewrite draw_delay_equal. Qed.

(** With equal bounds every send to a connected peer panics, in both
    variants. *)
Lemma equal_bounds_panic rnd now process m X text dest conn rt :
  contains_byte SP X = false ->
  Atoi X = (dest, None) ->
  connections rt !! dest = Some conn ->
  LineText.handle_line rnd now process m m ("send " +:+ X +:+ " " +:+ text) rt
  = Panic
  /\ Gob.handle_line rnd now process m m ("send " +:+ X +:+ " " +:+ text) rt
     = Panic.
Proof.
  intros HX HA Hc. rewrite LineText_handle_send, Gob_handle_send by done.
  rewrite HA. cbn [fst]. rewrite Hc, next_delay_equal. done.
Qed.

Lemma Atoi_range_bound s :
  snd (Atoi s) = Some ErrRange ->
  fst (Atoi s) = MaxInt64 \/ fst (Atoi s) = MinInt64.
Proof.
  unfold Atoi, ParseInt. destruct s as [|c rest]; [done|].
  destruct (ParseUint _) as [un [[]|]]; [done|..];
    repeat match goal with
    | |- context [if ?b then _ else _] => destruct b
    end; simpl; (done || auto).
Qed.

(** ** [ParseConfig] *)

Lemma parse_process_spec line :
  parse_process line
  = if (3 <=? field_count line)%nat
    then Ok (mkProcess (fst (Atoi (field line 0))) (field line 1) (field line 2))
    else Panic.
Proof.
  unfold parse_process, field_count, field.
  destruct (Split line SP) as [|f0 [|f1 [|f2 fs]]]; reflexivity.
Qed.

Lemma parse_processes_spec lines : forall acc,
  parse_processes lines acc
  = if forallb (fun l => (3 <=? field_count l)%nat) lines
    then Ok (acc ++ map (fun l => mkProcess (fst (Atoi (field l 0)))
                                            (field l 1) (field l 2)) lines)%list
    else Panic.
Proof.
  induction lines as [|l ls IH]; intros acc;
    cbn [parse_processes forallb map].
  - by rewrite app_nil_r.
  - rewrite parse_process_spec.
    destruct (3 <=? field_count l)%nat; [|reflexivity].
    cbn [mbind Result_bind andb]. rewrite IH.
    destruct (forallb _ ls); [|reflexivity].
    by rewrite <- app_assoc.
Qed.

(** What [ParseConfig] returns for a file that can be opened. *)
Lemma ParseConfig_spec fs filename file :
  fs filename = Some file ->
  let tokens := fst (Scanner file) in
  let first := hd EmptyString tokens in
  ParseConfig fs filename
  = if (2 <=? field_count first)%nat
    then if forallb (fun l => (3 <=? field_count l)%nat) (tail tokens)
         then match snd (Scanner file) with
              | Some e => Err e
              | None =>
                  Ok (mkConfig (fst (Atoi (field first 0)))
                               (fst (Atoi (field first 1)))
                               (map (fun l => mkProcess (fst (Atoi (field l 0)))
                                                        (field l 1) (field l 2))
                                    (tail tokens)))
              end
         else Panic
    else Panic.
Proof.
  intros Hf. unfold ParseConfig. rewrite Hf.
  destruct (Scanner file) as [tokens err]. cbn [fst snd].
  change (match tokens with [] => "" | l :: _ => l end) with (hd "" tokens).
  unfold field_count at 1, field at 1 2.
  destruct (Split (hd "" tokens) SP) as [|d0 [|d1 ds]]; try reflexivity.
  cbn [index lookup list_lookup mbind Result_bind length Nat.leb nth].
  rewrite parse_processes_spec.
  destruct (forallb _ (tail tokens)); [|reflexivity].
  cbn [mbind Result_bind app]. by destruct err.
Qed.

(** ** The line framing *)

Lemma scan_tokens_cons line rest :
  contains_byte LF line = false ->
  ends_with_byte CR line = false ->
  slen line < MaxScanTokenSize ->
  scan_tokens (raw_lines (line +:+ String LF rest))
  = (line :: fst (scan_tokens (raw_lines rest)),
     snd (scan_tokens (raw_lines rest))).
Proof.
  intros HLF HCR Hlen. rewrite raw_lines_cons by done.
  cbn [scan_tokens]. destruct (Z.leb_spec MaxScanTokenSize (slen line)); [lia|].
  rewrite dropCR_id by done. by destruct (scan_tokens (raw_lines rest)).
Qed.

Lemma record_line_no_LF id text :
  contains_byte LF text = false ->
  contains_byte LF (Itoa id +:+ " " +:+ text) = false.
Proof.
  intros H. rewrite !contains_byte_append, Itoa_no_LF, H. reflexivity.
Qed.

Lemma record_line_no_CR_end id text :
  ends_with_byte CR text = false ->
  ends_with_byte CR (Itoa id +:+ " " +:+ text) = false.
Proof.
  intros H. change (" " +:+ text) with (String SP text).
  rewrite ends_with_byte_append, ends_with_byte_sep; done.
Qed.

(** The receiver cuts a record line back into the printed id and the
    text, whatever spaces the text contains. *)
Lemma receive_line_record id text :
  LineText.receive_line (Itoa id +:+ " " +:+ text) = (Itoa id, text).
Proof.
  unfold LineText.receive_line.
  pose proof (Split_cons SP (Itoa id) text (Itoa_no_space id)) as HS.
  change (String SP text) with (" " +:+ text) in HS. rewrite HS.
  pose proof (append_assoc (Itoa id) " " text) as HA.
  rewrite <- HA. by rewrite TrimPrefix_append.
Qed.

(** The bytes of a sequence of sent records decode to the records. *)
Lemma unicast_receive_stream (rs : list (Z * string)) :
  Forall (fun r => contains_byte LF (snd r) = false
                   /\ ends_with_byte CR (snd r) = false
                   /\ slen (Itoa (fst r)) + 1 + slen (snd r) < MaxScanTokenSize)
         rs ->
  Scanner (mkReader
             (stream (map (fun r => LineText.unicast_send (fst r) (snd r)) rs))
             None)
  = (map (fun r => Itoa (fst r) +:+ " " +:+ snd r) rs, None).
Proof.
  unfold Scanner. cbn [r_data r_err].
  induction 1 as [|[id text] rs (HLF & HCR & Hlen) _ IH]; [done|].
  cbn [map stream LineText.unicast_send fst snd] in *.
  replace ((Itoa id +:+ " " +:+ text +:+ String LF "") +:+
           stream (map (fun r => LineText.unicast_send r.1 r.2) rs))
    with ((Itoa id +:+ " " +:+ text) +:+ String LF
            (stream (map (fun r => LineText.unicast_send r.1 r.2) rs))).
  2:{ rewrite !append_assoc. reflexivity. }
  rewrite scan_tokens_cons.
  - destruct (scan_tokens _) as [ts e]. cbn [fst snd].
    injection IH as -> He. destruct e; [discriminate|done].
  - by apply record_line_no_LF.
  - by apply record_line_no_CR_end.
  - rewrite !slen_append. change (slen " ") with 1. lia.
Qed.

(** ** The retry loop of the gob variant *)

Lemma dial_retry_all_fail dial_ok left : forall i p o n,
  (forall j, (j < left)%nat -> dial_ok (attempts n + j)%nat = false) ->
  GobMesh.dial_retry dial_ok left i p o n
  = (None, mkNet (listeners n) (net_wires n) (attempts n + left)
                 (slept n ++ map (fun j => i + 1 + Z.of_nat j) (seq 0 left))).
Proof.
  induction left as [|left IH]; intros i p o n Hf.
  - destruct n. cbn. by rewrite Nat.add_0_r, app_nil_r.
  - cbn [GobMesh.dial_retry]. unfold Dial.
    rewrite <- (Nat.add_0_r (attempts n)) at 1.
    rewrite Hf by lia. rewrite IH.
    + cbn [listeners net_wires attempts slept net_sleep seq map].
      f_equal. f_equal; [lia|].
      rewrite <- app_assoc. cbn [app]. f_equal. f_equal; [lia|].
      rewrite <- seq_shift, map_map. apply map_ext. intros j. lia.
    + intros j Hj. cbn [attempts net_sleep].
      replace (S (attempts n) + j)%nat with (attempts n + S j)%nat by lia.
      apply Hf. lia.
Qed.

Lemma dial_retry_success dial_ok k : forall left i p o n,
  (k < left)%nat ->
  (forall j, (j < k)%nat -> dial_ok (attempts n + j)%nat = false) ->
  dial_ok (attempts n + k)%nat = true ->
  GobMesh.dial_retry dial_ok left i p o n
  = (Some (length (net_wires n)),
     mkNet (listeners n) (net_wires n ++ [fresh_wire p o])
           (S (attempts n + k))
           (slept n ++ map (fun j => i + 1 + Z.of_nat j) (seq 0 k))).
Proof.
  induction k as [|k IH]; intros left i p o n Hk Hf Hs.
  - destruct left as [|left]; [lia|]. cbn [GobMesh.dial_retry]. unfold Dial.
    rewrite Nat.add_0_r in Hs. rewrite Hs.
    cbn. by rewrite Nat.add_0_r, app_nil_r.
  - destruct left as [|left]; [lia|]. cbn [GobMesh.dial_retry]. unfold Dial.
    rewrite <- (Nat.add_0_r (attempts n)) at 1.
    rewrite Hf by lia. rewrite (IH left).
    + cbn [listeners net_wires attempts slept net_sleep seq map].
      f_equal. f_equal; [lia|].
      rewrite <- app_assoc. cbn [app]. f_equal. f_equal; [lia|].
      rewrite <- seq_shift, map_map. apply map_ext. intros j. lia.
    + lia.
    + intros j Hj. cbn [attempts net_sleep].
      replace (S (attempts n) + j)%nat with (attempts n + S j)%nat by lia.
      apply Hf. lia.
    + cbn [attempts net_sleep].
      replace (S (attempts n) + k)%nat with (attempts n + S k)%nat by lia.
      done.
Qed.

Lemma backoff_alt k : map (fun j => 0 + 1 + Z.of_nat j) (seq 0 k) = backoff k.
Proof. unfold backoff. apply map_ext. intros j. lia. Qed.

(** ** The dial loop of the line-text variant *)

Lemma conn_write_fresh p o x (W : list Wire) :
  conn_write p (length W) x (W ++ [fresh_wire p o]) = W ++ [mkWire p o [x] []].
Proof.
  unfold conn_write. rewrite <- (Nat.add_0_r (length W)), alter_app_r.
  cbn. unfold write_wire, fresh_wire. cbn. by rewrite decide_True.
Qed.

Lemma LineMesh_dial_loop_lower dial_ok p o rest m n :
  ID o < ID p ->
  LineMesh.dial_loop dial_ok p (o :: rest) m n
  = if dial_ok (attempts n)
    then LineMesh.dial_loop dial_ok p rest (<[ID o := length (net_wires n)]> m)
           (mkNet (listeners n) (net_wires n ++ [handshaken p o])
                  (S (attempts n)) (slept n))
    else Fatal (mkNet (listeners n) (net_wires n) (S (attempts n)) (slept n)).
Proof.
  intros Hlt. cbn [LineMesh.dial_loop].
  destruct (Z.ltb_spec (ID o) (ID p)); [|lia].
  unfold Dial. destruct (dial_ok (attempts n)); [|done].
  unfold net_write. cbn [listeners net_wires attempts slept].
  change (mkWire p o [] []) with (fresh_wire p o).
  by rewrite conn_write_fresh.
Qed.

Lemma LineMesh_dial_loop_skip dial_ok p o rest m n :
  ~ ID o < ID p ->
  LineMesh.dial_loop dial_ok p (o :: rest) m n
  = LineMesh.dial_loop dial_ok p rest m n.
Proof.
  intros Hlt. cbn [LineMesh.dial_loop].
  by destruct (Z.ltb_spec (ID o) (ID p)); [lia|].
Qed.

(** What a dial loop that gets through has done: one handshaken wire per
    lower peer, in order, and one map entry per wire. *)
Lemma LineMesh_dial_loop_done dial_ok p others : forall m n m' n',
  LineMesh.dial_loop dial_ok p others m n = Done m' n' ->
  net_wires n' = net_wires n ++ (handshaken p <$> lower_peers p others)
  /\ listeners n' = listeners n
  /\ slept n' = slept n
  /\ (forall k, is_Some (m !! k) -> is_Some (m' !! k))
  /\ (forall o, o ∈ lower_peers p others -> is_Some (m' !! ID o))
  /\ (forall k c, m' !! k = Some c ->
        m !! k = Some c
        \/ exists o, o ∈ lower_peers p others /\ k = ID o
                     /\ net_wires n' !! c = Some (handshaken p o)).
Proof.
  induction others as [|o rest IH]; intros m n m' n' Hd.
  - cbn in Hd. injection Hd as <- <-. unfold lower_peers.
    rewrite filter_nil, fmap_nil, app_nil_r.
    repeat split; auto. intros ? []%elem_of_nil.
  - destruct (decide (ID o < ID p)) as [Hlt|Hnlt].
    + rewrite LineMesh_dial_loop_lower in Hd by done.
      destruct (dial_ok (attempts n)); [|discriminate].
      apply IH in Hd as (HW & HL & HS & Hmono & Htot & Hsound).
      cbn [net_wires listeners slept] in *.
      unfold lower_peers in *. rewrite filter_cons_True by done.
      rewrite fmap_cons.
      assert (net_wires n' !! length (net_wires n) = Some (handshaken p o))
        as Hnew.
      { rewrite HW, <- app_assoc. cbn [app].
        by rewrite lookup_app_r, Nat.sub_diag by lia. }
      split; [by rewrite HW, <- app_assoc|].
      split; [done|]. split; [done|]. split; [|split].
      * intros k Hk. apply Hmono. rewrite lookup_insert_is_Some.
        destruct (decide (ID o = k)); auto.
      * intros o' [->|Ho']%elem_of_cons; [|by apply Htot].
        apply Hmono. rewrite lookup_insert_eq. eauto.
      * intros k c Hkc. apply Hsound in Hkc as [Hkc|(o' & Ho' & -> & Hw)].
        -- destruct (decide (ID o = k)) as [<-|Hne].
           ++ rewrite lookup_insert_eq in Hkc. injection Hkc as <-.
              right. exists o. split; [apply list_elem_of_here|done].
           ++ rewrite lookup_insert_ne in Hkc by done. by left.
        -- right. exists o'. split; [by apply list_elem_of_further|done].
    + rewrite LineMesh_dial_loop_skip in Hd by done.
      apply IH in Hd as (HW & HL & HS & Hmono & Htot & Hsound).
      unfold lower_peers in *. rewrite filter_cons_False by done. done.
Qed.

(** With every dial succeeding the loop gets through. *)
Lemma LineMesh_dial_loop_total dial_ok p others : forall m n,
  (forall k, dial_ok k = true) ->
  exists m' n', LineMesh.dial_loop dial_ok p others m n = Done m' n'.
Proof.
  induction others as [|o rest IH]; intros m n Hok; [by eexists _, _|].
  destruct (decide (ID o < ID p)) as [Hlt|Hnlt].
  - rewrite LineMesh_dial_loop_lower, Hok by done. by apply IH.
  - rewrite LineMesh_dial_loop_skip by done. by apply IH.
Qed.

(** A failed dial ends the loop at once: nothing is retried, nothing is
    slept. *)
Lemma LineMesh_dial_loop_fatal dial_ok p o rest m n :
  ID o < ID p -> dial_ok (attempts n) = false ->
  LineMesh.dial_loop dial_ok p (o :: rest) m n
  = Fatal (mkNet (listeners n) (net_wires n) (S (attempts n)) (slept n)).
Proof. intros Hlt Hf. by rewrite LineMesh_dial_loop_lower, Hf. Qed.

(** ** Handshake, listeners and the accept loop *)

(** The acceptor reads the dialler's id off a handshaken connection. *)
Lemma getOtherID_handshake q :
  is_int64 (ID q) = true ->
  LineMesh.getOtherID (mkReader (stream [LineMesh.handshake q]) None)
  = Some (ID q).
Proof.
  intros Hq. unfold LineMesh.getOtherID, Scanner, LineMesh.handshake.
  cbn [stream r_data r_err]. rewrite append_nil_r.
  rewrite scan_tokens_cons.
  - cbn. by rewrite Atoi_Itoa.
  - apply Itoa_no_LF.
  - apply contains_not_ends, Itoa_no_CR.
  - pose proof (slen_Itoa (ID q) Hq). unfold MaxScanTokenSize. lia.
Qed.

Lemma LineMesh_listen_all_done ps : forall n n',
  LineMesh.listen_all ps n = Done tt n' ->
  listeners n' = listeners n ++ (addr <$> ps)
  /\ (NoDup (listeners n) -> NoDup (listeners n'))
  /\ net_wires n' = net_wires n
  /\ attempts n' = attempts n
  /\ slept n' = slept n.
Proof.
  induction ps as [|p ps IH]; intros n n' Hd.
  - cbn in Hd. injection Hd as <-. by rewrite app_nil_r.
  - cbn [LineMesh.listen_all] in Hd. unfold LineMesh.listen, net_listen in Hd.
    case_bool_decide as Hin; [discriminate|].
    apply IH in Hd as (HL & HN & HW & HA & HS).
    cbn [listeners net_wires attempts slept] in *.
    split; [by rewrite HL, <- app_assoc|]. split; [|done].
    intros Hnd. apply HN, NoDup_app. split; [done|].
    split; [|apply NoDup_singleton].
    intros a Ha ->%list_elem_of_singleton. done.
Qed.

Lemma incoming_from_spec a (W : list Wire) : forall c0 c w,
  (c, w) ∈ incoming_from a c0 W
  <-> exists i, c = (c0 + i)%nat /\ W !! i = Some w /\ addr (w_to w) = a.
Proof.
  induction W as [|w0 W IH]; intros c0 c w; cbn [incoming_from].
  - split; [intros []%elem_of_nil|]. intros (i & _ & Hi & _).
    by rewrite lookup_nil in Hi.
  - destruct (String.eqb_spec (addr (w_to w0)) a) as [Ha|Ha].
    + rewrite elem_of_cons, IH. split.
      * intros [[= -> ->]|(i & -> & Hi & Hw)].
        -- exists 0%nat. by rewrite Nat.add_0_r.
        -- exists (S i). split; [lia|done].
      * intros ([|i] & -> & Hi & Hw).
        -- left. cbn in Hi. injection Hi as <-. by rewrite Nat.add_0_r.
        -- right. exists i. split; [lia|done].
    + rewrite IH. split.
      * intros (i & -> & Hi & Hw). exists (S i). split; [lia|done].
      * intros ([|i] & -> & Hi & Hw).
        -- cbn in Hi. injection Hi as <-. done.
        -- exists i. split; [lia|done].
Qed.

Lemma incoming_spec a (W : list Wire) c w :
  (c, w) ∈ incoming a W <-> W !! c = Some w /\ addr (w_to w) = a.
Proof.
  unfold incoming. rewrite incoming_from_spec. split.
  - by intros (i & -> & ? & ?).
  - intros [? ?]. by exists c.
Qed.

(** On handshaken connections the accept loop gets through and enters
    one pair (dialler's id, connection) per connection. *)
Lemma LineMesh_accept_loop_done pend : forall m n,
  Forall (fun cw => w_up (snd cw) = [LineMesh.handshake (w_from (snd cw))]
                    /\ is_int64 (ID (w_from (snd cw))) = true) pend ->
  exists m',
    LineMesh.accept_loop pend m n = Done m' n
    /\ (forall k, is_Some (m !! k) -> is_Some (m' !! k))
    /\ (forall c w, (c, w) ∈ pend -> is_Some (m' !! ID (w_from w)))
    /\ (forall k c, m' !! k = Some c ->
          m !! k = Some c \/ exists w, (c, w) ∈ pend /\ k = ID (w_from w)).
Proof.
  induction pend as [|[c0 w0] pend IH]; intros m n Hp.
  - exists m. repeat split; auto. intros ? ? []%elem_of_nil.
  - apply Forall_cons in Hp as [[Hup Hid] Hp]. cbn [snd] in *.
    cbn [LineMesh.accept_loop]. rewrite Hup, getOtherID_handshake by done.
    destruct (IH (<[ID (w_from w0) := c0]> m) n Hp)
      as (m' & -> & Hmono & Htot & Hsound).
    exists m'. split; [done|]. split; [|split].
    + intros k Hk. apply Hmono. rewrite lookup_insert_is_Some.
      destruct (decide (ID (w_from w0) = k)); auto.
    + intros c w [[= -> ->]|Hin]%elem_of_cons; [|by eapply Htot].
      apply Hmono. rewrite lookup_insert_eq. eauto.
    + intros k c Hkc. apply Hsound in Hkc as [Hkc|(w & Hin & ->)].
      * destruct (decide (ID (w_from w0) = k)) as [<-|Hne].
        -- rewrite lookup_insert_eq in Hkc. injection Hkc as <-.
           right. exists w0. split; [apply list_elem_of_here|done].
        -- rewrite lookup_insert_ne in Hkc by done. by left.
      * right. exists w. split; [by apply list_elem_of_further|done].
Qed.

(** ** The mesh of the line-text variant *)

Lemma NoDup_fmap_inj {A B} (f : A -> B) (l : list A) x y :
  NoDup (f <$> l) -> x ∈ l -> y ∈ l -> f x = f y -> x = y.
Proof.
  induction l as [|a l IH]; [by intros _ []%elem_of_nil|].
  rewrite fmap_cons, NoDup_cons. intros [Ha Hl] Hx Hy Hf.
  apply elem_of_cons in Hx as [->|Hx]; apply elem_of_cons in Hy as [->|Hy].
  - done.
  - destruct Ha. rewrite Hf. apply list_elem_of_fmap. by exists y.
  - destruct Ha. rewrite <- Hf. apply list_elem_of_fmap. by exists x.
  - by apply IH.
Qed.

Lemma map_sound_app W more p m : map_sound W p m -> map_sound (W ++ more) p m.
Proof.
  intros Hs k c Hkc. destruct (Hs k c Hkc) as (w & Hw & Ht).
  exists w. split; [|done]. by apply lookup_app_l_Some.
Qed.

Lemma LineMesh_dial_all_done dial_ok config ps : forall n pms n',
  LineMesh.dial_all dial_ok config ps n = Done pms n' ->
  net_wires n' = net_wires n ++ line_wires (Processes config) ps
  /\ listeners n' = listeners n
  /\ slept n' = slept n
  /\ pms.*1 = ps
  /\ Forall (fun pm => map_sound (net_wires n') pm.1 pm.2
                       /\ map_covers (lower_peers pm.1 (Processes config)) pm.2
                       /\ forall k c, pm.2 !! k = Some c -> k < ID pm.1) pms.
Proof.
  induction ps as [|p ps IH]; intros n pms n' Hd.
  - cbn in Hd. injection Hd as <- <-. unfold line_wires.
    by rewrite app_nil_r.
  - cbn [LineMesh.dial_all] in Hd.
    destruct (LineMesh.dial_loop dial_ok p (Processes config) ∅ n)
      as [m n1| |] eqn:Hloop; [|discriminate..].
    destruct (LineMesh.dial_all dial_ok config ps n1)
      as [ms n2| |] eqn:Hrest; [|discriminate..].
    injection Hd as <- <-.
    apply LineMesh_dial_loop_done in Hloop
      as (HW1 & HL1 & HS1 & _ & Htot & Hsound).
    apply IH in Hrest as (HW2 & HL2 & HS2 & Hfst & Hall).
    split; [|split; [congruence|split;
                       [congruence|split; [by rewrite fmap_cons, Hfst|]]]].
    { unfold line_wires in *. rewrite bind_cons, HW2, HW1.
      by rewrite <- app_assoc. }
    constructor; [|done]. cbn [fst snd]. split; [|split; [done|]].
    + rewrite HW2. apply map_sound_app. intros k c Hkc.
      apply Hsound in Hkc as [Hkc|(o & Ho & -> & Hw)].
      * by rewrite lookup_empty in Hkc.
      * exists (handshaken p o). split; [done|]. by left.
    + intros k c Hkc. apply Hsound in Hkc as [Hkc|(o & Ho & -> & Hw)].
      * by rewrite lookup_empty in Hkc.
      * unfold lower_peers in Ho. by apply list_elem_of_filter in Ho as [? _].
Qed.

Lemma LineMesh_dial_all_total dial_ok config ps : forall n,
  (forall k, dial_ok k = true) ->
  exists pms n', LineMesh.dial_all dial_ok config ps n = Done pms n'.
Proof.
  induction ps as [|p ps IH]; intros n Hok; [by eexists _, _|].
  cbn [LineMesh.dial_all].
  destruct (LineMesh_dial_loop_total dial_ok p (Processes config) ∅ n Hok)
    as (m & n1 & ->).
  destruct (IH n1 Hok) as (ms & n2 & ->). by eexists _, _.
Qed.

Lemma line_wires_elem procs ps w :
  w ∈ line_wires procs ps
  <-> exists p o, w = handshaken p o /\ p ∈ ps /\ o ∈ procs /\ ID o < ID p.
Proof.
  unfold line_wires, lower_peers. rewrite list_elem_of_bind. split.
  - intros (p & Hw & Hp). apply list_elem_of_fmap in Hw as (o & -> & Ho).
    apply list_elem_of_filter in Ho as [? ?]. by exists p, o.
  - intros (p & o & -> & Hp & Ho & Hlt). exists p. split; [|done].
    apply list_elem_of_fmap. exists o. split; [done|].
    by apply list_elem_of_filter.
Qed.

(** The accept loops of all processes, over the connections of the
    finished dial phase. *)
Lemma LineMesh_accept_all_done procs pms : forall n,
  net_wires n = line_wires procs procs ->
  int64_ids procs ->
  NoDup (addr <$> procs) ->
  pms.*1 ⊆ procs ->
  Forall (fun pm => map_sound (net_wires n) pm.1 pm.2
                    /\ map_covers (lower_peers pm.1 procs) pm.2
                    /\ forall k c, pm.2 !! k = Some c -> k < ID pm.1) pms ->
  exists pms',
    LineMesh.accept_all pms n = Done pms' n
    /\ pms'.*1 = pms.*1
    /\ Forall (fun pm => map_sound (net_wires n) pm.1 pm.2
                         /\ map_covers (other_peers pm.1 procs) pm.2) pms'.
Proof.
  intros n HW Hint Hnd. induction pms as [|[p m] pms IH]; intros Hsub Hall.
  - exists []. by repeat split.
  - apply Forall_cons in Hall as [(Hsound & Hcov & Hlow) Hall].
    cbn [fst snd] in *.
    assert (p ∈ procs) as Hp by (apply Hsub; rewrite fmap_cons; left).
    destruct IH as (pms' & Hrun & Hfst & Hall'); [|done|].
    { intros x Hx. apply Hsub. rewrite fmap_cons. by right. }
    cbn [LineMesh.accept_all].
    destruct (LineMesh_accept_loop_done
                (incoming (addr p) (net_wires n)) m n)
      as (m' & -> & Hmono & Htot & Hnew).
    { apply Forall_forall. intros [c w] [Hc _]%incoming_spec. cbn [snd].
      apply list_elem_of_lookup_2 in Hc. rewrite HW in Hc.
      apply line_wires_elem in Hc as (x & o & -> & Hx & _). cbn.
      split; [done|]. unfold int64_ids in Hint.
      rewrite Forall_forall in Hint. by apply Hint. }
    rewrite Hrun. exists ((p, m') :: pms').
    split; [done|]. split; [by rewrite !fmap_cons, Hfst|].
    constructor; [|done]. cbn [fst snd]. split.
    + intros k c Hkc. apply Hnew in Hkc as [Hkc|(w & Hin & ->)];
        [by apply Hsound|].
      apply incoming_spec in Hin as [Hc Ha]. exists w. split; [done|].
      right. split; [|done].
      pose proof Hc as Hel. apply list_elem_of_lookup_2 in Hel.
      rewrite HW in Hel. apply line_wires_elem in Hel as (x & o & -> & _ & Ho & _).
      cbn [w_to handshaken] in *.
      by apply (NoDup_fmap_inj addr procs).
    + intros q Hq. unfold other_peers in Hq.
      apply list_elem_of_filter in Hq as [Hne Hq].
      destruct (Z.lt_total (ID q) (ID p)) as [Hlt|[Heq|Hgt]]; [|done|].
      * apply Hmono, Hcov. unfold lower_peers. by apply list_elem_of_filter.
      * assert (handshaken q p ∈ net_wires n) as Hel.
        { rewrite HW. apply line_wires_elem. by exists q, p. }
        apply list_elem_of_lookup_1 in Hel as [c Hc].
        apply (Htot c (handshaken q p)). by apply incoming_spec.
Qed.

Lemma LineMesh_mesh_done dial_ok config pms n :
  int64_ids (Processes config) ->
  LineMesh.mesh dial_ok config = Done pms n ->
  NoDup (addr <$> Processes config)
  /\ listeners n = addr <$> Processes config
  /\ net_wires n = line_wires (Processes config) (Processes config)
  /\ slept n = []
  /\ pms.*1 = Processes config
  /\ Forall (fun pm => map_sound (net_wires n) pm.1 pm.2
                       /\ map_covers (other_peers pm.1 (Processes config)) pm.2)
            pms.
Proof.
  intros Hint. unfold LineMesh.mesh.
  destruct (LineMesh.listen_all (Processes config) empty_net)
    as [[] n1| |] eqn:Hl; [|discriminate..].
  apply LineMesh_listen_all_done in Hl as (HL1 & HN1 & HW1 & _ & HS1).
  cbn [empty_net listeners net_wires slept app] in *.
  destruct (LineMesh.dial_all dial_ok config (Processes config) n1)
    as [pms0 n2| |] eqn:Hd; [|discriminate..].
  apply LineMesh_dial_all_done in Hd as (HW2 & HL2 & HS2 & Hfst & Hall).
  rewrite HW1 in HW2. cbn [app] in HW2.
  assert (NoDup (addr <$> Processes config)) as Hnd.
  { rewrite <- HL1. apply HN1. constructor. }
  destruct (LineMesh_accept_all_done (Processes config) pms0 n2)
    as (pms' & Hrun & Hfst' & Hall'); try done.
  { by rewrite Hfst. }
  rewrite Hrun. intros [= <- <-].
  split; [done|]. split; [congruence|]. split; [done|].
  split; [congruence|]. split; [congruence|done].
Qed.

(** The mesh stands whenever the addresses differ and every dial
    succeeds. *)
Lemma LineMesh_listen_all_total ps : forall n,
  NoDup (listeners n ++ (addr <$> ps)) ->
  exists n', LineMesh.listen_all ps n = Done tt n'.
Proof.
  induction ps as [|p ps IH]; intros n Hnd; [by eexists|].
  cbn [LineMesh.listen_all]. unfold LineMesh.listen, net_listen.
  rewrite fmap_cons in Hnd.
  case_bool_decide as Hin.
  - apply NoDup_app in Hnd as (_ & Hdis & _). destruct (Hdis _ Hin). left.
  - apply IH. cbn [listeners]. by rewrite <- app_assoc.
Qed.

Lemma LineMesh_mesh_total dial_ok config :
  (forall k, dial_ok k = true) ->
  int64_ids (Processes config) ->
  NoDup (addr <$> Processes config) ->
  exists pms n, LineMesh.mesh dial_ok config = Done pms n.
Proof.
  intros Hok Hint Hnd. unfold LineMesh.mesh.
  destruct (LineMesh_listen_all_total (Processes config) empty_net)
    as [n1 Hl]; [done|]. rewrite Hl.
  destruct (LineMesh_dial_all_total dial_ok config (Processes config) n1 Hok)
    as (pms0 & n2 & Hd). rewrite Hd.
  apply LineMesh_listen_all_done in Hl as (_ & _ & HW1 & _).
  apply LineMesh_dial_all_done in Hd as (HW2 & _ & _ & Hfst & Hall).
  rewrite HW1 in HW2. cbn [empty_net net_wires app] in HW2.
  destruct (LineMesh_accept_all_done (Processes config) pms0 n2)
    as (pms' & Hrun & _); try done.
  { by rewrite Hfst. }
  by eexists _, _.
Qed.

(** ** Counting connections *)

Lemma length_line_wires_sum (procs ps : list Process) :
  length (line_wires procs ps)
  = sum_list_with (fun p => length (lower_peers p procs)) ps.
Proof.
  unfold line_wires. induction ps as [|x l IH]; [done|].
  rewrite bind_cons, length_app, length_fmap. cbn. lia.
Qed.

Lemma length_lower_higher a (l : list Process) :
  Forall (fun p => ID p <> ID a) l ->
  (length (filter (fun o => (ID o < ID a)%Z) l)
   + length (filter (fun p => (ID a < ID p)%Z) l) = length l)%nat.
Proof.
  induction 1 as [|p l Hp _ IH]; [done|].
  destruct (Z.lt_total (ID p) (ID a)) as [Hlt|[Heq|Hgt]]; [|done|].
  - rewrite filter_cons_True, (filter_cons_False (fun p => ID a < ID p))
      by lia. cbn. lia.
  - rewrite filter_cons_False, (filter_cons_True (fun p => ID a < ID p))
      by lia. cbn. lia.
Qed.

Lemma sum_lower_cons a (l ps : list Process) :
  sum_list_with (fun p => length (lower_peers p (a :: l))) ps
  = (sum_list_with (fun p => length (lower_peers p l)) ps
     + length (filter (fun p => (ID a < ID p)%Z) ps))%nat.
Proof.
  induction ps as [|p ps IH]; [done|]. cbn [sum_list_with]. rewrite IH.
  unfold lower_peers at 1.
  destruct (decide (ID a < ID p)) as [Hlt|Hnlt].
  - rewrite !filter_cons_True by done. unfold lower_peers. cbn. lia.
  - rewrite !filter_cons_False by done. unfold lower_peers. lia.
Qed.

Lemma NoDup_ids_cons a (l : list Process) :
  NoDup (ID <$> a :: l) ->
  Forall (fun p => ID p <> ID a) l /\ NoDup (ID <$> l).
Proof.
  rewrite fmap_cons, NoDup_cons. intros [Ha Hl]. split; [|done].
  apply Forall_forall. intros p Hp Heq. apply Ha. rewrite <- Heq.
  apply list_elem_of_fmap. by exists p.
Qed.

(** Twice the number of lower-dials pairs is K (K - 1). *)
Lemma length_line_wires (procs : list Process) :
  NoDup (ID <$> procs) ->
  (2 * length (line_wires procs procs)
   = length procs * (length procs - 1))%nat.
Proof.
  rewrite length_line_wires_sum.
  induction procs as [|a l IH]; [done|]. intros Hnd.
  apply NoDup_ids_cons in Hnd as [Hne Hnd]. specialize (IH Hnd).
  cbn [sum_list_with]. rewrite sum_lower_cons.
  unfold lower_peers at 1. rewrite filter_cons_False by lia.
  pose proof (length_lower_higher a l Hne) as Hsplit.
  cbn [length]. destruct (length l) as [|k] eqn:Hk; [lia|].
  replace (S (S k) - 1)%nat with (S k) by lia.
  replace (S k - 1)%nat with k in IH by lia. nia.
Qed.

(** ** One connection per pair; the local maps *)

Lemma NoDup_procs (procs : list Process) : NoDup (ID <$> procs) -> NoDup procs.
Proof. apply NoDup_fmap_1. Qed.

Lemma NoDup_line_wires (procs : list Process) :
  NoDup procs -> NoDup (line_wires procs procs).
Proof.
  intros Hnd. unfold line_wires. apply NoDup_bind; [| |done].
  - intros x1 x2 w _ _ (o1 & -> & _)%list_elem_of_fmap
      (o2 & [= -> _] & _)%list_elem_of_fmap. done.
  - intros x _. apply NoDup_fmap_2; [|by apply NoDup_filter].
    by intros o1 o2 [=].
Qed.

Lemma NoDup_all_equal {A} (l : list A) (x : A) :
  NoDup l -> x ∈ l -> (forall y, y ∈ l -> y = x) -> length l = 1%nat.
Proof.
  intros Hnd Hx Hall. destruct l as [|a [|b l]]; [by apply elem_of_nil in Hx|done|].
  pose proof (Hall a ltac:(left)) as ->.
  pose proof (Hall b ltac:(right; left)) as ->.
  apply NoDup_cons in Hnd as [Hn _]. destruct Hn. left.
Qed.

(** Between two processes of different ids the mesh holds the one
    connection dialled by the higher id. *)
Lemma channels_between_line (procs : list Process) p q :
  NoDup (ID <$> procs) -> p ∈ procs -> q ∈ procs -> ID q < ID p ->
  (forall w, w ∈ channels_between (line_wires procs procs) p q
             <-> w = handshaken p q)
  /\ (forall w, w ∈ channels_between (line_wires procs procs) q p
                <-> w = handshaken p q).
Proof.
  intros Hnd Hp Hq Hlt. unfold channels_between.
  split; intros w; rewrite list_elem_of_filter, line_wires_elem; split.
  - intros [[[<- <-]|[<- <-]] (x & o & -> & _ & _ & Hxo)]; cbn in *; [done|lia].
  - intros ->. split; [by left|]. by exists p, q.
  - intros [[[<- <-]|[<- <-]] (x & o & -> & _ & _ & Hxo)]; cbn in *; [lia|done].
  - intros ->. split; [by right|]. by exists p, q.
Qed.

Lemma length_channels_between_line (procs : list Process) p q :
  NoDup (ID <$> procs) -> p ∈ procs -> q ∈ procs -> p <> q ->
  length (channels_between (line_wires procs procs) p q) = 1%nat.
Proof.
  intros Hnd Hp Hq Hne.
  assert (ID p <> ID q) as Hid.
  { intros Heq. apply Hne. by apply (NoDup_fmap_inj ID procs). }
  assert (NoDup (channels_between (line_wires procs procs) p q)) as Hnd'.
  { apply NoDup_filter, NoDup_line_wires, NoDup_procs, Hnd. }
  destruct (Z.lt_total (ID q) (ID p)) as [Hlt|[Heq|Hgt]]; [|done|].
  - destruct (channels_between_line procs p q Hnd Hp Hq Hlt) as [H1 _].
    apply (NoDup_all_equal _ (handshaken p q)); [done|by apply H1|].
    intros w. apply H1.
  - destruct (channels_between_line procs q p Hnd Hq Hp Hgt) as [_ H2].
    apply (NoDup_all_equal _ (handshaken q p)); [done|by apply H2|].
    intros w. apply H2.
Qed.

Lemma NoDup_ids_filter (P : Process -> Prop) `{forall x, Decision (P x)}
    (procs : list Process) :
  NoDup (ID <$> procs) -> NoDup (ID <$> filter P procs).
Proof.
  induction procs as [|a l IH]; [done|].
  rewrite fmap_cons, NoDup_cons. intros [Ha Hl].
  destruct (decide (P a)).
  - rewrite filter_cons_True by done. rewrite fmap_cons, NoDup_cons.
    split; [|by apply IH]. intros (x & Hx & Hin)%list_elem_of_fmap.
    apply list_elem_of_filter in Hin as [_ Hin]. apply Ha.
    apply list_elem_of_fmap. by exists x.
  - rewrite filter_cons_False by done. by apply IH.
Qed.

Lemma length_other_peers (procs : list Process) p :
  NoDup (ID <$> procs) -> p ∈ procs ->
  length (other_peers p procs) = (length procs - 1)%nat.
Proof.
  unfold other_peers. induction procs as [|a l IH]; [by intros _ []%elem_of_nil|].
  intros Hnd Hp. apply NoDup_ids_cons in Hnd as [Hne Hnd].
  apply elem_of_cons in Hp as [->|Hp].
  - rewrite filter_cons_False by (intros Hc; by apply Hc).
    cbn [length]. rewrite Nat.sub_succ, Nat.sub_0_r.
    clear IH Hnd. induction Hne as [|x l Hx _ IH]; [done|].
    rewrite filter_cons_True by done. cbn. by rewrite IH.
  - rewrite Forall_forall in Hne. specialize (Hne p Hp).
    rewrite filter_cons_True by done. cbn [length]. rewrite IH by done.
    destruct l; [by apply elem_of_nil in Hp|]. cbn. lia.
Qed.

Lemma size_by_keys (keys : list Z) (m : gmap Z Conn) :
  NoDup keys -> (forall k, is_Some (m !! k) <-> k ∈ keys) ->
  size m = length keys.
Proof.
  intros Hnd Hk. rewrite <- size_dom, <- (size_list_to_set (C:=gset Z)) by done.
  f_equal. apply set_eq. intros k.
  by rewrite elem_of_dom, elem_of_list_to_set.
Qed.

Lemma touches_line_wire procs p k w :
  w ∈ line_wires procs procs -> touches p k w ->
  exists z, z ∈ procs /\ ID z = k /\ ID z <> ID p
            /\ (w = handshaken p z \/ w = handshaken z p).
Proof.
  intros (x & o & -> & Hx & Ho & Hlt)%line_wires_elem [[<- <-]|[<- <-]];
    cbn in *.
  - exists o. split; [done|]. split; [done|]. split; [lia|by left].
  - exists x. split; [done|]. split; [done|]. split; [lia|by right].
Qed.

(** A sound map that covers the other peers has exactly their ids as its
    keys. *)
Lemma line_map_keys procs p m :
  map_sound (line_wires procs procs) p m ->
  map_covers (other_peers p procs) m ->
  forall k, is_Some (m !! k) <-> k ∈ ID <$> other_peers p procs.
Proof.
  intros Hs Hc k. split.
  - intros [c Hkc]. destruct (Hs k c Hkc) as (w & Hw & Ht).
    apply list_elem_of_lookup_2 in Hw.
    destruct (touches_line_wire procs p k w Hw Ht) as (z & Hz & <- & Hne & _).
    apply list_elem_of_fmap. exists z. split; [done|].
    by apply list_elem_of_filter.
  - intros (z & -> & Hz)%list_elem_of_fmap. by apply Hc.
Qed.

(** Both ends of a pair hold the same connection in their maps. *)
Lemma line_same_channel procs p q mp mq :
  NoDup (ID <$> procs) -> p ∈ procs -> q ∈ procs -> p <> q ->
  map_sound (line_wires procs procs) p mp ->
  map_covers (other_peers p procs) mp ->
  map_sound (line_wires procs procs) q mq ->
  map_covers (other_peers q procs) mq ->
  exists c w, mp !! ID q = Some c /\ mq !! ID p = Some c
              /\ line_wires procs procs !! c = Some w
              /\ w ∈ channels_between (line_wires procs procs) p q.
Proof.
  intros Hnd Hp Hq Hne Hsp Hcp Hsq Hcq.
  assert (ID p <> ID q) as Hid.
  { intros Heq. apply Hne. by apply (NoDup_fmap_inj ID procs). }
  assert (forall a b m, a ∈ procs -> b ∈ procs -> ID a <> ID b ->
            map_sound (line_wires procs procs) a m ->
            map_covers (other_peers a procs) m ->
            exists c w, m !! ID b = Some c
                        /\ line_wires procs procs !! c = Some w
                        /\ (w = handshaken a b \/ w = handshaken b a)) as Hone.
  { intros a b m Ha Hb Hab Hs Hc.
    destruct (Hc b) as [c Hbc].
    { apply list_elem_of_filter. split; [congruence|done]. }
    destruct (Hs _ _ Hbc) as (w & Hw & Ht). exists c, w.
    split; [done|]. split; [done|].
    pose proof Hw as Hel. apply list_elem_of_lookup_2 in Hel.
    destruct (touches_line_wire procs a (ID b) w Hel Ht)
      as (z & Hz & Hzb & _ & Hor).
    by rewrite (NoDup_fmap_inj ID procs z b Hnd Hz Hb Hzb) in Hor. }
  destruct (Hone p q mp Hp Hq Hid Hsp Hcp) as (c & w & Hc & Hw & Hor).
  destruct (Hone q p mq Hq Hp ltac:(congruence) Hsq Hcq)
    as (c' & w' & Hc' & Hw' & Hor').
  assert (w ∈ channels_between (line_wires procs procs) p q) as Hin.
  { apply list_elem_of_filter. split; [|by eapply list_elem_of_lookup_2].
    destruct Hor as [-> | ->]; [by left|by right]. }
  assert (w' ∈ channels_between (line_wires procs procs) p q) as Hin'.
  { apply list_elem_of_filter. split; [|by eapply list_elem_of_lookup_2].
    destruct Hor' as [-> | ->]; [by right|by left]. }
  assert (w = w') as <-.
  { destruct (Z.lt_total (ID q) (ID p)) as [Hlt|[Heq|Hgt]]; [|congruence|].
    - destruct (channels_between_line procs p q Hnd Hp Hq Hlt) as [H1 _].
      apply H1 in Hin, Hin'. congruence.
    - destruct (channels_between_line procs q p Hnd Hq Hp Hgt) as [_ H2].
      apply H2 in Hin, Hin'. congruence. }
  assert (c = c') as <-.
  { eapply NoDup_lookup; [|done..].
    apply NoDup_line_wires, NoDup_procs, Hnd. }
  by exists c, w.
Qed.

(** ** The mesh of the gob variant *)

Lemma GobMesh_dial_retry_Some dial_ok left : forall i p o n c n1,
  GobMesh.dial_retry dial_ok left i p o n = (Some c, n1) ->
  c = length (net_wires n)
  /\ net_wires n1 = net_wires n ++ [fresh_wire p o]
  /\ listeners n1 = listeners n.
Proof.
  induction left as [|left IH]; intros i p o n c n1 Hr; [discriminate|].
  cbn [GobMesh.dial_retry] in Hr. unfold Dial in Hr.
  destruct (dial_ok (attempts n)).
  - by injection Hr as <- <-.
  - apply IH in Hr. cbn [net_sleep net_wires listeners] in Hr. done.
Qed.

Lemma GobMesh_dial_loop_done dial_ok p others : forall m n m' n',
  GobMesh.dial_loop dial_ok p others m n = Done m' n' ->
  net_wires n' = net_wires n ++ (fresh_wire p <$> other_peers p others)
  /\ listeners n' = listeners n
  /\ (forall k, is_Some (m !! k) -> is_Some (m' !! k))
  /\ (forall o, o ∈ other_peers p others -> is_Some (m' !! ID o))
  /\ (forall k c, m' !! k = Some c ->
        m !! k = Some c \/ exists o, o ∈ other_peers p others /\ k = ID o).
Proof.
  induction others as [|o rest IH]; intros m n m' n' Hd.
  - cbn in Hd. injection Hd as <- <-. unfold other_peers.
    rewrite filter_nil, fmap_nil, app_nil_r.
    repeat split; auto. intros ? []%elem_of_nil.
  - cbn [GobMesh.dial_loop] in Hd. unfold other_peers in *.
    destruct (Z.eqb_spec (ID o) (ID p)) as [Heq|Hne]; cbn [negb] in Hd.
    + rewrite filter_cons_False by (intros Hc; by apply Hc). by apply IH.
    + destruct (GobMesh.dial_retry dial_ok GobMesh.retries 0 p o n)
        as [[conn|] n1] eqn:Hr; [|discriminate].
      apply GobMesh_dial_retry_Some in Hr as (-> & HW1 & HL1).
      apply IH in Hd as (HW & HL & Hmono & Htot & Hkeys).
      rewrite filter_cons_True by done. rewrite fmap_cons.
      split; [by rewrite HW, HW1, <- app_assoc|].
      split; [congruence|]. split; [|split].
      * intros k Hk. apply Hmono. rewrite lookup_insert_is_Some.
        destruct (decide (ID o = k)); auto.
      * intros o' [->|Ho']%elem_of_cons; [|by apply Htot].
        apply Hmono. rewrite lookup_insert_eq. eauto.
      * intros k c Hkc. apply Hkeys in Hkc as [Hkc|(o' & Ho' & ->)].
        -- destruct (decide (ID o = k)) as [<-|Hnk].
           ++ right. exists o. split; [apply list_elem_of_here|done].
           ++ rewrite lookup_insert_ne in Hkc by done. by left.
        -- right. exists o'. split; [by apply list_elem_of_further|done].
Qed.

Lemma GobMesh_dial_all_done dial_ok config ps : forall n pms n',
  GobMesh.dial_all dial_ok config ps n = Done pms n' ->
  net_wires n' = net_wires n ++ gob_wires (Processes config) ps
  /\ pms.*1 = ps
  /\ Forall (fun pm => forall k,
               is_Some (pm.2 !! k)
               <-> k ∈ ID <$> other_peers pm.1 (Processes config)) pms.
Proof.
  induction ps as [|p ps IH]; intros n pms n' Hd.
  - cbn in Hd. injection Hd as <- <-. unfold gob_wires.
    by rewrite app_nil_r.
  - cbn [GobMesh.dial_all] in Hd.
    destruct (GobMesh.dial_loop dial_ok p (Processes config) ∅ n)
      as [m n1| |] eqn:Hloop; [|discriminate..].
    destruct (GobMesh.dial_all dial_ok config ps n1)
      as [ms n2| |] eqn:Hrest; [|discriminate..].
    injection Hd as <- <-.
    apply GobMesh_dial_loop_done in Hloop as (HW1 & _ & _ & Htot & Hkeys).
    apply IH in Hrest as (HW2 & Hfst & Hall).
    split; [|split; [by rewrite fmap_cons, Hfst|]].
    { unfold gob_wires in *. rewrite bind_cons, HW2, HW1.
      by rewrite <- app_assoc. }
    constructor; [|done]. cbn [fst snd]. intros k. split.
    + intros [c Hkc]. apply Hkeys in Hkc as [Hkc|(o & Ho & ->)].
      * by rewrite lookup_empty in Hkc.
      * apply list_elem_of_fmap. by exists o.
    + intros (o & -> & Ho)%list_elem_of_fmap. by apply Htot.
Qed.

Lemma GobMesh_listen_all_done ps : forall n n',
  GobMesh.listen_all ps n = Done tt n' -> net_wires n' = net_wires n.
Proof.
  induction ps as [|p ps IH]; intros n n' Hd.
  - cbn in Hd. by injection Hd as <-.
  - cbn [GobMesh.listen_all] in Hd. unfold GobMesh.listen, net_listen in Hd.
    case_bool_decide; [discriminate|]. by apply IH in Hd.
Qed.

Lemma GobMesh_mesh_done dial_ok config pms n :
  GobMesh.mesh dial_ok config = Done pms n ->
  net_wires n = gob_wires (Processes config) (Processes config)
  /\ pms.*1 = Processes config
  /\ Forall (fun pm => forall k,
               is_Some (pm.2 !! k)
               <-> k ∈ ID <$> other_peers pm.1 (Processes config)) pms.
Proof.
  unfold GobMesh.mesh.
  destruct (GobMesh.listen_all (Processes config) empty_net)
    as [[] n1| |] eqn:Hl; [|discriminate..].
  apply GobMesh_listen_all_done in Hl. intros Hd.
  apply GobMesh_dial_all_done in Hd as (HW & Hfst & Hall).
  rewrite Hl in HW. done.
Qed.

Lemma gob_wires_elem procs ps w :
  w ∈ gob_wires procs ps
  <-> exists p o, w = fresh_wire p o /\ p ∈ ps /\ o ∈ procs /\ ID o <> ID p.
Proof.
  unfold gob_wires, other_peers. rewrite list_elem_of_bind. split.
  - intros (p & Hw & Hp). apply list_elem_of_fmap in Hw as (o & -> & Ho).
    apply list_elem_of_filter in Ho as [? ?]. by exists p, o.
  - intros (p & o & -> & Hp & Ho & Hlt). exists p. split; [|done].
    apply list_elem_of_fmap. exists o. split; [done|].
    by apply list_elem_of_filter.
Qed.

(** Every process dials K - 1 peers: K (K - 1) connections. *)
Lemma length_gob_wires (procs : list Process) :
  NoDup (ID <$> procs) ->
  length (gob_wires procs procs) = (length procs * (length procs - 1))%nat.
Proof.
  intros Hnd. unfold gob_wires.
  assert (forall ps, ps ⊆ procs ->
            length (ps ≫= fun p => fresh_wire p <$> other_peers p procs)
            = (length ps * (length procs - 1))%nat) as Hgen.
  { induction ps as [|p ps IH]; intros Hsub; [done|].
    rewrite bind_cons, length_app, length_fmap, IH.
    - rewrite length_other_peers; [cbn; lia|done|]. apply Hsub. left.
    - intros x Hx. apply Hsub. by right. }
  by apply Hgen.
Qed.

(** ** Who dials whom; what is written first *)

Lemma dials_spec (W : list Wire) p q :
  dials W p q = true <-> exists w, w ∈ W /\ w_from w = p /\ w_to w = q.
Proof.
  unfold dials. rewrite existsb_exists. split.
  - intros (w & Hin & Hb). apply andb_true_iff in Hb as [H1 H2].
    apply bool_decide_eq_true in H1, H2. exists w.
    by rewrite list_elem_of_In.
  - intros (w & Hin & H1 & H2). exists w. rewrite <- list_elem_of_In.
    split; [done|]. by rewrite !bool_decide_eq_true_2.
Qed.

Lemma dials_false (W : list Wire) p q :
  dials W p q = false <-> forall w, w ∈ W -> ~ (w_from w = p /\ w_to w = q).
Proof.
  rewrite <- not_true_iff_false, dials_spec. split.
  - intros Hn w Hin Hw. apply Hn. by exists w.
  - intros Hall (w & Hin & Hw). by apply (Hall w).
Qed.

Lemma LineMesh_accept_loop_net pend : forall m n m' n',
  LineMesh.accept_loop pend m n = Done m' n' -> n' = n.
Proof.
  induction pend as [|[c w] pend IH]; intros m n m' n' Hd; cbn in Hd.
  - by injection Hd as _ <-.
  - destruct (LineMesh.getOtherID _); [|discriminate]. by apply IH in Hd.
Qed.

Lemma LineMesh_accept_all_net pms : forall n pms' n',
  LineMesh.accept_all pms n = Done pms' n' -> n' = n.
Proof.
  induction pms as [|[p m] pms IH]; intros n pms' n' Hd.
  - cbn in Hd. by injection Hd as _ <-.
  - cbn [LineMesh.accept_all] in Hd.
    destruct (LineMesh.accept_loop _ m n) as [m1 n1| |] eqn:Hl;
      [|discriminate..].
    apply LineMesh_accept_loop_net in Hl as ->.
    destruct (LineMesh.accept_all pms n) as [ms n2| |] eqn:Hr;
      [|discriminate..].
    apply IH in Hr as ->. by injection Hd as _ <-.
Qed.

(** The connections of a finished line-text mesh, whatever the ids. *)
Lemma LineMesh_mesh_wires dial_ok config pms n :
  LineMesh.mesh dial_ok config = Done pms n ->
  net_wires n = line_wires (Processes config) (Processes config).
Proof.
  unfold LineMesh.mesh.
  destruct (LineMesh.listen_all (Processes config) empty_net)
    as [[] n1| |] eqn:Hl; [|discriminate..].
  apply LineMesh_listen_all_done in Hl as (_ & _ & HW1 & _).
  destruct (LineMesh.dial_all dial_ok config (Processes config) n1)
    as [pms0 n2| |] eqn:Hd; [|discriminate..].
  apply LineMesh_dial_all_done in Hd as (HW2 & _).
  intros Ha. apply LineMesh_accept_all_net in Ha as ->.
  by rewrite HW2, HW1.
Qed.

Lemma write_wire_handshake_first p x w :
  handshake_first w -> handshake_first (write_wire p x w).
Proof.
  intros [rest Hw]. unfold write_wire, handshake_first.
  case_decide; cbn [w_up w_from]; rewrite Hw; eauto.
Qed.

Lemma fire_all_handshake_first sends : forall rt,
  Forall handshake_first (wires rt) ->
  Forall handshake_first (wires (fire_all sends rt)).
Proof.
  unfold fire_all.
  induction sends as [|[p pd] sends IH]; intros rt Hrt; [done|].
  cbn [foldl]. apply IH. unfold LineText.fire, conn_write. cbn [wires fst snd].
  apply Forall_alter; [done|]. intros w _. apply write_wire_handshake_first.
Qed.

(** * The properties of the specification *)

(** C1, as stated, fails: in the line-text variant the lower id never
    dials and the higher id does; in the gob variant the higher id dials
    the lower one as well. *)
Lemma C1_counterexample :
  ID P1 < ID P2
  /\ match LineMesh.mesh always_up config2 with
     | Done _ n =>
         dials (net_wires n) P1 P2 = false /\ dials (net_wires n) P2 P1 = true
     | _ => False
     end
  /\ match GobMesh.mesh always_up config2 with
     | Done _ n =>
         dials (net_wires n) P1 P2 = true /\ dials (net_wires n) P2 P1 = true
     | _ => False
     end.
Proof. split; [reflexivity|]. split; vm_compute; done. Qed.

(** C1, amended: for every two processes of the topology with different
    ids, in the line-text variant the process with the higher id dials
    the one with the lower id, which only listens and accepts (it never
    dials the higher one); in the gob variant each of the two dials the
    other. *)
Theorem C1_who_dials (dial_ok : nat -> bool) (config : Config) (p q : Process) :
  p ∈ Processes config -> q ∈ Processes config -> ID p < ID q ->
  (forall pms n,
     LineMesh.mesh dial_ok config = Done pms n ->
     dials (net_wires n) q p = true /\ dials (net_wires n) p q = false)
  /\ (forall pms n,
        GobMesh.mesh dial_ok config = Done pms n ->
        dials (net_wires n) q p = true /\ dials (net_wires n) p q = true).
Proof.
  intros Hp Hq Hlt. split; intros pms n Hm.
  - apply LineMesh_mesh_wires in Hm as ->. split.
    + apply dials_spec. exists (handshaken q p). split; [|done].
      apply line_wires_elem. by exists q, p.
    + apply dials_false.
      intros w (x & o & -> & _ & _ & Hxo)%line_wires_elem [<- <-].
      cbn in *. lia.
  - apply GobMesh_mesh_done in Hm as (-> & _). split.
    + apply dials_spec. exists (fresh_wire q p). split; [|done].
      apply gob_wires_elem. exists q, p. repeat split; auto. lia.
    + apply dials_spec. exists (fresh_wire p q). split; [|done].
      apply gob_wires_elem. exists p, q. repeat split; auto. lia.
Qed.

Lemma C1_who_dials_witness :
  P1 ∈ Processes config3 /\ P3 ∈ Processes config3 /\ ID P1 < ID P3
  /\ (forall pms n,
        LineMesh.mesh always_up config3 = Done pms n ->
        dials (net_wires n) P3 P1 = true /\ dials (net_wires n) P1 P3 = false)
  /\ (forall pms n,
        GobMesh.mesh always_up config3 = Done pms n ->
        dials (net_wires n) P3 P1 = true /\ dials (net_wires n) P1 P3 = true).
Proof.
  assert (P1 ∈ Processes config3) as H1 by (cbn; left).
  assert (P3 ∈ Processes config3) as H3 by (cbn; right; right; left).
  assert (ID P1 < ID P3) as Hlt by reflexivity.
  split; [exact H1|]. split; [exact H3|]. split; [exact Hlt|].
  exact (C1_who_dials always_up config3 P1 P3 H1 H3 Hlt).
Defined.

(** C2, as stated, fails in the gob variant: with two processes each
    dials the other, which makes two connections where K (K - 1) / 2 is
    one, each used by its dialler only. *)
Lemma C2_counterexample :
  (length (Processes config2) * (length (Processes config2) - 1) / 2 = 1)%nat
  /\ match GobMesh.mesh always_up config2 with
     | Done pms n =>
         length (net_wires n) = 2%nat
         /\ length (channels_between (net_wires n) P1 P2) = 2%nat
         /\ (map_to_list <$> pms.*2) = [[(2, 0%nat)]; [(1, 1%nat)]]
     | _ => False
     end.
Proof. split; [reflexivity|]. vm_compute. done. Qed.

(** C2, amended: for every topology of K processes with distinct ids,
    once the mesh of the line-text variant stands, exactly K (K - 1) / 2
    connections exist, exactly one between any two distinct processes,
    every local map has exactly K - 1 entries, and the two ends of a pair
    hold the same connection in their maps, so that it carries both
    directions. In the gob variant, where every process dials every
    other one, once its mesh stands K (K - 1) connections exist and
    every local map has K - 1 entries. Either half holds of its own
    variant, whatever becomes of the other. *)
Theorem C2_mesh_channels (dial_ok : nat -> bool) (config : Config) :
  NoDup (ID <$> Processes config) ->
  int64_ids (Processes config) ->
  let K := length (Processes config) in
  (forall pms n,
     LineMesh.mesh dial_ok config = Done pms n ->
     length (net_wires n) = (K * (K - 1) / 2)%nat
     /\ (forall p q, p ∈ Processes config -> q ∈ Processes config -> p <> q ->
           length (channels_between (net_wires n) p q) = 1%nat)
     /\ pms.*1 = Processes config
     /\ (forall p m, (p, m) ∈ pms -> size m = (K - 1)%nat)
     /\ (forall p q mp mq, (p, mp) ∈ pms -> (q, mq) ∈ pms -> p <> q ->
           exists c w, mp !! ID q = Some c /\ mq !! ID p = Some c
                       /\ net_wires n !! c = Some w
                       /\ w ∈ channels_between (net_wires n) p q))
  /\ (forall pms' n',
        GobMesh.mesh dial_ok config = Done pms' n' ->
        length (net_wires n') = (K * (K - 1))%nat
        /\ pms'.*1 = Processes config
        /\ forall p m, (p, m) ∈ pms' -> size m = (K - 1)%nat).
Proof.
  intros Hnd Hint K. split.
  - intros pms n Hm.
    apply LineMesh_mesh_done in Hm as (_ & _ & HW & _ & Hfst & Hall); [|done].
    rewrite HW in *. rewrite Forall_forall in Hall.
    assert (forall p m, (p, m) ∈ pms -> p ∈ Processes config) as Hin.
    { intros p m Hpm. rewrite <- Hfst. apply list_elem_of_fmap.
      by exists (p, m). }
    split; [|split; [|split; [done|split]]].
    + pose proof (length_line_wires (Processes config) Hnd) as Hlen.
      fold K in Hlen. rewrite <- Hlen, Nat.mul_comm. by rewrite Nat.div_mul.
    + intros p q Hp Hq Hne. by apply length_channels_between_line.
    + intros p m Hpm. destruct (Hall _ Hpm) as [Hs Hc]. cbn [fst snd] in *.
      rewrite (size_by_keys (ID <$> other_peers p (Processes config))).
      * rewrite length_fmap. apply length_other_peers; [done|by eapply Hin].
      * by apply NoDup_ids_filter.
      * by apply line_map_keys.
    + intros p q mp mq Hp Hq Hne.
      destruct (Hall _ Hp) as [Hsp Hcp]. destruct (Hall _ Hq) as [Hsq Hcq].
      apply line_same_channel; eauto.
  - intros pms' n' Hg.
    apply GobMesh_mesh_done in Hg as (-> & Hfst' & Hall').
    split; [by apply length_gob_wires|]. split; [done|].
    intros p m Hpm. rewrite Forall_forall in Hall'.
    specialize (Hall' _ Hpm). cbn [fst snd] in Hall'.
    rewrite (size_by_keys (ID <$> other_peers p (Processes config))).
    + rewrite length_fmap. apply length_other_peers; [done|].
      rewrite <- Hfst'. apply list_elem_of_fmap. by exists (p, m).
    + by apply NoDup_ids_filter.
    + done.
Qed.

Lemma C2_mesh_channels_witness :
  exists pms n pms' n' nf,
    NoDup (ID <$> Processes config3)
    /\ int64_ids (Processes config3)
    /\ LineMesh.mesh always_up config3 = Done pms n
    /\ LineMesh.mesh (up_after 1) config3 = Fatal nf
    /\ GobMesh.mesh (up_after 1) config3 = Done pms' n'
    /\ (length (net_wires n) = 3%nat
        /\ (forall p q, p ∈ Processes config3 -> q ∈ Processes config3 ->
              p <> q -> length (channels_between (net_wires n) p q) = 1%nat)
        /\ pms.*1 = Processes config3
        /\ (forall p m, (p, m) ∈ pms -> size m = 2%nat)
        /\ (forall p q mp mq, (p, mp) ∈ pms -> (q, mq) ∈ pms -> p <> q ->
              exists c w, mp !! ID q = Some c /\ mq !! ID p = Some c
                          /\ net_wires n !! c = Some w
                          /\ w ∈ channels_between (net_wires n) p q))
    /\ (length (net_wires n') = 6%nat
        /\ pms'.*1 = Processes config3
        /\ forall p m, (p, m) ∈ pms' -> size m = 2%nat).
Proof.
  destruct (LineMesh.mesh always_up config3) as [pms n| |] eqn:Hm;
    [|by vm_compute in Hm..].
  destruct (LineMesh.mesh (up_after 1) config3) as [|nf|] eqn:Hf;
    [by vm_compute in Hf| |by vm_compute in Hf].
  destruct (GobMesh.mesh (up_after 1) config3) as [pms' n'| |] eqn:Hg;
    [|by vm_compute in Hg..].
  assert (NoDup (ID <$> Processes config3)) as Hnd.
  { apply (bool_decide_unpack _). by vm_compute. }
  assert (int64_ids (Processes config3)) as Hint.
  { repeat constructor. }
  exists pms, n, pms', n', nf. split; [exact Hnd|]. split; [exact Hint|].
  split; [reflexivity|]. split; [reflexivity|]. split; [reflexivity|].
  split.
  - exact (proj1 (C2_mesh_channels always_up config3 Hnd Hint) pms n Hm).
  - exact (proj2 (C2_mesh_channels (up_after 1) config3 Hnd Hint) pms' n' Hg).
Defined.

(** C3, as stated, fails in the line-text variant: the scanner of the
    receiver drops a carriage return at the end of a line, so a text that
    ends in one comes back shorter; and a text with a line feed comes
    back as two records. *)
Lemma C3_counterexample :
  LineText.unicast_receive
    (mkReader (stream [LineText.unicast_send 1 ("hi" +:+ String CR "")]) None)
  = [("1", "hi")]
  /\ "hi" <> "hi" +:+ String CR ""
  /\ LineText.unicast_receive
       (mkReader (stream [LineText.unicast_send 1 ("a" +:+ String LF "b")])
                 None)
     = [("1", "a"); ("b", "b")].
Proof. split; [reflexivity|]. split; [discriminate|reflexivity]. Qed.

(** C3, amended: in the line-text variant, for every id and every text
    that has no line feed, does not end in a carriage return and keeps
    the line below the scanner's token limit (the empty text and texts
    with spaces included), sending the record and receiving the bytes
    yields one record with the same text and with the id as it is
    printed, which [Atoi] reads back as the id. *)
Theorem C3_line_roundtrip (senderID : Z) (text : string) :
  is_int64 senderID = true ->
  contains_byte LF text = false ->
  ends_with_byte CR text = false ->
  slen (Itoa senderID) + 1 + slen text < MaxScanTokenSize ->
  LineText.unicast_receive
    (mkReader (stream [LineText.unicast_send senderID text]) None)
  = [(Itoa senderID, text)]
  /\ Atoi (Itoa senderID) = (senderID, None).
Proof.
  intros Hid HLF HCR Hlen. split; [|by apply Atoi_Itoa].
  unfold LineText.unicast_receive.
  change [LineText.unicast_send senderID text]
    with (map (fun r => LineText.unicast_send (fst r) (snd r))
              [(senderID, text)]).
  rewrite unicast_receive_stream.
  - cbn [fst snd map]. by rewrite receive_line_record.
  - by constructor.
Qed.

Lemma C3_line_roundtrip_witness :
  is_int64 1 = true
  /\ contains_byte LF "Hello,  wide world! " = false
  /\ ends_with_byte CR "Hello,  wide world! " = false
  /\ slen (Itoa 1) + 1 + slen "Hello,  wide world! " < MaxScanTokenSize
  /\ LineText.unicast_receive
       (mkReader (stream [LineText.unicast_send 1 "Hello,  wide world! "])
                 None)
     = [(Itoa 1, "Hello,  wide world! ")]
  /\ Atoi (Itoa 1) = (1, None).
Proof.
  split; [reflexivity|]. split; [reflexivity|]. split; [reflexivity|].
  split; [reflexivity|].
  exact (C3_line_roundtrip 1 "Hello,  wide world! "
           eq_refl eq_refl eq_refl eq_refl).
Defined.

(** C4: under the precondition [minDelay < maxDelay], every delay the
    scheduler draws satisfies [minDelay <= d < maxDelay]; and with
    [0 <= minDelay], as the data model has it, a delay is drawn. *)
Theorem C4_delay_in_range (r minDelay maxDelay : Z) :
  is_int64 minDelay = true -> is_int64 maxDelay = true ->
  minDelay < maxDelay ->
  (forall d, draw_delay r minDelay maxDelay = Some d ->
             minDelay <= d < maxDelay)
  /\ (0 <= minDelay ->
      exists d, draw_delay r minDelay maxDelay = Some d
                /\ minDelay <= d < maxDelay).
Proof.
  intros Hmin Hmax Hlt. split.
  - intros d. by apply draw_delay_bounds.
  - intros H0.
    destruct (draw_delay_total r minDelay maxDelay) as [d Hd]; try done.
    { apply is_int64_spec in Hmax. unfold MaxInt64 in *. lia. }
    exists d. split; [done|]. by eapply draw_delay_bounds.
Qed.

Lemma C4_delay_in_range_witness :
  is_int64 100 = true /\ is_int64 200 = true /\ 100 < 200
  /\ (forall d, draw_delay 4242 100 200 = Some d -> 100 <= d < 200)
  /\ (0 <= 100 ->
      exists d, draw_delay 4242 100 200 = Some d /\ 100 <= d < 200).
Proof.
  split; [reflexivity|]. split; [reflexivity|]. split; [lia|].
  apply (C4_delay_in_range 4242 100 200); [reflexivity|reflexivity|lia].
Defined.

(** C5: the configuration ["100 100"] is accepted, and then a send to a
    connected peer panics in [rand.Intn], in both variants. *)
Theorem C5_equal_bounds_send_panics (rnd : nat -> Z) (now : string) :
  ParseConfig (config_file equal_bounds_text) "config.txt"
  = Ok (mkConfig 100 100 [P1; P2])
  /\ match first_console (LineMesh.mesh always_up (mkConfig 100 100 [P1; P2])) with
     | Some (p, rt) =>
         p = P1 /\ connections rt !! 2 = Some 0%nat
         /\ LineText.handle_line rnd now p 100 100 "send 2 hi" rt = Panic
     | None => False
     end
  /\ match first_console (GobMesh.mesh always_up (mkConfig 100 100 [P1; P2])) with
     | Some (p, rt) =>
         p = P1 /\ connections rt !! 2 = Some 0%nat
         /\ Gob.handle_line rnd now p 100 100 "send 2 hi" rt = Panic
     | None => False
     end.
Proof.
  split; [by vm_compute|]. split; vm_compute; done.
Qed.

(** C6, as stated, fails in the gob variant: nothing is written when the
    connection is established, and the first thing the initiator writes
    is a record. *)
Lemma C6_counterexample :
  match first_console (GobMesh.mesh always_up config2) with
  | Some (p, rt) =>
      p = P1
      /\ wires rt !! 0%nat = Some (mkWire P1 P2 [] [])
      /\ wires (Gob.fire p (mkPending 0 0%nat 1 "hi") rt) !! 0%nat
         = Some (mkWire P1 P2 [GobValue 1 "hi"] [])
  | None => False
  end.
Proof. vm_compute. done. Qed.

(** C6, amended: in the line-text variant, on every connection of the
    finished mesh the dialling end has written exactly its own id in
    decimal followed by a line feed and the accepting end nothing, and
    whatever records are sent afterwards, that line stays the first
    write of the dialling end. In the gob variant no handshake is sent:
    nothing is written on a connection while the mesh is built. Either
    half holds of its own variant, whatever becomes of the other. *)
Theorem C6_handshake_first (dial_ok : nat -> bool) (config : Config) :
  (forall pms n,
     LineMesh.mesh dial_ok config = Done pms n ->
     Forall (fun w => w_up w = [Bytes (Itoa (ID (w_from w)) +:+ String LF "")]
                      /\ w_down w = []) (net_wires n)
     /\ (forall (m : gmap Z Conn) (sends : list (Process * Pending)),
           Forall handshake_first (wires (fire_all sends (console_start m n)))))
  /\ (forall pms' n',
        GobMesh.mesh dial_ok config = Done pms' n' ->
        Forall (fun w => w_up w = [] /\ w_down w = []) (net_wires n')).
Proof.
  split.
  - intros pms n Hm. apply LineMesh_mesh_wires in Hm.
    assert (Forall (fun w => w_up w = [LineMesh.handshake (w_from w)]
                             /\ w_down w = []) (net_wires n)) as Hall.
    { rewrite Hm. apply Forall_forall.
      by intros w (x & o & -> & _)%line_wires_elem. }
    split; [done|].
    intros m sends. apply fire_all_handshake_first.
    cbn [console_start wires]. eapply Forall_impl; [exact Hall|].
    intros w [Hup _]. by exists [].
  - intros pms' n' (-> & _)%GobMesh_mesh_done. apply Forall_forall.
    by intros w (x & o & -> & _)%gob_wires_elem.
Qed.

Lemma C6_handshake_first_witness :
  exists pms n pms' n' nf,
    LineMesh.mesh always_up config3 = Done pms n
    /\ LineMesh.mesh (up_after 1) config3 = Fatal nf
    /\ GobMesh.mesh (up_after 1) config3 = Done pms' n'
    /\ (Forall (fun w => w_up w = [Bytes (Itoa (ID (w_from w)) +:+ String LF "")]
                         /\ w_down w = []) (net_wires n)
        /\ (forall (m : gmap Z Conn) (sends : list (Process * Pending)),
              Forall handshake_first
                     (wires (fire_all sends (console_start m n)))))
    /\ length (net_wires n') = 6%nat
    /\ Forall (fun w => w_up w = [] /\ w_down w = []) (net_wires n').
Proof.
  destruct (LineMesh.mesh always_up config3) as [pms n| |] eqn:Hm;
    [|by vm_compute in Hm..].
  destruct (LineMesh.mesh (up_after 1) config3) as [|nf|] eqn:Hf;
    [by vm_compute in Hf| |by vm_compute in Hf].
  destruct (GobMesh.mesh (up_after 1) config3) as [pms' n'| |] eqn:Hg;
    [|by vm_compute in Hg..].
  exists pms, n, pms', n', nf.
  split; [reflexivity|]. split; [reflexivity|]. split; [reflexivity|].
  split; [exact (proj1 (C6_handshake_first always_up config3) pms n Hm)|].
  split; [by vm_compute in Hg; injection Hg as <- <-|].
  exact (proj2 (C6_handshake_first (up_after 1) config3) pms' n' Hg).
Defined.

(** C7: a send command that names a destination without a connection in
    the local map transmits nothing, prints exactly one error line that
    names the destination, and leaves the map, the connections, the
    pending sends and the random source as they were; in both variants,
    with or without a text after the destination. *)
Theorem C7_unknown_destination
    (rnd : nat -> Z) (now : string) (process : Process)
    (minDelay maxDelay : Z) (X text line : string) (dest : Z) (rt : Runtime) :
  contains_byte SP X = false ->
  Atoi X = (dest, None) ->
  connections rt !! dest = None ->
  line = "send " +:+ X \/ line = "send " +:+ X +:+ " " +:+ text ->
  LineText.handle_line rnd now process minDelay maxDelay line rt
  = Ok (mkRuntime (connections rt) (wires rt) (pending rt)
          (stdout rt ++ ["No connection to process " +:+ Itoa dest
                         +:+ ". Please check the configuration."])
          (draws rt))
  /\ Gob.handle_line rnd now process minDelay maxDelay line rt
     = Ok (mkRuntime (connections rt) (wires rt) (pending rt)
             (stdout rt ++ ["Invalid destination process ID: " +:+ Itoa dest])
             (draws rt)).
Proof.
  intros HX HA Hc [->| ->].
  - rewrite LineText_handle_send_bare, Gob_handle_send_bare by done.
    rewrite HA. cbn [fst]. by rewrite Hc.
  - rewrite LineText_handle_send, Gob_handle_send by done.
    rewrite HA. cbn [fst]. by rewrite Hc.
Qed.

Lemma C7_unknown_destination_witness :
  contains_byte SP "9" = false
  /\ Atoi "9" = (9, None)
  /\ connections (console_start {[2 := 0%nat]} empty_net) !! 9 = None
  /\ ("send 9 hi" = "send " +:+ "9" \/ "send 9 hi" = "send " +:+ "9" +:+ " " +:+ "hi")
  /\ LineText.handle_line (fun _ => 0) "noon" P1 100 200 "send 9 hi"
       (console_start {[2 := 0%nat]} empty_net)
     = Ok (mkRuntime {[2 := 0%nat]} [] []
             ["No connection to process 9. Please check the configuration."]
             0)
  /\ Gob.handle_line (fun _ => 0) "noon" P1 100 200 "send 9 hi"
       (console_start {[2 := 0%nat]} empty_net)
     = Ok (mkRuntime {[2 := 0%nat]} [] []
             ["Invalid destination process ID: 9"] 0).
Proof.
  split; [reflexivity|]. split; [reflexivity|]. split; [reflexivity|].
  split; [right; reflexivity|].
  exact (C7_unknown_destination (fun _ => 0) "noon" P1 100 200 "9" "hi"
           "send 9 hi" 9 (console_start {[2 := 0%nat]} empty_net)
           eq_refl eq_refl eq_refl (or_intror eq_refl)).
Defined.

(** C8, as stated, fails in the line-text variant: the first dial fails,
    nothing is retried or slept and the process aborts, although the next
    attempt would have succeeded; the gob variant sleeps one second and
    gets through. *)
Lemma C8_counterexample :
  LineMesh.mesh (up_after 1) config2
  = Fatal (mkNet ["127.0.0.1:8001"; "127.0.0.1:8002"] [] 1 [])
  /\ match GobMesh.mesh (up_after 1) config2 with
     | Done _ n => slept n = [1] /\ attempts n = 3%nat
     | _ => False
     end.
Proof. split; [reflexivity|]. vm_compute. done. Qed.

(** C8, amended: in the gob variant an outbound dial is attempted at most
    five times; after the i-th failed attempt the process sleeps i
    seconds (after the fifth as well), and when all five fail the process
    aborts with [log.Fatal]. In the line-text variant nothing is retried:
    the first failed dial aborts the process. *)
Theorem C8_dial_retry_backoff (dial_ok : nat -> bool)
    (process otherProcess : Process) (rest : list Process)
    (connMap : gmap Z Conn) (n : Net) (k : nat) :
  (k <= GobMesh.retries)%nat ->
  (forall j, (j < k)%nat -> dial_ok (attempts n + j)%nat = false) ->
  ((k < GobMesh.retries)%nat -> dial_ok (attempts n + k)%nat = true) ->
  ((k < GobMesh.retries)%nat ->
   GobMesh.dial_retry dial_ok GobMesh.retries 0 process otherProcess n
   = (Some (length (net_wires n)),
      mkNet (listeners n) (net_wires n ++ [mkWire process otherProcess [] []])
            (S (attempts n + k)) (slept n ++ backoff k)))
  /\ (k = GobMesh.retries -> ID otherProcess <> ID process ->
      GobMesh.dial_loop dial_ok process (otherProcess :: rest) connMap n
      = Fatal (mkNet (listeners n) (net_wires n) (attempts n + 5)
                     (slept n ++ [1; 2; 3; 4; 5])))
  /\ ((0 < k)%nat -> ID otherProcess < ID process ->
      LineMesh.dial_loop dial_ok process (otherProcess :: rest) connMap n
      = Fatal (mkNet (listeners n) (net_wires n) (S (attempts n)) (slept n))).
Proof.
  intros Hk Hfail Hok. split; [|split].
  - intros Hlt. rewrite (dial_retry_success dial_ok k); auto.
    by rewrite backoff_alt.
  - intros -> Hne. cbn [GobMesh.dial_loop].
    destruct (Z.eqb_spec (ID otherProcess) (ID process)); [done|].
    cbn [negb]. by rewrite dial_retry_all_fail.
  - intros Hpos Hlt. apply LineMesh_dial_loop_fatal; [done|].
    rewrite <- (Nat.add_0_r (attempts n)). by apply Hfail.
Qed.

Lemma C8_dial_retry_backoff_witness :
  (2 <= GobMesh.retries)%nat
  /\ (forall j, (j < 2)%nat -> up_after 2 (attempts empty_net + j)%nat = false)
  /\ ((2 < GobMesh.retries)%nat -> up_after 2 (attempts empty_net + 2)%nat = true)
  /\ ((2 < GobMesh.retries)%nat ->
      GobMesh.dial_retry (up_after 2) GobMesh.retries 0 P2 P1 empty_net
      = (Some 0%nat, mkNet [] [mkWire P2 P1 [] []] 3 [1; 2]))
  /\ (2%nat = GobMesh.retries -> ID P1 <> ID P2 ->
      GobMesh.dial_loop (up_after 2) P2 [P1] ∅ empty_net
      = Fatal (mkNet [] [] 5 [1; 2; 3; 4; 5]))
  /\ ((0 < 2)%nat -> ID P1 < ID P2 ->
      LineMesh.dial_loop (up_after 2) P2 [P1] ∅ empty_net
      = Fatal (mkNet [] [] 1 [])).
Proof.
  assert (2 <= GobMesh.retries)%nat as H1 by (unfold GobMesh.retries; lia).
  assert (forall j, (j < 2)%nat -> up_after 2 (attempts empty_net + j)%nat = false)
    as H2.
  { intros [|[|j]] Hj; [reflexivity|reflexivity|lia]. }
  assert ((2 < GobMesh.retries)%nat -> up_after 2 (attempts empty_net + 2)%nat = true)
    as H3 by (intros _; reflexivity).
  split; [exact H1|]. split; [exact H2|]. split; [exact H3|].
  exact (C8_dial_retry_backoff (up_after 2) P2 P1 [] ∅ empty_net 2 H1 H2 H3).
Defined.

(** C9, as stated, fails: a delay line and a process line whose integer
    fields are no integers are accepted; the fields are read as 0 and the
    run starts. *)
Lemma C9_counterexample :
  snd (Atoi "fast") = Some ErrSyntax
  /\ snd (Atoi "slow") = Some ErrSyntax
  /\ snd (Atoi "one") = Some ErrSyntax
  /\ main_startup (config_file garbled_text)
     = Running (mkConfig 0 0 [mkProcess 0 "127.0.0.1" "8001"])
               [mkProcess 0 "127.0.0.1" "8001"].
Proof. repeat split; reflexivity. Qed.

(** C9, amended: a configuration file that cannot be opened is fatal at
    startup: [ParseConfig] returns the error and [main] aborts. A file
    that opens starts a run exactly when it is read to its end without
    error, its first line has at least two space-separated fields and
    every further line at least three (anything less aborts startup); an
    integer field that does not parse is not an error: it is read as the
    value [Atoi] returns with its error. *)
Theorem C9_startup (fs : FileSystem) :
  match fs "config.txt" with
  | None => main_startup fs = Aborted ErrNotExist
  | Some file =>
      let tokens := fst (Scanner file) in
      let first := hd EmptyString tokens in
      ((exists config started, main_startup fs = Running config started)
       <-> snd (Scanner file) = None
           /\ (2 <= field_count first)%nat
           /\ Forall (fun l => (3 <= field_count l)%nat) (tail tokens))
      /\ (forall config started,
            main_startup fs = Running config started ->
            started = Processes config
            /\ MinDelay config = fst (Atoi (field first 0))
            /\ MaxDelay config = fst (Atoi (field first 1))
            /\ Processes config
               = map (fun l => mkProcess (fst (Atoi (field l 0)))
                                         (field l 1) (field l 2))
                     (tail tokens))
  end.
Proof.
  unfold main_startup.
  destruct (fs "config.txt") as [file|] eqn:Hf.
  - rewrite (ParseConfig_spec fs "config.txt" file Hf). cbv zeta.
    set (tokens := fst (Scanner file)). set (first := hd "" tokens).
    destruct (Nat.leb_spec 2 (field_count first)) as [H2|H2].
    + destruct (forallb _ (tail tokens)) eqn:H3.
      * rewrite forallb_forall in H3.
        assert (Forall (fun l => (3 <= field_count l)%nat) (tail tokens)) as HF.
        { apply Forall_forall. intros l Hl. apply Nat.leb_le, H3.
          by apply list_elem_of_In. }
        destruct (snd (Scanner file)) as [e|].
        -- split; [|by intros ? ? [=]].
           split; [by intros (? & ? & [=])|by intros ([=] & _)].
        -- split; [by split; eauto|].
           by intros ? ? [= <- <-].
      * split; [|by intros ? ? [=]].
        split; [by intros (? & ? & [=])|]. intros (_ & _ & HF).
        apply not_true_iff_false in H3. destruct H3.
        apply forallb_forall. intros l Hl. apply Nat.leb_le.
        rewrite Forall_forall in HF. by apply HF, list_elem_of_In.
    + split; [|by intros ? ? [=]].
      split; [by intros (? & ? & [=])|]. intros (_ & ? & _). lia.
  - unfold ParseConfig. by rewrite Hf.
Qed.

(** C10, as stated, fails: a destination word that overflows [int] is
    no integer, its parse failure is ignored, and the destination is the
    largest [int], not 0. *)
Lemma C10_counterexample :
  contains_byte SP "99999999999999999999x" = false
  /\ Atoi "99999999999999999999x" = (9223372036854775807, Some ErrRange)
  /\ LineText.handle_line (fun _ => 0) "noon" P1 100 200
       "send 99999999999999999999x hi" empty_runtime
     = Ok (println "No connection to process 9223372036854775807. Please check the configuration."
             empty_runtime)
  /\ LineText.handle_line (fun _ => 0) "noon" P1 100 200
       "send 99999999999999999999x hi" empty_runtime
     <> LineText.handle_line (fun _ => 0) "noon" P1 100 200
          "send 0 hi" empty_runtime.
Proof.
  split; [reflexivity|]. split; [reflexivity|]. split; [reflexivity|].
  vm_compute. discriminate.
Qed.

(** C10, amended: in the line-text variant the parse failure of the
    destination word is ignored and no syntax error is reported: the
    command is a lookup of the value [Atoi] returns with its error, which
    is 0 after a syntax error and the nearest [int] bound after a range
    error. *)
Theorem C10_parse_failure_ignored
    (rnd : nat -> Z) (now : string) (process : Process)
    (minDelay maxDelay : Z) (X text : string) (rt : Runtime) :
  contains_byte SP X = false ->
  snd (Atoi X) <> None ->
  let dest := fst (Atoi X) in
  LineText.handle_line rnd now process minDelay maxDelay
    ("send " +:+ X +:+ " " +:+ text) rt
  = match connections rt !! dest with
    | None =>
        Ok (println ("No connection to process " +:+ Itoa dest
                     +:+ ". Please check the configuration.") rt)
    | Some conn =>
        '(delay, rt1) ← next_delay rnd minDelay maxDelay rt;
        Ok (println ("Sent message: " +:+ text +:+ " to process: "
                     +:+ Itoa dest +:+ " , system time is: " +:+ now)
              (unicast_send_with_delay conn (ID process) text delay rt1))
    end
  /\ (snd (Atoi X) = Some ErrSyntax -> dest = 0)
  /\ (snd (Atoi X) = Some ErrRange -> dest = MaxInt64 \/ dest = MinInt64).
Proof.
  intros HX _ dest. split; [by apply LineText_handle_send|].
  split; [apply Atoi_syntax_zero|apply Atoi_range_bound].
Qed.

Lemma C10_parse_failure_ignored_witness :
  contains_byte SP "two" = false
  /\ snd (Atoi "two") <> None
  /\ LineText.handle_line (fun _ => 0) "noon" P1 100 200
       ("send " +:+ "two" +:+ " " +:+ "hi") empty_runtime
     = Ok (println "No connection to process 0. Please check the configuration."
             empty_runtime).
Proof.
  split; [reflexivity|]. split; [discriminate|].
  exact (proj1 (C10_parse_failure_ignored (fun _ => 0) "noon" P1 100 200
                  "two" "hi" empty_runtime eq_refl
                  ltac:(discriminate))).
Defined.

(** * Further properties of the code *)

(** ** The console loop as a whole *)

Lemma LineText_handle_line_inv rnd now process minDelay maxDelay text rt rt' :
  LineText.handle_line rnd now process minDelay maxDelay text rt = Ok rt' ->
  connections rt' = connections rt
  /\ wires rt' = wires rt
  /\ exists out new,
       stdout rt' = stdout rt ++ out
       /\ pending rt' = pending rt ++ new
       /\ draws rt' = (draws rt + length new)%nat
       /\ (length new <= length out <= 1)%nat
       /\ Forall (scheduled_by process (connections rt) minDelay maxDelay) new.
Proof.
  unfold LineText.handle_line.
  destruct (length (Split text SP) <? 2)%nat.
  { intros [= <-]. repeat split. eexists [_], []. cbn.
    rewrite app_nil_r, Nat.add_0_r. repeat split; auto; lia. }
  destruct (index (Split text SP) 0) as [c0| |]; cbn [mbind Result_bind];
    [|discriminate..].
  destruct (String.eqb c0 "send").
  2:{ intros [= <-]. repeat split. exists [], [].
      rewrite !app_nil_r, Nat.add_0_r. repeat split; auto. }
  destruct (index (Split text SP) 1) as [c1| |]; cbn [mbind Result_bind];
    [|discriminate..].
  destruct (connections rt !! (Atoi c1).1) as [conn|] eqn:Hc.
  2:{ intros [= <-]. repeat split. eexists [_], []. cbn.
      rewrite app_nil_r, Nat.add_0_r. repeat split; auto; lia. }
  unfold next_delay.
  destruct (draw_delay (rnd (draws rt)) minDelay maxDelay) as [d|] eqn:Hd;
    cbn [mbind Result_bind]; [|discriminate].
  intros [= <-]. repeat split. eexists [_], [_]. cbn.
  repeat split; auto; try lia.
  constructor; [|constructor]. repeat split; cbn; eauto.
Qed.

Lemma Gob_handle_line_inv rnd now process minDelay maxDelay text rt rt' :
  Gob.handle_line rnd now process minDelay maxDelay text rt = Ok rt' ->
  connections rt' = connections rt
  /\ wires rt' = wires rt
  /\ exists msg new,
       stdout rt' = stdout rt ++ [msg]
       /\ pending rt' = pending rt ++ new
       /\ draws rt' = (draws rt + length new)%nat
       /\ (length new <= 1)%nat
       /\ Forall (scheduled_by process (connections rt) minDelay maxDelay) new.
Proof.
  unfold Gob.handle_line.
  destruct (index (Split text SP) 0) as [c0| |]; cbn [mbind Result_bind];
    [|discriminate..].
  destruct (String.eqb c0 "send" && (1 <? length (Split text SP))%nat).
  2:{ intros [= <-]. repeat split. exists Gob.invalid_format, []. cbn.
      rewrite app_nil_r, Nat.add_0_r. repeat split; auto. }
  destruct (index (Split text SP) 1) as [c1| |]; cbn [mbind Result_bind];
    [|discriminate..].
  destruct (Atoi c1) as [dest [e|]].
  { intros [= <-]. repeat split. exists Gob.invalid_format, []. cbn.
    rewrite app_nil_r, Nat.add_0_r. repeat split; auto. }
  destruct (connections rt !! dest) as [conn|] eqn:Hc.
  2:{ intros [= <-]. repeat split. eexists _, []. cbn.
      rewrite app_nil_r, Nat.add_0_r. repeat split; auto. }
  unfold next_delay.
  destruct (draw_delay (rnd (draws rt)) minDelay maxDelay) as [d|] eqn:Hd;
    cbn [mbind Result_bind]; [|discriminate].
  intros [= <-]. repeat split. eexists _, [_]. cbn.
  repeat split; auto; try lia.
  constructor; [|constructor]. repeat split; cbn; eauto.
Qed.

Lemma LineText_handle_lines_inv rnd now process minDelay maxDelay lines :
  forall rt rt',
  LineText.handle_lines rnd now process minDelay maxDelay lines rt = Ok rt' ->
  connections rt' = connections rt
  /\ wires rt' = wires rt
  /\ exists out new,
       stdout rt' = stdout rt ++ out
       /\ pending rt' = pending rt ++ new
       /\ draws rt' = (draws rt + length new)%nat
       /\ (length new <= length out <= length lines)%nat
       /\ Forall (scheduled_by process (connections rt) minDelay maxDelay) new.
Proof.
  induction lines as [|l ls IH]; intros rt rt' Hr.
  - cbn in Hr. injection Hr as <-. repeat split. exists [], [].
    rewrite !app_nil_r, Nat.add_0_r. repeat split; auto.
  - cbn [LineText.handle_lines] in Hr.
    destruct (LineText.handle_line rnd now process minDelay maxDelay l rt)
      as [rt1| |] eqn:H1; cbn [mbind Result_bind] in Hr; [|discriminate..].
    apply LineText_handle_line_inv in H1
      as (Hc1 & Hw1 & out1 & new1 & Ho1 & Hp1 & Hd1 & Hl1 & Hs1).
    apply IH in Hr as (Hc2 & Hw2 & out2 & new2 & Ho2 & Hp2 & Hd2 & Hl2 & Hs2).
    split; [congruence|]. split; [congruence|].
    exists (out1 ++ out2), (new1 ++ new2).
    rewrite Ho2, Ho1, Hp2, Hp1, Hd2, Hd1, !length_app, <- !app_assoc.
    cbn [length]. repeat split; try lia.
    apply Forall_app. split; [done|]. by rewrite Hc1 in Hs2.
Qed.

Lemma Gob_handle_lines_inv rnd now process minDelay maxDelay lines :
  forall rt rt',
  Gob.handle_lines rnd now process minDelay maxDelay lines rt = Ok rt' ->
  connections rt' = connections rt
  /\ wires rt' = wires rt
  /\ exists out new,
       stdout rt' = stdout rt ++ out
       /\ pending rt' = pending rt ++ new
       /\ draws rt' = (draws rt + length new)%nat
       /\ (length new <= length out)%nat
       /\ length out = length lines
       /\ Forall (scheduled_by process (connections rt) minDelay maxDelay) new.
Proof.
  induction lines as [|l ls IH]; intros rt rt' Hr.
  - cbn in Hr. injection Hr as <-. repeat split. exists [], [].
    rewrite !app_nil_r, Nat.add_0_r. repeat split; auto.
  - cbn [Gob.handle_lines] in Hr.
    destruct (Gob.handle_line rnd now process minDelay maxDelay l rt)
      as [rt1| |] eqn:H1; cbn [mbind Result_bind] in Hr; [|discriminate..].
    apply Gob_handle_line_inv in H1
      as (Hc1 & Hw1 & msg & new1 & Ho1 & Hp1 & Hd1 & Hl1 & Hs1).
    apply IH in Hr
      as (Hc2 & Hw2 & out2 & new2 & Ho2 & Hp2 & Hd2 & Hl2 & Hn2 & Hs2).
    split; [congruence|]. split; [congruence|].
    exists (msg :: out2), (new1 ++ new2).
    rewrite Ho2, Ho1, Hp2, Hp1, Hd2, Hd1, !length_app, <- !app_assoc.
    cbn [length app]. repeat split; try lia.
    apply Forall_app. split; [done|]. by rewrite Hc1 in Hs2.
Qed.

(** X1: whatever is typed, a console loop that runs through its input
    leaves the map of connections and the connections themselves as they
    were; it only adds printed lines (at most one per input line) and
    pending sends (at most one per printed line), and draws exactly one
    random number per pending send. *)
Theorem console_loop_frame (rnd : nat -> Z) (now : string) (process : Process)
    (minDelay maxDelay : Z) (stdin : Reader) (rt rt' : Runtime) :
  LineText.handleUserInput rnd now process minDelay maxDelay stdin rt = Ok rt'
  \/ Gob.handleUserInput rnd now process minDelay maxDelay stdin rt = Ok rt' ->
  connections rt' = connections rt
  /\ wires rt' = wires rt
  /\ exists out new,
       stdout rt' = stdout rt ++ out
       /\ pending rt' = pending rt ++ new
       /\ draws rt' = (draws rt + length new)%nat
       /\ (length new <= length out <= length (fst (Scanner stdin)))%nat.
Proof.
  intros [Hr|Hr].
  - apply LineText_handle_lines_inv in Hr
      as (Hc & Hw & out & new & Ho & Hp & Hd & Hl & _).
    split; [done|]. split; [done|]. by exists out, new.
  - apply Gob_handle_lines_inv in Hr
      as (Hc & Hw & out & new & Ho & Hp & Hd & Hl & Hn & _).
    split; [done|]. split; [done|]. exists out, new. repeat split; auto; lia.
Qed.

Lemma console_loop_frame_witness :
  exists rt',
    (LineText.handleUserInput (fun _ => 7) "noon" P1 100 200 three_lines
       one_peer_runtime = Ok rt'
     \/ Gob.handleUserInput (fun _ => 7) "noon" P1 100 200 three_lines
          one_peer_runtime = Ok rt')
    /\ connections rt' = connections one_peer_runtime
    /\ wires rt' = wires one_peer_runtime
    /\ exists out new,
         stdout rt' = stdout one_peer_runtime ++ out
         /\ pending rt' = pending one_peer_runtime ++ new
         /\ draws rt' = (draws one_peer_runtime + length new)%nat
         /\ (length new <= length out <= length (fst (Scanner three_lines)))%nat.
Proof.
  destruct (LineText.handleUserInput (fun _ => 7) "noon" P1 100 200
              three_lines one_peer_runtime) as [rt'| |] eqn:Hr;
    [|by vm_compute in Hr..].
  exists rt'. split; [by left|].
  exact (console_loop_frame (fun _ => 7) "noon" P1 100 200 three_lines
           one_peer_runtime rt' (or_introl Hr)).
Defined.

(** X2: with [minDelay < maxDelay], every send a console loop schedules
    has the process's own id as sender, a connection of the process's
    map, and a delay of d milliseconds with [minDelay <= d < maxDelay]. *)
Theorem console_loop_sends (rnd : nat -> Z) (now : string) (process : Process)
    (minDelay maxDelay : Z) (stdin : Reader) (rt rt' : Runtime) :
  is_int64 minDelay = true -> is_int64 maxDelay = true ->
  minDelay < maxDelay ->
  LineText.handleUserInput rnd now process minDelay maxDelay stdin rt = Ok rt'
  \/ Gob.handleUserInput rnd now process minDelay maxDelay stdin rt = Ok rt' ->
  exists new,
    pending rt' = pending rt ++ new
    /\ Forall (fun pd =>
                 p_sender pd = ID process
                 /\ (exists k, connections rt !! k = Some (p_conn pd))
                 /\ exists d, minDelay <= d < maxDelay
                              /\ p_delay pd = Duration_ms d) new.
Proof.
  intros Hmin Hmax Hlt Hr.
  assert (exists new,
            pending rt' = pending rt ++ new
            /\ Forall (scheduled_by process (connections rt) minDelay maxDelay)
                      new) as (new & Hp & Hs).
  { destruct Hr as [Hr|Hr].
    - apply LineText_handle_lines_inv in Hr
        as (_ & _ & out & new & _ & Hp & _ & _ & Hs). by exists new.
    - apply Gob_handle_lines_inv in Hr
        as (_ & _ & out & new & _ & Hp & _ & _ & _ & Hs). by exists new. }
  exists new. split; [done|]. eapply Forall_impl; [exact Hs|].
  intros pd (Hsender & Hconn & r & d & Hd & Hdelay).
  split; [done|]. split; [done|]. exists d. split; [|done].
  by eapply draw_delay_bounds.
Qed.

Lemma console_loop_sends_witness :
  exists rt',
    is_int64 100 = true /\ is_int64 200 = true /\ 100 < 200
    /\ (LineText.handleUserInput (fun _ => 7) "noon" P1 100 200 three_lines
          one_peer_runtime = Ok rt'
        \/ Gob.handleUserInput (fun _ => 7) "noon" P1 100 200 three_lines
             one_peer_runtime = Ok rt')
    /\ exists new,
         pending rt' = pending one_peer_runtime ++ new
         /\ Forall (fun pd =>
                      p_sender pd = ID P1
                      /\ (exists k, connections one_peer_runtime !! k
                                    = Some (p_conn pd))
                      /\ exists d, 100 <= d < 200
                                   /\ p_delay pd = Duration_ms d) new.
Proof.
  destruct (Gob.handleUserInput (fun _ => 7) "noon" P1 100 200
              three_lines one_peer_runtime) as [rt'| |] eqn:Hr;
    [|by vm_compute in Hr..].
  exists rt'. split; [reflexivity|]. split; [reflexivity|]. split; [lia|].
  split; [by right|].
  exact (console_loop_sends (fun _ => 7) "noon" P1 100 200 three_lines
           one_peer_runtime rt' eq_refl eq_refl eq_refl (or_intror Hr)).
Defined.

(** X3: the gob variant answers every console line with exactly one
    printed line. *)
Theorem gob_console_answers_every_line (rnd : nat -> Z) (now : string)
    (process : Process) (minDelay maxDelay : Z) (stdin : Reader)
    (rt rt' : Runtime) :
  Gob.handleUserInput rnd now process minDelay maxDelay stdin rt = Ok rt' ->
  length (stdout rt') = (length (stdout rt) + length (fst (Scanner stdin)))%nat.
Proof.
  intros Hr. apply Gob_handle_lines_inv in Hr
    as (_ & _ & out & new & Ho & _ & _ & _ & Hn & _).
  rewrite Ho, length_app. lia.
Qed.

Lemma gob_console_answers_every_line_witness :
  exists rt',
    Gob.handleUserInput (fun _ => 7) "noon" P1 100 200 three_lines
      one_peer_runtime = Ok rt'
    /\ length (stdout rt')
       = (length (stdout one_peer_runtime)
          + length (fst (Scanner three_lines)))%nat.
Proof.
  destruct (Gob.handleUserInput (fun _ => 7) "noon" P1 100 200
              three_lines one_peer_runtime) as [rt'| |] eqn:Hr;
    [|by vm_compute in Hr..].
  exists rt'. split; [reflexivity|].
  exact (gob_console_answers_every_line (fun _ => 7) "noon" P1 100 200
           three_lines one_peer_runtime rt' Hr).
Defined.

(** ** Single console commands *)

(** X4: a send command whose destination is in the map, with
    [0 <= minDelay < maxDelay], schedules exactly one send, on the
    connection of the destination, with the process's id as sender and
    the text after the destination word unchanged (inner spaces
    included); it prints one line and changes nothing else. Up to a
    bound of 9223372036854 ms the sleep is the drawn delay in
    nanoseconds. *)
Theorem console_send_scheduled (rnd : nat -> Z) (now : string)
    (process : Process) (minDelay maxDelay : Z) (X text : string) (dest : Z)
    (conn : Conn) (rt : Runtime) :
  contains_byte SP X = false ->
  Atoi X = (dest, None) ->
  connections rt !! dest = Some conn ->
  is_int64 minDelay = true -> is_int64 maxDelay = true ->
  0 <= minDelay -> minDelay < maxDelay ->
  exists d,
    minDelay <= d < maxDelay
    /\ LineText.handle_line rnd now process minDelay maxDelay
         ("send " +:+ X +:+ " " +:+ text) rt
       = Ok (mkRuntime (connections rt) (wires rt)
               (pending rt ++ [mkPending (Duration_ms d) conn (ID process) text])
               (stdout rt ++ ["Sent message: " +:+ text +:+ " to process: "
                              +:+ Itoa dest +:+ " , system time is: " +:+ now])
               (S (draws rt)))
    /\ Gob.handle_line rnd now process minDelay maxDelay
         ("send " +:+ X +:+ " " +:+ text) rt
       = Ok (mkRuntime (connections rt) (wires rt)
               (pending rt ++ [mkPending (Duration_ms d) conn (ID process) text])
               (stdout rt ++ ["Sent message: " +:+ text +:+ " to process "
                              +:+ Itoa dest +:+ ", system time is: " +:+ now])
               (S (draws rt)))
    /\ (maxDelay <= 9223372036854 -> Duration_ms d = d * 1000000).
Proof.
  intros HX HA Hc Hmin Hmax H0 Hlt.
  destruct (draw_delay_total (rnd (draws rt)) minDelay maxDelay) as [d Hd];
    try done.
  { apply is_int64_spec in Hmax. unfold MaxInt64 in *. lia. }
  pose proof (draw_delay_bounds _ _ _ _ Hmin Hmax Hlt Hd) as Hb.
  exists d. split; [done|].
  rewrite LineText_handle_send, Gob_handle_send by done.
  rewrite HA. cbn [fst]. rewrite Hc. unfold next_delay. rewrite Hd.
  split; [done|]. split; [done|].
  intros Hsmall. unfold Duration_ms, Millisecond.
  apply wrap64_small. unfold MinInt64, MaxInt64. lia.
Qed.

Lemma console_send_scheduled_witness :
  contains_byte SP "2" = false
  /\ Atoi "2" = (2, None)
  /\ connections one_peer_runtime !! 2 = Some 0%nat
  /\ is_int64 100 = true /\ is_int64 200 = true /\ 0 <= 100 /\ 100 < 200
  /\ exists d,
       100 <= d < 200
       /\ LineText.handle_line (fun _ => 7) "noon" P1 100 200
            ("send " +:+ "2" +:+ " " +:+ "Hello,  world!") one_peer_runtime
          = Ok (mkRuntime (connections one_peer_runtime)
                  (wires one_peer_runtime)
                  (pending one_peer_runtime
                   ++ [mkPending (Duration_ms d) 0%nat (ID P1) "Hello,  world!"])
                  (stdout one_peer_runtime
                   ++ ["Sent message: " +:+ "Hello,  world!" +:+ " to process: "
                       +:+ Itoa 2 +:+ " , system time is: " +:+ "noon"])
                  (S (draws one_peer_runtime)))
       /\ Gob.handle_line (fun _ => 7) "noon" P1 100 200
            ("send " +:+ "2" +:+ " " +:+ "Hello,  world!") one_peer_runtime
          = Ok (mkRuntime (connections one_peer_runtime)
                  (wires one_peer_runtime)
                  (pending one_peer_runtime
                   ++ [mkPending (Duration_ms d) 0%nat (ID P1) "Hello,  world!"])
                  (stdout one_peer_runtime
                   ++ ["Sent message: " +:+ "Hello,  world!" +:+ " to process "
                       +:+ Itoa 2 +:+ ", system time is: " +:+ "noon"])
                  (S (draws one_peer_runtime)))
       /\ (200 <= 9223372036854 -> Duration_ms d = d * 1000000).
Proof.
  split; [reflexivity|]. split; [reflexivity|]. split; [reflexivity|].
  split; [reflexivity|]. split; [reflexivity|]. split; [lia|]. split; [lia|].
  exact (console_send_scheduled (fun _ => 7) "noon" P1 100 200 "2"
           "Hello,  world!" 2 0%nat one_peer_runtime eq_refl eq_refl eq_refl
           eq_refl eq_refl ltac:(lia) ltac:(lia)).
Defined.

(** X5: a console line of a single word (the empty line and a bare
    [send] included) is answered with the format message and changes
    nothing else. A line of several words whose first word is not [send]
    is ignored without any output in the line-text variant, and answered
    with the format message in the gob variant. *)
Theorem console_other_commands (rnd : nat -> Z) (now : string)
    (process : Process) (minDelay maxDelay : Z) (word : string)
    (rt : Runtime) :
  contains_byte SP word = false ->
  LineText.handle_line rnd now process minDelay maxDelay word rt
  = Ok (println "Invalid command. Please enter a command in the format: send [destinationID] [message]" rt)
  /\ Gob.handle_line rnd now process minDelay maxDelay word rt
     = Ok (println "Invalid command format. Use: send [destinationID] [message]" rt)
  /\ (word <> "send" ->
      forall rest,
        LineText.handle_line rnd now process minDelay maxDelay
          (word +:+ " " +:+ rest) rt = Ok rt
        /\ Gob.handle_line rnd now process minDelay maxDelay
             (word +:+ " " +:+ rest) rt
           = Ok (println "Invalid command format. Use: send [destinationID] [message]" rt)).
Proof.
  intros Hw. split; [|split].
  - unfold LineText.handle_line. by rewrite Split_single.
  - unfold Gob.handle_line. rewrite Split_single by done.
    cbn [index lookup list_lookup mbind Result_bind length Nat.ltb Nat.leb].
    by rewrite andb_false_r.
  - intros Hne rest. apply String.eqb_neq in Hne.
    change (word +:+ " " +:+ rest) with (word +:+ String SP rest).
    unfold LineText.handle_line, Gob.handle_line.
    rewrite Split_cons by done.
    pose proof (length_Split_pos rest SP) as Hl.
    cbn [length index lookup list_lookup mbind Result_bind].
    rewrite Hne. cbn [andb].
    destruct (Nat.ltb_spec (S (length (Split rest SP))) 2); [lia|done].
Qed.

Lemma console_other_commands_witness :
  contains_byte SP "help" = false
  /\ LineText.handle_line (fun _ => 7) "noon" P1 100 200 "help" one_peer_runtime
     = Ok (println "Invalid command. Please enter a command in the format: send [destinationID] [message]" one_peer_runtime)
  /\ Gob.handle_line (fun _ => 7) "noon" P1 100 200 "help" one_peer_runtime
     = Ok (println "Invalid command format. Use: send [destinationID] [message]" one_peer_runtime)
  /\ ("help" <> "send" ->
      forall rest,
        LineText.handle_line (fun _ => 7) "noon" P1 100 200
          ("help" +:+ " " +:+ rest) one_peer_runtime = Ok one_peer_runtime
        /\ Gob.handle_line (fun _ => 7) "noon" P1 100 200
             ("help" +:+ " " +:+ rest) one_peer_runtime
           = Ok (println "Invalid command format. Use: send [destinationID] [message]" one_peer_runtime)).
Proof.
  split; [reflexivity|].
  exact (console_other_commands (fun _ => 7) "noon" P1 100 200 "help"
           one_peer_runtime eq_refl).
Defined.

(** X6: in the gob variant a destination word that [Atoi] does not
    accept, a number too large for [int] included, is answered with the
    format message; nothing is looked up or sent. *)
Theorem gob_console_rejects_bad_destination (rnd : nat -> Z) (now : string)
    (process : Process) (minDelay maxDelay : Z) (X text : string)
    (rt : Runtime) :
  contains_byte SP X = false ->
  snd (Atoi X) <> None ->
  Gob.handle_line rnd now process minDelay maxDelay
    ("send " +:+ X +:+ " " +:+ text) rt
  = Ok (mkRuntime (connections rt) (wires rt) (pending rt)
          (stdout rt ++ ["Invalid command format. Use: send [destinationID] [message]"])
          (draws rt)).
Proof.
  intros HX HA. rewrite Gob_handle_send by done.
  destruct (Atoi X) as [dest [e|]]; [done|]. by destruct HA.
Qed.

Lemma gob_console_rejects_bad_destination_witness :
  contains_byte SP "99999999999999999999" = false
  /\ snd (Atoi "99999999999999999999") <> None
  /\ Gob.handle_line (fun _ => 7) "noon" P1 100 200
       ("send " +:+ "99999999999999999999" +:+ " " +:+ "hi") one_peer_runtime
     = Ok (mkRuntime (connections one_peer_runtime) (wires one_peer_runtime)
             (pending one_peer_runtime)
             (stdout one_peer_runtime
              ++ ["Invalid command format. Use: send [destinationID] [message]"])
             (draws one_peer_runtime)).
Proof.
  split; [reflexivity|]. split; [discriminate|].
  exact (gob_console_rejects_bad_destination (fun _ => 7) "noon" P1 100 200
           "99999999999999999999" "hi" one_peer_runtime eq_refl
           ltac:(discriminate)).
Defined.

(** ** [ParseConfig] on files in and out of format *)

Lemma plain_word_spec s :
  plain_word s = true ->
  contains_byte SP s = false /\ contains_byte LF s = false
  /\ contains_byte CR s = false.
Proof.
  unfold plain_word. rewrite !andb_true_iff, !negb_true_iff. tauto.
Qed.

Lemma Scanner_format_lines (ls : list string) :
  Forall (fun l => contains_byte LF l = false
                   /\ ends_with_byte CR l = false
                   /\ slen l < MaxScanTokenSize) ls ->
  Scanner (mkReader (format_lines ls) None) = (ls, None).
Proof.
  unfold Scanner. cbn [r_data r_err].
  induction 1 as [|l ls (HLF & HCR & Hlen) _ IH]; [done|].
  cbn [format_lines]. rewrite scan_tokens_cons by done.
  destruct (scan_tokens (raw_lines (format_lines ls))) as [ts e].
  cbn [fst snd]. injection IH as -> He. by destruct e.
Qed.

Lemma Split_three (a b c : string) :
  contains_byte SP a = false -> contains_byte SP b = false ->
  contains_byte SP c = false ->
  Split (a +:+ " " +:+ b +:+ " " +:+ c) SP = [a; b; c].
Proof.
  intros Ha Hb Hc.
  change (a +:+ " " +:+ b +:+ " " +:+ c)
    with (a +:+ String SP (b +:+ String SP c)).
  by rewrite !Split_cons, Split_single.
Qed.

Lemma Split_two (a b : string) :
  contains_byte SP a = false -> contains_byte SP b = false ->
  Split (a +:+ " " +:+ b) SP = [a; b].
Proof.
  intros Ha Hb. change (a +:+ " " +:+ b) with (a +:+ String SP b).
  by rewrite Split_cons, Split_single.
Qed.

Lemma parse_process_format p :
  is_int64 (ID p) = true -> plain_word (IP p) = true ->
  plain_word (Port p) = true ->
  parse_process (format_process p) = Ok p.
Proof.
  intros Hid (HIP & _)%plain_word_spec (HPort & _)%plain_word_spec.
  unfold parse_process, format_process.
  rewrite Split_three by (done || apply Itoa_no_space).
  cbn [index lookup list_lookup mbind Result_bind].
  rewrite Atoi_Itoa by done. by destruct p.
Qed.

Lemma parse_processes_format ps : forall acc,
  Forall (fun p => is_int64 (ID p) = true /\ plain_word (IP p) = true
                   /\ plain_word (Port p) = true) ps ->
  parse_processes (map format_process ps) acc = Ok (acc ++ ps).
Proof.
  induction ps as [|p ps IH]; intros acc Hps; cbn [map parse_processes].
  - by rewrite app_nil_r.
  - apply Forall_cons in Hps as [(Hid & HIP & HPort) Hps].
    rewrite parse_process_format by done. cbn [mbind Result_bind].
    rewrite IH by done. by rewrite <- app_assoc.
Qed.

Lemma format_process_line p :
  plain_word (IP p) = true -> plain_word (Port p) = true ->
  contains_byte LF (format_process p) = false
  /\ ends_with_byte CR (format_process p) = false.
Proof.
  intros (_ & HIP & HIPc)%plain_word_spec (_ & HPort & HPortc)%plain_word_spec.
  unfold format_process. split.
  - rewrite !contains_byte_append, Itoa_no_LF, HIP, HPort. reflexivity.
  - apply contains_not_ends.
    rewrite !contains_byte_append, Itoa_no_CR, HIPc, HPortc. reflexivity.
Qed.

(** X7: a configuration written in the documented format is read back
    as it is: the delays, and the processes in their order, provided the
    numbers are [int]s, the addresses and ports are words without blanks
    and no line exceeds the scanner's limit; [main] then starts one
    [startProcess] per process. *)
Theorem ParseConfig_reads_format (config : Config) :
  is_int64 (MinDelay config) = true ->
  is_int64 (MaxDelay config) = true ->
  Forall (fun p => is_int64 (ID p) = true /\ plain_word (IP p) = true
                   /\ plain_word (Port p) = true
                   /\ slen (format_process p) < MaxScanTokenSize)
         (Processes config) ->
  ParseConfig (config_file (format_config config)) "config.txt" = Ok config
  /\ main_startup (config_file (format_config config))
     = Running config (Processes config).
Proof.
  intros Hmin Hmax Hps.
  assert (ParseConfig (config_file (format_config config)) "config.txt"
          = Ok config) as HP.
  { unfold ParseConfig, config_file.
    change ("config.txt" =? "config.txt")%string with true. cbv iota.
    unfold format_config. rewrite Scanner_format_lines.
    - rewrite Split_two by apply Itoa_no_space.
      cbn [index lookup list_lookup mbind Result_bind tail].
      rewrite !Atoi_Itoa by done. cbn [fst].
      rewrite parse_processes_format.
      + cbn [mbind Result_bind app]. by destruct config.
      + eapply Forall_impl; [exact Hps|]. cbn. tauto.
    - constructor.
      + split; [|split].
        * rewrite !contains_byte_append, !Itoa_no_LF. reflexivity.
        * apply contains_not_ends.
          rewrite !contains_byte_append, !Itoa_no_CR. reflexivity.
        * pose proof (slen_Itoa _ Hmin). pose proof (slen_Itoa _ Hmax).
          rewrite !slen_append. change (slen " ") with 1.
          unfold MaxScanTokenSize. lia.
      + apply Forall_fmap. eapply Forall_impl; [exact Hps|].
        intros p (_ & HIP & HPort & Hlen). cbn.
        destruct (format_process_line p HIP HPort). done. }
  split; [done|]. unfold main_startup. by rewrite HP.
Qed.

Lemma ParseConfig_reads_format_witness :
  is_int64 (MinDelay config3) = true
  /\ is_int64 (MaxDelay config3) = true
  /\ Forall (fun p => is_int64 (ID p) = true /\ plain_word (IP p) = true
                      /\ plain_word (Port p) = true
                      /\ slen (format_process p) < MaxScanTokenSize)
            (Processes config3)
  /\ ParseConfig (config_file (format_config config3)) "config.txt" = Ok config3
  /\ main_startup (config_file (format_config config3))
     = Running config3 (Processes config3).
Proof.
  assert (Forall (fun p => is_int64 (ID p) = true /\ plain_word (IP p) = true
                           /\ plain_word (Port p) = true
                           /\ slen (format_process p) < MaxScanTokenSize)
                 (Processes config3)) as Hps.
  { repeat constructor. }
  split; [reflexivity|]. split; [reflexivity|]. split; [exact Hps|].
  exact (ParseConfig_reads_format config3 eq_refl eq_refl Hps).
Defined.

(** X8: [ParseConfig] returns an error value only for a file that cannot
    be opened or whose reading fails; the content of a file never makes
    it return one, whatever its lines hold. *)
Theorem ParseConfig_error_is_io (fs : FileSystem) (filename : string)
    (e : IOError) :
  ParseConfig fs filename = Err e ->
  (fs filename = None /\ e = ErrNotExist)
  \/ exists file, fs filename = Some file /\ snd (Scanner file) = Some e.
Proof.
  destruct (fs filename) as [file|] eqn:Hf.
  - rewrite (ParseConfig_spec fs filename file Hf). cbv zeta.
    destruct (2 <=? _)%nat; [|discriminate].
    destruct (forallb _ _); [|discriminate].
    destruct (snd (Scanner file)) as [e'|] eqn:He; [|discriminate].
    intros [= <-]. right. by exists file.
  - unfold ParseConfig. rewrite Hf. intros [= <-]. by left.
Qed.

Lemma ParseConfig_error_is_io_witness :
  ParseConfig broken_read "config.txt" = Err ErrRead
  /\ ((broken_read "config.txt" = None /\ ErrRead = ErrNotExist)
      \/ exists file, broken_read "config.txt" = Some file
                      /\ snd (Scanner file) = Some ErrRead).
Proof.
  split; [reflexivity|].
  exact (ParseConfig_error_is_io broken_read "config.txt" ErrRead eq_refl).
Defined.

(** X9: a line after the first with fewer than three space-separated
    fields, a blank line in particular, makes [ParseConfig] panic with an
    index out of range, whatever the other lines hold and even when the
    reading of the file ends in an error. *)
Theorem ParseConfig_short_line_panics (fs : FileSystem) (filename : string)
    (file : Reader) (line : string) :
  fs filename = Some file ->
  line ∈ tail (fst (Scanner file)) ->
  (field_count line < 3)%nat ->
  ParseConfig fs filename = Panic.
Proof.
  intros Hf Hin Hshort.
  rewrite (ParseConfig_spec fs filename file Hf). cbv zeta.
  destruct (2 <=? _)%nat; [|done].
  destruct (forallb _ _) eqn:Hall; [|done].
  rewrite forallb_forall in Hall.
  specialize (Hall line). rewrite <- list_elem_of_In in Hall.
  specialize (Hall Hin). apply Nat.leb_le in Hall. lia.
Qed.

Lemma ParseConfig_short_line_panics_witness :
  exists file,
    config_file blank_line_text "config.txt" = Some file
    /\ "" ∈ tail (fst (Scanner file))
    /\ (field_count "" < 3)%nat
    /\ ParseConfig (config_file blank_line_text) "config.txt" = Panic.
Proof.
  eexists. split; [reflexivity|].
  assert ("" ∈ tail (fst (Scanner (mkReader blank_line_text None)))) as Hin.
  { vm_compute. right. left. }
  assert (field_count "" < 3)%nat as Hs by (vm_compute; lia).
  split; [exact Hin|]. split; [exact Hs|].
  exact (ParseConfig_short_line_panics (config_file blank_line_text)
           "config.txt" (mkReader blank_line_text None) "" eq_refl Hin Hs).
Defined.

(** ** What the two ends of a line-text connection read *)

(** X10: [getOtherID] returns the id the dialling end wrote first,
    whatever that end writes afterwards and however the reading of the
    connection ends; a first line that is no integer makes it return an
    error, which ends the accepting program. *)
Theorem getOtherID_reads_handshake (q : Process) (later : list Payload)
    (e : option IOError) (line rest : string) :
  is_int64 (ID q) = true ->
  contains_byte LF line = false ->
  ends_with_byte CR line = false ->
  slen line < MaxScanTokenSize ->
  snd (Atoi line) <> None ->
  LineMesh.getOtherID (mkReader (stream (LineMesh.handshake q :: later)) e)
  = Some (ID q)
  /\ LineMesh.getOtherID (mkReader (line +:+ String LF rest) e) = None.
Proof.
  intros Hq HLF HCR Hlen Herr.
  unfold LineMesh.getOtherID, Scanner, LineMesh.handshake.
  cbn [stream r_data r_err]. rewrite append_assoc.
  change (String LF "" +:+ stream later) with (String LF (stream later)).
  rewrite !scan_tokens_cons; try done.
  - cbn [fst snd]. rewrite Atoi_Itoa by done.
    destruct (Atoi line) as [z [err|]]; [done|]. by destruct Herr.
  - apply Itoa_no_LF.
  - apply contains_not_ends, Itoa_no_CR.
  - pose proof (slen_Itoa (ID q) Hq). unfold MaxScanTokenSize. lia.
Qed.

Lemma getOtherID_reads_handshake_witness :
  is_int64 (ID P2) = true
  /\ contains_byte LF "two" = false
  /\ ends_with_byte CR "two" = false
  /\ slen "two" < MaxScanTokenSize
  /\ snd (Atoi "two") <> None
  /\ LineMesh.getOtherID
       (mkReader (stream [LineMesh.handshake P2;
                          LineText.unicast_send 2 "hi"]) (Some ErrRead))
     = Some (ID P2)
  /\ LineMesh.getOtherID (mkReader ("two" +:+ String LF "2") (Some ErrRead))
     = None.
Proof.
  assert (snd (Atoi "two") <> None) as Herr by (vm_compute; discriminate).
  split; [reflexivity|]. split; [reflexivity|]. split; [reflexivity|].
  split; [reflexivity|]. split; [exact Herr|].
  exact (getOtherID_reads_handshake P2 [LineText.unicast_send 2 "hi"]
           (Some ErrRead) "two" "2" eq_refl eq_refl eq_refl eq_refl Herr).
Defined.

(** X11: the records written to a connection one after the other are
    received one by one and in the order they were written, each with
    the id its sender printed and its whole text, as long as no text
    holds a line feed or ends in a carriage return and no record is
    longer than the scanner's limit. *)
Theorem unicast_receive_in_order (rs : list (Z * string)) :
  Forall (fun r => contains_byte LF (snd r) = false
                   /\ ends_with_byte CR (snd r) = false
                   /\ slen (Itoa (fst r)) + 1 + slen (snd r) < MaxScanTokenSize)
         rs ->
  LineText.unicast_receive
    (mkReader
       (stream (map (fun r => LineText.unicast_send (fst r) (snd r)) rs)) None)
  = map (fun r => (Itoa (fst r), snd r)) rs.
Proof.
  intros Hrs. unfold LineText.unicast_receive.
  rewrite unicast_receive_stream by done. cbn [fst].
  rewrite map_map. apply map_ext. intros [id text]. cbn [fst snd].
  apply receive_line_record.
Qed.

Lemma unicast_receive_in_order_witness :
  Forall (fun r => contains_byte LF (snd r) = false
                   /\ ends_with_byte CR (snd r) = false
                   /\ slen (Itoa (fst r)) + 1 + slen (snd r) < MaxScanTokenSize)
         [(1, "first  one"); (3, ""); (1, "last")]
  /\ LineText.unicast_receive
       (mkReader
          (stream (map (fun r => LineText.unicast_send (fst r) (snd r))
                       [(1, "first  one"); (3, ""); (1, "last")])) None)
     = map (fun r => (Itoa (fst r), snd r))
           [(1, "first  one"); (3, ""); (1, "last")].
Proof.
  assert (Forall (fun r => contains_byte LF (snd r) = false
                   /\ ends_with_byte CR (snd r) = false
                   /\ slen (Itoa (fst r)) + 1 + slen (snd r) < MaxScanTokenSize)
         [(1, "first  one"); (3, ""); (1, "last")]) as Hrs.
  { repeat constructor. }
  split; [exact Hrs|].
  exact (unicast_receive_in_order _ Hrs).
Defined.

(** ** What an established line-text mesh has cost *)

Lemma LineMesh_dial_loop_attempts dial_ok p others : forall m n m' n',
  LineMesh.dial_loop dial_ok p others m n = Done m' n' ->
  attempts n' = (attempts n + length (lower_peers p others))%nat
  /\ forall k, (attempts n <= k < attempts n')%nat -> dial_ok k = true.
Proof.
  induction others as [|o rest IH]; intros m n m' n' Hd.
  - cbn in Hd. injection Hd as <- <-. unfold lower_peers.
    rewrite filter_nil. cbn [length]. split; [lia|]. intros k Hk. lia.
  - unfold lower_peers in *. destruct (decide (ID o < ID p)) as [Hlt|Hnlt].
    + rewrite LineMesh_dial_loop_lower in Hd by done.
      destruct (dial_ok (attempts n)) eqn:Hok; [|discriminate].
      apply IH in Hd as [Ha Hk]. cbn [attempts] in Ha, Hk.
      rewrite filter_cons_True by done. cbn [length].
      split; [lia|]. intros k Hk'.
      destruct (decide (k = attempts n)) as [->|Hne]; [done|].
      apply Hk. lia.
    + rewrite LineMesh_dial_loop_skip in Hd by done.
      rewrite filter_cons_False by done. by apply IH in Hd.
Qed.

Lemma length_line_wires_cons procs p ps :
  length (line_wires procs (p :: ps))
  = (length (lower_peers p procs) + length (line_wires procs ps))%nat.
Proof.
  unfold line_wires. by rewrite bind_cons, length_app, length_fmap.
Qed.

Lemma LineMesh_dial_all_attempts dial_ok config ps : forall n pms n',
  LineMesh.dial_all dial_ok config ps n = Done pms n' ->
  attempts n' = (attempts n + length (line_wires (Processes config) ps))%nat
  /\ forall k, (attempts n <= k < attempts n')%nat -> dial_ok k = true.
Proof.
  induction ps as [|p ps IH]; intros n pms n' Hd.
  - cbn in Hd. injection Hd as <- <-. cbn. split; [lia|]. intros k Hk. lia.
  - cbn [LineMesh.dial_all] in Hd.
    destruct (LineMesh.dial_loop dial_ok p (Processes config) ∅ n)
      as [m n1| |] eqn:Hloop; [|discriminate..].
    destruct (LineMesh.dial_all dial_ok config ps n1)
      as [ms n2| |] eqn:Hrest; [|discriminate..].
    injection Hd as <- <-.
    apply LineMesh_dial_loop_attempts in Hloop as [Ha1 Hk1].
    apply IH in Hrest as [Ha2 Hk2].
    rewrite length_line_wires_cons. split; [lia|]. intros k Hk.
    destruct (decide (k < attempts n1)%nat); [apply Hk1|apply Hk2]; lia.
Qed.

Lemma LineMesh_mesh_attempts dial_ok config pms n :
  LineMesh.mesh dial_ok config = Done pms n ->
  attempts n = length (line_wires (Processes config) (Processes config))
  /\ forall k, (k < attempts n)%nat -> dial_ok k = true.
Proof.
  unfold LineMesh.mesh.
  destruct (LineMesh.listen_all (Processes config) empty_net)
    as [[] n1| |] eqn:Hl; [|discriminate..].
  apply LineMesh_listen_all_done in Hl as (_ & _ & _ & HA1 & _).
  destruct (LineMesh.dial_all dial_ok config (Processes config) n1)
    as [pms0 n2| |] eqn:Hd; [|discriminate..].
  apply LineMesh_dial_all_attempts in Hd as [HA2 Hk2].
  intros Hacc. apply LineMesh_accept_all_net in Hacc as ->.
  cbn [empty_net attempts] in HA1. rewrite HA1 in *.
  split; [lia|]. intros k Hk. apply Hk2. lia.
Qed.

Lemma LineMesh_mesh_quiet dial_ok config pms n :
  LineMesh.mesh dial_ok config = Done pms n -> slept n = [].
Proof.
  unfold LineMesh.mesh.
  destruct (LineMesh.listen_all (Processes config) empty_net)
    as [[] n1| |] eqn:Hl; [|discriminate..].
  apply LineMesh_listen_all_done in Hl as (_ & _ & _ & _ & HS1).
  destruct (LineMesh.dial_all dial_ok config (Processes config) n1)
    as [pms0 n2| |] eqn:Hd; [|discriminate..].
  apply LineMesh_dial_all_done in Hd as (_ & _ & HS2 & _).
  intros Hacc. apply LineMesh_accept_all_net in Hacc as ->.
  by rewrite HS2, HS1.
Qed.

(** X12: an established line-text mesh has made exactly one dial attempt
    per connection, every attempt made has succeeded, and no process has
    slept: the line-text variant never retries a dial. *)
Theorem line_mesh_effort (dial_ok : nat -> bool) (config : Config)
    (pms : list (Process * gmap Z Conn)) (n : Net) :
  LineMesh.mesh dial_ok config = Done pms n ->
  attempts n = length (net_wires n)
  /\ (forall k, (k < attempts n)%nat -> dial_ok k = true)
  /\ slept n = [].
Proof.
  intros Hm.
  pose proof (LineMesh_mesh_wires _ _ _ _ Hm) as HW.
  pose proof (LineMesh_mesh_attempts _ _ _ _ Hm) as [Ha Hk].
  pose proof (LineMesh_mesh_quiet _ _ _ _ Hm) as HS.
  split; [congruence|]. split; [done|done].
Qed.

Lemma line_mesh_effort_witness :
  exists pms n,
    LineMesh.mesh always_up config3 = Done pms n
    /\ length (net_wires n) = 3%nat
    /\ attempts n = length (net_wires n)
    /\ (forall k, (k < attempts n)%nat -> always_up k = true)
    /\ slept n = [].
Proof.
  destruct (LineMesh.mesh always_up config3) as [pms n| |] eqn:Hm;
    [|by vm_compute in Hm..].
  exists pms, n. split; [reflexivity|].
  split; [by vm_compute in Hm; injection Hm as <- <-|].
  exact (line_mesh_effort always_up config3 pms n Hm).
Defined.

(** ** Sends over an established mesh *)

Lemma mesh_member_int64 (procs : list Process)
    (pms : list (Process * gmap Z Conn)) p m :
  int64_ids procs -> pms.*1 = procs -> (p, m) ∈ pms ->
  p ∈ procs /\ is_int64 (ID p) = true.
Proof.
  intros Hint Hfst Hin.
  assert (p ∈ procs) as Hp.
  { rewrite <- Hfst. apply list_elem_of_fmap. by exists (p, m). }
  split; [done|]. unfold int64_ids in Hint. rewrite Forall_forall in Hint.
  by apply Hint.
Qed.

Lemma not_other_peer_self p procs : ID p ∉ ID <$> other_peers p procs.
Proof.
  intros (o & Heq & Ho)%list_elem_of_fmap.
  apply list_elem_of_filter in Ho as [Hne _]. congruence.
Qed.

Lemma mesh_member_map (procs : list Process)
    (pms : list (Process * gmap Z Conn)) p :
  pms.*1 = procs -> p ∈ procs -> exists m, (p, m) ∈ pms.
Proof.
  intros <- ([p' m] & -> & Hin)%list_elem_of_fmap. by exists m.
Qed.

(** X13: no process of an established mesh holds a connection under its
    own id, in neither variant; a send to the own id is therefore
    answered with the message for an unknown destination and nothing is
    scheduled. *)
Theorem no_connection_to_self (dial_ok : nat -> bool) (rnd : nat -> Z)
    (now : string) (config : Config) (minDelay maxDelay : Z) (text : string) :
  int64_ids (Processes config) ->
  (forall pms n p m,
     LineMesh.mesh dial_ok config = Done pms n -> (p, m) ∈ pms ->
     m !! ID p = None
     /\ LineText.handle_line rnd now p minDelay maxDelay
          ("send " +:+ Itoa (ID p) +:+ " " +:+ text) (console_start m n)
        = Ok (println ("No connection to process " +:+ Itoa (ID p)
                       +:+ ". Please check the configuration.")
                (console_start m n)))
  /\ (forall pms n p m,
        GobMesh.mesh dial_ok config = Done pms n -> (p, m) ∈ pms ->
        m !! ID p = None
        /\ Gob.handle_line rnd now p minDelay maxDelay
             ("send " +:+ Itoa (ID p) +:+ " " +:+ text) (console_start m n)
           = Ok (println ("Invalid destination process ID: " +:+ Itoa (ID p))
                   (console_start m n))).
Proof.
  intros Hint. split; intros pms n p m Hm Hin.
  - pose proof (LineMesh_mesh_done _ _ _ _ Hint Hm)
      as (_ & _ & HW & _ & Hfst & Hall).
    destruct (mesh_member_int64 _ _ _ _ Hint Hfst Hin) as [Hp Hid].
    rewrite Forall_forall in Hall. destruct (Hall _ Hin) as [Hs Hc].
    cbn [fst snd] in Hs, Hc. rewrite HW in Hs.
    assert (m !! ID p = None) as Hnone.
    { apply eq_None_not_Some. intros HS.
      apply (line_map_keys _ _ _ Hs Hc) in HS.
      by apply not_other_peer_self in HS. }
    split; [done|].
    rewrite LineText_handle_send by apply Itoa_no_space.
    rewrite Atoi_Itoa by done. cbn [fst console_start connections].
    by rewrite Hnone.
  - pose proof (GobMesh_mesh_done _ _ _ _ Hm) as (_ & Hfst & Hall).
    destruct (mesh_member_int64 _ _ _ _ Hint Hfst Hin) as [Hp Hid].
    rewrite Forall_forall in Hall. pose proof (Hall _ Hin) as Hkeys.
    cbn [fst snd] in Hkeys.
    assert (m !! ID p = None) as Hnone.
    { apply eq_None_not_Some. intros HS. apply Hkeys in HS.
      by apply not_other_peer_self in HS. }
    split; [done|].
    rewrite Gob_handle_send by apply Itoa_no_space.
    rewrite Atoi_Itoa by done. cbn [console_start connections].
    by rewrite Hnone.
Qed.

Lemma no_connection_to_self_witness :
  exists pms n m pms' n' m',
    int64_ids (Processes config3)
    /\ LineMesh.mesh always_up config3 = Done pms n /\ (P2, m) ∈ pms
    /\ GobMesh.mesh always_up config3 = Done pms' n' /\ (P2, m') ∈ pms'
    /\ m !! ID P2 = None
    /\ LineText.handle_line (fun _ => 7) "noon" P2 100 200
         ("send " +:+ Itoa (ID P2) +:+ " " +:+ "hi") (console_start m n)
       = Ok (println ("No connection to process " +:+ Itoa (ID P2)
                      +:+ ". Please check the configuration.")
               (console_start m n))
    /\ m' !! ID P2 = None
    /\ Gob.handle_line (fun _ => 7) "noon" P2 100 200
         ("send " +:+ Itoa (ID P2) +:+ " " +:+ "hi") (console_start m' n')
       = Ok (println ("Invalid destination process ID: " +:+ Itoa (ID P2))
               (console_start m' n')).
Proof.
  assert (int64_ids (Processes config3)) as Hint by (repeat constructor).
  assert (P2 ∈ Processes config3) as HP2 by (right; left).
  destruct (LineMesh.mesh always_up config3) as [pms n| |] eqn:Hm;
    [|by vm_compute in Hm..].
  destruct (GobMesh.mesh always_up config3) as [pms' n'| |] eqn:Hm';
    [|by vm_compute in Hm'..].
  pose proof (LineMesh_mesh_done _ _ _ _ Hint Hm) as (_ & _ & _ & _ & Hfst & _).
  pose proof (GobMesh_mesh_done _ _ _ _ Hm') as (_ & Hfst' & _).
  destruct (mesh_member_map _ _ P2 Hfst HP2) as [m Hin].
  destruct (mesh_member_map _ _ P2 Hfst' HP2) as [m' Hin'].
  exists pms, n, m, pms', n', m'.
  split; [exact Hint|]. split; [reflexivity|]. split; [exact Hin|].
  split; [reflexivity|]. split; [exact Hin'|].
  pose proof (no_connection_to_self always_up (fun _ => 7) "noon" config3
                100 200 "hi" Hint) as [HL HG].
  destruct (HL pms n P2 m Hm Hin) as [H1 H2].
  destruct (HG pms' n' P2 m' Hm' Hin') as [H3 H4].
  split; [exact H1|]. split; [exact H2|]. split; [exact H3|exact H4].
Defined.

(** ** From the console of one process to the receiver of another *)

Lemma line_map_lookup procs p q mq :
  NoDup (ID <$> procs) -> p ∈ procs -> q ∈ procs -> ID q < ID p ->
  map_sound (line_wires procs procs) q mq ->
  map_covers (other_peers q procs) mq ->
  exists c, mq !! ID p = Some c
            /\ line_wires procs procs !! c = Some (handshaken p q).
Proof.
  intros Hnd Hp Hq Hlt Hs Hc.
  destruct (Hc p) as [c Hpc].
  { apply list_elem_of_filter. split; [lia|done]. }
  destruct (Hs _ _ Hpc) as (w & Hw & Ht). exists c. split; [done|].
  pose proof Hw as Hel. apply list_elem_of_lookup_2 in Hel.
  destruct (touches_line_wire procs q (ID p) w Hel Ht)
    as (z & Hz & Hzp & _ & Hor).
  rewrite (NoDup_fmap_inj ID procs z p Hnd Hz Hp Hzp) in Hor.
  destruct Hor as [-> | ->]; [|done].
  apply line_wires_elem in Hel as (x & o & [= -> ->] & _ & _ & Hxo). lia.
Qed.

Lemma conn_write_lookup p x (W : list Wire) (c : nat) w :
  W !! c = Some w -> conn_write p c x W !! c = Some (write_wire p x w).
Proof.
  intros Hw. unfold conn_write. rewrite list_lookup_alter_eq.
  by rewrite Hw.
Qed.

(** X14: in an established line-text mesh, a send command typed at the
    console of a process [q] for a peer [p] of higher id schedules one
    send which, when its delay is over, is written to the very connection
    that [p] dialled to [q] and holds in its own map under [q]'s id; the
    receiver of [p] on that connection gets exactly one message, with
    [q]'s id and the text as typed. *)
Theorem line_send_reaches_higher_peer (dial_ok : nat -> bool)
    (rnd : nat -> Z) (now : string) (config : Config)
    (pms : list (Process * gmap Z Conn)) (n : Net) (p q : Process)
    (mp mq : gmap Z Conn) (text : string) :
  NoDup (ID <$> Processes config) ->
  int64_ids (Processes config) ->
  LineMesh.mesh dial_ok config = Done pms n ->
  (p, mp) ∈ pms -> (q, mq) ∈ pms -> ID q < ID p ->
  is_int64 (MinDelay config) = true -> is_int64 (MaxDelay config) = true ->
  0 <= MinDelay config -> MinDelay config < MaxDelay config ->
  contains_byte LF text = false ->
  ends_with_byte CR text = false ->
  slen (Itoa (ID q)) + 1 + slen text < MaxScanTokenSize ->
  exists c rt' pd w',
    mq !! ID p = Some c /\ mp !! ID q = Some c
    /\ LineText.handle_line rnd now q (MinDelay config) (MaxDelay config)
         ("send " +:+ Itoa (ID p) +:+ " " +:+ text) (console_start mq n)
       = Ok rt'
    /\ pending rt' = [pd]
    /\ wires (LineText.fire q pd rt') !! c = Some w'
    /\ w_from w' = p /\ w_to w' = q
    /\ LineText.unicast_receive (mkReader (stream (w_down w')) None)
       = [(Itoa (ID q), text)].
Proof.
  intros Hnd Hint Hm Hinp Hinq Hlt Hmin Hmax H0 Hd HLF HCR Hlen.
  pose proof (LineMesh_mesh_done _ _ _ _ Hint Hm)
    as (_ & _ & HW & _ & Hfst & Hall).
  destruct (mesh_member_int64 _ _ _ _ Hint Hfst Hinp) as [Hp Hidp].
  destruct (mesh_member_int64 _ _ _ _ Hint Hfst Hinq) as [Hq Hidq].
  rewrite Forall_forall in Hall.
  destruct (Hall _ Hinp) as [Hsp Hcp]. destruct (Hall _ Hinq) as [Hsq Hcq].
  cbn [fst snd] in *. rewrite HW in Hsp, Hsq.
  assert (p <> q) as Hne by (intros ->; lia).
  destruct (line_map_lookup _ p q mq Hnd Hp Hq Hlt Hsq Hcq) as (c & Hmq & Hwc).
  destruct (line_same_channel _ p q mp mq Hnd Hp Hq Hne Hsp Hcp Hsq Hcq)
    as (c' & w & Hmp & Hmq' & _).
  assert (c' = c) as -> by congruence.
  destruct (draw_delay_total (rnd 0%nat) (MinDelay config) (MaxDelay config))
    as [d Hdraw]; try done.
  { apply is_int64_spec in Hmax. unfold MaxInt64 in *. lia. }
  exists c. eexists _, _, _. split; [done|]. split; [done|].
  split.
  { rewrite LineText_handle_send by apply Itoa_no_space.
    rewrite Atoi_Itoa by done. cbn [fst console_start connections].
    rewrite Hmq. unfold next_delay. cbn [draws console_start]. rewrite Hdraw.
    cbn [mbind Result_bind]. reflexivity. }
  cbn [println unicast_send_with_delay next_draw pending app wires console_start
       LineText.fire p_conn p_sender p_text connections stdout draws].
  split; [reflexivity|]. rewrite HW.
  split; [by apply conn_write_lookup|].
  unfold write_wire, handshaken. cbn [w_from w_to w_up w_down].
  destruct (decide (p = q)) as [Heq|_]; [done|].
  cbn [w_from w_to w_down app]. split; [done|]. split; [done|].
  cbn [p_sender p_text].
  change [LineText.unicast_send (ID q) text]
    with (map (fun r => LineText.unicast_send (fst r) (snd r))
              [(ID q, text)]).
  unfold LineText.unicast_receive. rewrite unicast_receive_stream.
  - cbn [fst snd map]. by rewrite receive_line_record.
  - by constructor.
Qed.

Lemma line_send_reaches_higher_peer_witness :
  exists pms n mp mq c rt' pd w',
    NoDup (ID <$> Processes config3)
    /\ int64_ids (Processes config3)
    /\ LineMesh.mesh always_up config3 = Done pms n
    /\ (P3, mp) ∈ pms /\ (P1, mq) ∈ pms /\ ID P1 < ID P3
    /\ is_int64 (MinDelay config3) = true
    /\ is_int64 (MaxDelay config3) = true
    /\ 0 <= MinDelay config3 /\ MinDelay config3 < MaxDelay config3
    /\ contains_byte LF "Hello,  world!" = false
    /\ ends_with_byte CR "Hello,  world!" = false
    /\ slen (Itoa (ID P1)) + 1 + slen "Hello,  world!" < MaxScanTokenSize
    /\ mq !! ID P3 = Some c /\ mp !! ID P1 = Some c
    /\ LineText.handle_line (fun _ => 7) "noon" P1 (MinDelay config3)
         (MaxDelay config3)
         ("send " +:+ Itoa (ID P3) +:+ " " +:+ "Hello,  world!")
         (console_start mq n)
       = Ok rt'
    /\ pending rt' = [pd]
    /\ wires (LineText.fire P1 pd rt') !! c = Some w'
    /\ w_from w' = P3 /\ w_to w' = P1
    /\ LineText.unicast_receive (mkReader (stream (w_down w')) None)
       = [(Itoa (ID P1), "Hello,  world!")].
Proof.
  assert (NoDup (ID <$> Processes config3)) as Hnd.
  { apply (bool_decide_unpack _). by vm_compute. }
  assert (int64_ids (Processes config3)) as Hint by (repeat constructor).
  destruct (LineMesh.mesh always_up config3) as [pms n| |] eqn:Hm;
    [|by vm_compute in Hm..].
  pose proof (LineMesh_mesh_done _ _ _ _ Hint Hm) as (_ & _ & _ & _ & Hfst & _).
  destruct (mesh_member_map _ _ P3 Hfst ltac:(right; right; left)) as [mp Hp].
  destruct (mesh_member_map _ _ P1 Hfst ltac:(left)) as [mq Hq].
  assert (ID P1 < ID P3) as Hlt by (cbn; lia).
  assert (0 <= MinDelay config3) as H0 by (cbn; lia).
  assert (MinDelay config3 < MaxDelay config3) as Hd by (cbn; lia).
  destruct (line_send_reaches_higher_peer always_up (fun _ => 7) "noon"
              config3 pms n P3 P1 mp mq "Hello,  world!" Hnd Hint Hm Hp Hq Hlt
              eq_refl eq_refl H0 Hd eq_refl eq_refl eq_refl)
    as (c & rt' & pd & w' & H).
  exists pms, n, mp, mq, c, rt', pd, w'.
  split; [exact Hnd|]. split; [exact Hint|]. split; [reflexivity|].
  split; [exact Hp|]. split; [exact Hq|]. split; [exact Hlt|].
  split; [reflexivity|]. split; [reflexivity|]. split; [exact H0|].
  split; [exact Hd|]. split; [reflexivity|]. split; [reflexivity|].
  split; [reflexivity|]. exact H.
Defined.

(** ** The connections of the gob mesh *)

Lemma GobMesh_dial_loop_wires dial_ok p others : forall m n m' n',
  GobMesh.dial_loop dial_ok p others m n = Done m' n' ->
  forall k c, m' !! k = Some c ->
    m !! k = Some c
    \/ exists o, o ∈ other_peers p others /\ k = ID o
                 /\ net_wires n' !! c = Some (fresh_wire p o).
Proof.
  induction others as [|o rest IH]; intros m n m' n' Hd k c Hkc.
  - cbn in Hd. injection Hd as <- <-. by left.
  - cbn [GobMesh.dial_loop] in Hd. unfold other_peers in *.
    destruct (Z.eqb_spec (ID o) (ID p)) as [Heq|Hne]; cbn [negb] in Hd.
    + rewrite filter_cons_False by (intros Hc; by apply Hc). by eapply IH.
    + destruct (GobMesh.dial_retry dial_ok GobMesh.retries 0 p o n)
        as [[conn|] n1] eqn:Hr; [|discriminate].
      apply GobMesh_dial_retry_Some in Hr as (-> & HW1 & HL1).
      pose proof (GobMesh_dial_loop_done _ _ _ _ _ _ _ Hd) as (HW & _).
      rewrite filter_cons_True by done.
      destruct (IH _ _ _ _ Hd k c Hkc) as [Hold|(o' & Ho' & -> & Hw)].
      * destruct (decide (ID o = k)) as [<-|Hnk].
        -- rewrite lookup_insert_eq in Hold. injection Hold as <-.
           right. exists o. split; [apply list_elem_of_here|].
           split; [done|]. rewrite HW, HW1, <- app_assoc. cbn [app].
           by rewrite lookup_app_r, Nat.sub_diag by lia.
        -- rewrite lookup_insert_ne in Hold by done. by left.
      * right. exists o'. split; [by apply list_elem_of_further|done].
Qed.

Lemma GobMesh_dial_all_wires dial_ok config ps : forall n pms n',
  GobMesh.dial_all dial_ok config ps n = Done pms n' ->
  Forall (fun pm => forall k c, pm.2 !! k = Some c ->
            exists o, o ∈ other_peers pm.1 (Processes config) /\ k = ID o
                      /\ net_wires n' !! c = Some (fresh_wire pm.1 o)) pms.
Proof.
  induction ps as [|p ps IH]; intros n pms n' Hd.
  - cbn in Hd. by injection Hd as <- <-.
  - cbn [GobMesh.dial_all] in Hd.
    destruct (GobMesh.dial_loop dial_ok p (Processes config) ∅ n)
      as [m n1| |] eqn:Hloop; [|discriminate..].
    destruct (GobMesh.dial_all dial_ok config ps n1)
      as [ms n2| |] eqn:Hrest; [|discriminate..].
    injection Hd as <- <-.
    pose proof (GobMesh_dial_all_done _ _ _ _ _ _ Hrest) as (HW2 & _).
    constructor; [|by eapply IH]. cbn [fst snd]. intros k c Hkc.
    destruct (GobMesh_dial_loop_wires _ _ _ _ _ _ _ Hloop k c Hkc)
      as [Hold|(o & Ho & -> & Hw)].
    + by rewrite lookup_empty in Hold.
    + exists o. split; [done|]. split; [done|].
      rewrite HW2. by apply lookup_app_l_Some.
Qed.

Lemma GobMesh_mesh_wires dial_ok config pms n :
  GobMesh.mesh dial_ok config = Done pms n ->
  Forall (fun pm => forall k c, pm.2 !! k = Some c ->
            exists o, o ∈ other_peers pm.1 (Processes config) /\ k = ID o
                      /\ net_wires n !! c = Some (fresh_wire pm.1 o)) pms.
Proof.
  unfold GobMesh.mesh.
  destruct (GobMesh.listen_all (Processes config) empty_net)
    as [[] n1| |] eqn:Hl; [|discriminate..].
  apply GobMesh_dial_all_wires.
Qed.

Lemma NoDup_gob_wires (procs : list Process) :
  NoDup procs -> NoDup (gob_wires procs procs).
Proof.
  intros Hnd. unfold gob_wires. apply NoDup_bind; [| |done].
  - intros x1 x2 w _ _ (o1 & -> & _)%list_elem_of_fmap
      (o2 & [= -> _] & _)%list_elem_of_fmap. done.
  - intros x _. apply NoDup_fmap_2; [|by apply NoDup_filter].
    by intros o1 o2 [=].
Qed.

Lemma NoDup_two {A} (l : list A) (x y : A) :
  NoDup l -> x <> y -> x ∈ l -> y ∈ l ->
  (forall z, z ∈ l -> z = x \/ z = y) -> length l = 2%nat.
Proof.
  intros Hnd Hxy Hx Hy Hall.
  destruct l as [|a [|b [|c l]]].
  - by apply elem_of_nil in Hx.
  - apply list_elem_of_singleton in Hx, Hy. congruence.
  - done.
  - exfalso. apply NoDup_cons in Hnd as [Ha Hnd].
    apply NoDup_cons in Hnd as [Hb Hnd].
    apply not_elem_of_cons in Ha as [Hab Ha].
    apply not_elem_of_cons in Ha as [Hac _].
    apply not_elem_of_cons in Hb as [Hbc _].
    pose proof (Hall a ltac:(left)) as Ha'.
    pose proof (Hall b ltac:(right; left)) as Hb'.
    pose proof (Hall c ltac:(right; right; left)) as Hc'.
    intuition congruence.
Qed.

(** X15: in an established gob mesh over distinct ids there are exactly
    two connections between any two processes, one dialled by each of
    them, and nothing has been written on either. The map of a process
    holds, under the id of a peer, the connection the process dialled to
    that peer itself. *)
Theorem gob_two_connections_per_pair (dial_ok : nat -> bool) (config : Config)
    (pms : list (Process * gmap Z Conn)) (n : Net) (p q : Process)
    (mp : gmap Z Conn) :
  NoDup (ID <$> Processes config) ->
  GobMesh.mesh dial_ok config = Done pms n ->
  (p, mp) ∈ pms -> q ∈ Processes config -> q <> p ->
  length (channels_between (net_wires n) p q) = 2%nat
  /\ (forall w, w ∈ channels_between (net_wires n) p q
                <-> w = fresh_wire p q \/ w = fresh_wire q p)
  /\ exists c, mp !! ID q = Some c
               /\ net_wires n !! c = Some (fresh_wire p q).
Proof.
  intros Hnd Hm Hin Hq Hne.
  pose proof (GobMesh_mesh_done _ _ _ _ Hm) as (HW & Hfst & Hkeys).
  pose proof (GobMesh_mesh_wires _ _ _ _ Hm) as Hwires.
  assert (p ∈ Processes config) as Hp.
  { rewrite <- Hfst. apply list_elem_of_fmap. by exists (p, mp). }
  assert (ID q <> ID p) as Hid.
  { intros Heq. apply Hne. by apply (NoDup_fmap_inj ID (Processes config)). }
  assert (forall w, w ∈ channels_between (net_wires n) p q
                    <-> w = fresh_wire p q \/ w = fresh_wire q p) as Hel.
  { intros w. unfold channels_between.
    rewrite list_elem_of_filter, HW, gob_wires_elem. split.
    - intros [[[<- <-]|[<- <-]] (x & o & -> & _)]; cbn; auto.
    - intros [-> | ->]; (split; [cbn; auto|]).
      + by exists p, q.
      + exists q, p. split; [done|]. split; [done|]. split; [done|congruence]. }
  split; [|split; [done|]].
  - apply (NoDup_two _ (fresh_wire p q) (fresh_wire q p)).
    + rewrite HW. apply NoDup_filter, NoDup_gob_wires, NoDup_procs, Hnd.
    + intros [= ? ?]. congruence.
    + apply Hel. by left.
    + apply Hel. by right.
    + intros w. apply Hel.
  - rewrite Forall_forall in Hkeys, Hwires.
    pose proof (Hkeys _ Hin) as Hk. pose proof (Hwires _ Hin) as Hw.
    cbn [fst snd] in Hk, Hw.
    destruct (proj2 (Hk (ID q))) as [c Hc].
    { apply list_elem_of_fmap. exists q. split; [done|].
      by apply list_elem_of_filter. }
    exists c. split; [done|].
    destruct (Hw _ _ Hc) as (o & Ho & Hoq & Hlook).
    apply list_elem_of_filter in Ho as [_ Ho].
    by rewrite (NoDup_fmap_inj ID (Processes config) q o Hnd Hq Ho Hoq).
Qed.

Lemma gob_two_connections_per_pair_witness :
  exists pms n mp,
    NoDup (ID <$> Processes config3)
    /\ GobMesh.mesh always_up config3 = Done pms n
    /\ (P1, mp) ∈ pms /\ P3 ∈ Processes config3 /\ P3 <> P1
    /\ length (channels_between (net_wires n) P1 P3) = 2%nat
    /\ (forall w, w ∈ channels_between (net_wires n) P1 P3
                  <-> w = fresh_wire P1 P3 \/ w = fresh_wire P3 P1)
    /\ exists c, mp !! ID P3 = Some c
                 /\ net_wires n !! c = Some (fresh_wire P1 P3).
Proof.
  assert (NoDup (ID <$> Processes config3)) as Hnd.
  { apply (bool_decide_unpack _). by vm_compute. }
  destruct (GobMesh.mesh always_up config3) as [pms n| |] eqn:Hm;
    [|by vm_compute in Hm..].
  pose proof (GobMesh_mesh_done _ _ _ _ Hm) as (_ & Hfst & _).
  destruct (mesh_member_map _ _ P1 Hfst ltac:(left)) as [mp Hp].
  assert (P3 ∈ Processes config3) as H3 by (right; right; left).
  assert (P3 <> P1) as Hne by discriminate.
  exists pms, n, mp.
  split; [exact Hnd|]. split; [reflexivity|]. split; [exact Hp|].
  split; [exact H3|]. split; [exact Hne|].
  exact (gob_two_connections_per_pair always_up config3 pms n P1 P3 mp
           Hnd Hm Hp H3 Hne).
Defined.

(** ** After [wg.Wait()] in the gob variant *)

Lemma deferred_from_spec p (ws : list Wire) : forall c0 c,
  c ∈ GobEnd.deferred_from p c0 ws
  <-> exists i w, c = (c0 + i)%nat /\ ws !! i = Some w /\ w_from w = p.
Proof.
  induction ws as [|w ws IH]; intros c0 c; cbn [GobEnd.deferred_from].
  - split; [by intros ?%elem_of_nil|by intros (i & w & _ & ? & _)].
  - assert (c ∈ GobEnd.deferred_from p (S c0) ws
            <-> exists i w', c = (c0 + S i)%nat /\ ws !! i = Some w'
                             /\ w_from w' = p) as Hrest.
    { rewrite IH. split; intros (i & w' & -> & Hw & Hp); exists i, w';
        (split; [lia|done]). }
    destruct (decide (w_from w = p)) as [Hp|Hp].
    + rewrite elem_of_cons, Hrest. split.
      * intros [->|(i & w' & -> & Hw & Hp')].
        -- exists 0%nat, w. split; [lia|done].
        -- by exists (S i), w'.
      * intros ([|i] & w' & -> & Hw & Hp').
        -- left. lia.
        -- right. by exists i, w'.
    + rewrite Hrest. split.
      * intros (i & w' & -> & Hw & Hp'). by exists (S i), w'.
      * intros ([|i] & w' & -> & Hw & Hp').
        -- cbn in Hw. congruence.
        -- by exists i, w'.
Qed.

Lemma deferred_spec p (ws : list Wire) (c : nat) :
  c ∈ GobEnd.deferred p ws <-> exists w, ws !! c = Some w /\ w_from w = p.
Proof.
  unfold GobEnd.deferred. rewrite deferred_from_spec. split.
  - intros (i & w & -> & Hw & Hp). by exists w.
  - intros (w & Hw & Hp). by exists c, w.
Qed.

Lemma closed_spec receiving procs (ws : list Wire) (c : nat) :
  c ∈ GobEnd.closed receiving procs ws
  <-> exists p w, p ∈ procs /\ receiving p = false
                  /\ ws !! c = Some w /\ w_from w = p.
Proof.
  unfold GobEnd.closed, GobEnd.Wait. rewrite list_elem_of_bind. split.
  - intros (p & Hc & Hp). destruct (receiving p) eqn:Hr.
    + by apply elem_of_nil in Hc.
    + apply deferred_spec in Hc as (w & Hw & Hfrom). by exists p, w.
  - intros (p & w & Hp & Hr & Hw & Hfrom). exists p. rewrite Hr.
    split; [|done]. apply deferred_spec. by exists w.
Qed.

(** X16: gob variant, over distinct [int] ids and delays
    [0 <= MinDelay < MaxDelay]. When a process reaches [wg.Wait()]
    without a receiver running, [startProcess] returns and its deferred
    calls close every connection the process dialled. In an established
    mesh of two or more processes no connection gets closed exactly when
    every process had a receiver running by then. A send command typed at
    a process [p] for another process [q] schedules one send on the
    connection [p] dialled to [q]: fired after [p] has returned, it
    fails in [Encode] and ends the program; fired in a mesh without
    closed connections, it puts one value with the id of [p] and the
    text as typed on that connection, on which nothing else has been
    written. *)
Theorem gob_send_after_wait (dial_ok : nat -> bool)
    (receiving : Process -> bool) (rnd : nat -> Z) (now : string)
    (config : Config) (pms : list (Process * gmap Z Conn)) (n : Net)
    (p q : Process) (mp : gmap Z Conn) (text : string) :
  NoDup (ID <$> Processes config) ->
  int64_ids (Processes config) ->
  GobMesh.mesh dial_ok config = Done pms n ->
  (p, mp) ∈ pms -> q ∈ Processes config -> q <> p ->
  is_int64 (MinDelay config) = true -> is_int64 (MaxDelay config) = true ->
  0 <= MinDelay config -> MinDelay config < MaxDelay config ->
  let shut := GobEnd.closed receiving (Processes config) (net_wires n) in
  (shut = [] <-> forall r, r ∈ Processes config -> receiving r = true)
  /\ exists c rt' pd,
       mp !! ID q = Some c
       /\ Gob.handle_line rnd now p (MinDelay config) (MaxDelay config)
            ("send " +:+ Itoa (ID q) +:+ " " +:+ text) (console_start mp n)
          = Ok rt'
       /\ pending rt' = [pd]
       /\ (receiving p = false ->
           c ∈ shut /\ GobEnd.fire shut p pd rt' = None)
       /\ (shut = [] ->
           exists rt'',
             GobEnd.fire shut p pd rt' = Some rt''
             /\ wires rt'' !! c = Some (mkWire p q [GobValue (ID p) text] [])).
Proof.
  intros Hnd Hint Hm Hin Hq Hne Hmin Hmax H0 Hd shut.
  pose proof (GobMesh_mesh_done _ _ _ _ Hm) as (HW & Hfst & Hkeys).
  pose proof (GobMesh_mesh_wires _ _ _ _ Hm) as Hwires.
  rewrite Forall_forall in Hkeys, Hwires.
  pose proof (Hkeys _ Hin) as Hk. pose proof (Hwires _ Hin) as Hw.
  cbn [fst snd] in Hk, Hw.
  assert (is_int64 (ID q) = true) as Hidq.
  { unfold int64_ids in Hint. rewrite Forall_forall in Hint. by apply Hint. }
  assert (p ∈ Processes config) as Hp.
  { rewrite <- Hfst. apply list_elem_of_fmap. by exists (p, mp). }
  assert (ID q <> ID p) as Hid.
  { intros Heq. apply Hne. by apply (NoDup_fmap_inj ID (Processes config)). }
  split.
  { split.
    - intros Hshut r Hr. destruct (receiving r) eqn:Hrec; [done|exfalso].
      assert (exists t, t ∈ Processes config /\ ID t <> ID r) as (t & Ht & Htr).
      { destruct (decide (ID r = ID p)) as [Heq|Hnp].
        - exists q. split; [done|congruence].
        - exists p. split; [done|congruence]. }
      assert (fresh_wire r t ∈ net_wires n) as Hel.
      { rewrite HW. apply gob_wires_elem. by exists r, t. }
      apply list_elem_of_lookup_1 in Hel as [i Hi].
      assert (i ∈ shut) as Hclosed.
      { apply closed_spec. by exists r, (fresh_wire r t). }
      rewrite Hshut in Hclosed. by apply elem_of_nil in Hclosed.
    - intros Hall. apply elem_of_nil_inv. intros c.
      intros (r & w & Hr & Hrec & _)%closed_spec.
      rewrite Hall in Hrec by done. discriminate. }
  destruct (proj2 (Hk (ID q))) as [c Hc].
  { apply list_elem_of_fmap. exists q. split; [done|].
    by apply list_elem_of_filter. }
  destruct (Hw _ _ Hc) as (o & Ho & Hoq & Hlook).
  apply list_elem_of_filter in Ho as [_ Ho].
  rewrite <- (NoDup_fmap_inj ID (Processes config) q o Hnd Hq Ho Hoq) in Hlook.
  destruct (draw_delay_total (rnd 0%nat) (MinDelay config) (MaxDelay config))
    as [d Hdraw]; try done.
  { apply is_int64_spec in Hmax. unfold MaxInt64 in *. lia. }
  exists c. eexists _, _. split; [done|].
  split.
  { rewrite Gob_handle_send by apply Itoa_no_space.
    rewrite Atoi_Itoa by done. cbn [console_start connections].
    rewrite Hc. unfold next_delay. cbn [draws console_start]. rewrite Hdraw.
    cbn [mbind Result_bind]. reflexivity. }
  cbn [println unicast_send_with_delay next_draw pending app].
  split; [reflexivity|]. unfold GobEnd.fire. cbn [p_conn]. split.
  - intros Hrec.
    assert (c ∈ shut) as Hclosed.
    { apply closed_spec. by exists p, (fresh_wire p q). }
    split; [done|]. by rewrite bool_decide_eq_true_2.
  - intros Hshut. rewrite Hshut.
    rewrite bool_decide_eq_false_2 by (by intros ?%elem_of_nil).
    eexists. split; [reflexivity|].
    cbn [Gob.fire wires console_start p_conn p_sender p_text].
    rewrite (conn_write_lookup _ _ _ _ _ Hlook).
    unfold write_wire, fresh_wire. cbn [w_from w_to w_up w_down].
    destruct (decide (p = p)) as [_|Hpp]; [|done].
    by cbn [app].
Qed.

Lemma gob_send_after_wait_witness :
  exists pms n mp,
    NoDup (ID <$> Processes config3)
    /\ int64_ids (Processes config3)
    /\ GobMesh.mesh always_up config3 = Done pms n
    /\ (P3, mp) ∈ pms /\ P1 ∈ Processes config3 /\ P1 <> P3
    /\ is_int64 (MinDelay config3) = true
    /\ is_int64 (MaxDelay config3) = true
    /\ 0 <= MinDelay config3 /\ MinDelay config3 < MaxDelay config3
    /\ (exists c rt' pd,
          mp !! ID P1 = Some c
          /\ Gob.handle_line (fun _ => 7) "noon" P3 (MinDelay config3)
               (MaxDelay config3)
               ("send " +:+ Itoa (ID P1) +:+ " " +:+ "Hello,  world!")
               (console_start mp n)
             = Ok rt'
          /\ pending rt' = [pd]
          /\ GobEnd.fire (GobEnd.closed last_returns (Processes config3)
                                        (net_wires n)) P3 pd rt'
             = None)
    /\ (exists c rt' pd rt'',
          mp !! ID P1 = Some c
          /\ Gob.handle_line (fun _ => 7) "noon" P3 (MinDelay config3)
               (MaxDelay config3)
               ("send " +:+ Itoa (ID P1) +:+ " " +:+ "Hello,  world!")
               (console_start mp n)
             = Ok rt'
          /\ pending rt' = [pd]
          /\ GobEnd.fire (GobEnd.closed (fun _ => true) (Processes config3)
                                        (net_wires n)) P3 pd rt'
             = Some rt''
          /\ wires rt'' !! c
             = Some (mkWire P3 P1 [GobValue (ID P3) "Hello,  world!"] [])).
Proof.
  assert (NoDup (ID <$> Processes config3)) as Hnd.
  { apply (bool_decide_unpack _). by vm_compute. }
  assert (int64_ids (Processes config3)) as Hint by (repeat constructor).
  destruct (GobMesh.mesh always_up config3) as [pms n| |] eqn:Hm;
    [|by vm_compute in Hm..].
  pose proof (GobMesh_mesh_done _ _ _ _ Hm) as (_ & Hfst & _).
  destruct (mesh_member_map _ _ P3 Hfst ltac:(right; right; left)) as [mp Hp].
  assert (P1 ∈ Processes config3) as H1 by left.
  assert (P1 <> P3) as Hne by discriminate.
  assert (0 <= MinDelay config3) as H0 by (cbn; lia).
  assert (MinDelay config3 < MaxDelay config3) as Hd by (cbn; lia).
  exists pms, n, mp.
  split; [exact Hnd|]. split; [exact Hint|]. split; [reflexivity|].
  split; [exact Hp|]. split; [exact H1|]. split; [exact Hne|].
  split; [reflexivity|]. split; [reflexivity|]. split; [exact H0|].
  split; [exact Hd|]. split.
  - destruct (gob_send_after_wait always_up last_returns (fun _ => 7) "noon"
                config3 pms n P3 P1 mp "Hello,  world!" Hnd Hint Hm Hp H1 Hne
                eq_refl eq_refl H0 Hd)
      as (_ & c & rt' & pd & Hc & Hh & Hpd & Hret & _).
    exists c, rt', pd. split; [exact Hc|]. split; [exact Hh|].
    split; [exact Hpd|]. exact (proj2 (Hret eq_refl)).
  - destruct (gob_send_after_wait always_up (fun _ => true) (fun _ => 7)
                "noon" config3 pms n P3 P1 mp "Hello,  world!" Hnd Hint Hm Hp
                H1 Hne eq_refl eq_refl H0 Hd)
      as (Hiff & c & rt' & pd & Hc & Hh & Hpd & _ & Hopen).
    destruct (Hopen (proj2 Hiff (fun _ _ => eq_refl))) as (rt'' & Hf & Hw).
    exists c, rt', pd, rt''. split; [exact Hc|]. split; [exact Hh|].
    split; [exact Hpd|]. split; [exact Hf|exact Hw].
Defined.

(** ** Listening addresses in use *)

Lemma LineMesh_listen_all_dup ps : forall n,
  NoDup (listeners n) -> ~ NoDup (listeners n ++ (addr <$> ps)) ->
  exists n', LineMesh.listen_all ps n = Fatal n'
             /\ net_wires n' = net_wires n /\ attempts n' = attempts n.
Proof.
  induction ps as [|p ps IH]; intros n Hnd Hdup.
  - destruct Hdup. by rewrite app_nil_r.
  - cbn [LineMesh.listen_all]. unfold LineMesh.listen, net_listen.
    case_bool_decide as Hin; [by exists n|].
    destruct (IH (mkNet (listeners n ++ [addr p]) (net_wires n) (attempts n)
                        (slept n))) as (n' & Hn' & HW & HA).
    + cbn [listeners]. apply NoDup_app. split; [done|].
      split; [|apply NoDup_singleton].
      intros x Hx ->%list_elem_of_singleton. done.
    + cbn [listeners]. by rewrite <- app_assoc.
    + by exists n'.
Qed.

Lemma GobMesh_listen_all_dup ps : forall n,
  NoDup (listeners n) ->
  ~ NoDup (listeners n ++ (GobMesh.listen_addr <$> ps)) ->
  exists n', GobMesh.listen_all ps n = Crashed n'
             /\ net_wires n' = net_wires n /\ attempts n' = attempts n.
Proof.
  induction ps as [|p ps IH]; intros n Hnd Hdup.
  - destruct Hdup. by rewrite app_nil_r.
  - cbn [GobMesh.listen_all]. unfold GobMesh.listen, net_listen.
    case_bool_decide as Hin; [by exists n|].
    destruct (IH (mkNet (listeners n ++ [GobMesh.listen_addr p]) (net_wires n)
                        (attempts n) (slept n))) as (n' & Hn' & HW & HA).
    + cbn [listeners]. apply NoDup_app. split; [done|].
      split; [|apply NoDup_singleton].
      intros x Hx ->%list_elem_of_singleton. done.
    + cbn [listeners]. by rewrite <- app_assoc.
    + by exists n'.
Qed.

(** X17: when two processes of a configuration with fixed ports have
    the same listening address, the mesh is never established: the
    line-text variant, which listens on [IP:Port], ends with
    [log.Fatal]; the gob variant, which listens on the port alone and
    ignores the error of [net.Listen], crashes, also when the two
    processes differ in their IP. *)
Theorem address_in_use (dial_ok : nat -> bool) (config : Config) :
  Forall (fun p => fixed_port (Port p) = true) (Processes config) ->
  (~ NoDup (addr <$> Processes config) ->
   exists n, LineMesh.mesh dial_ok config = Fatal n)
  /\ (~ NoDup (Port <$> Processes config) ->
      exists n, GobMesh.mesh dial_ok config = Crashed n).
Proof.
  intros _. split; intros Hdup.
  - destruct (LineMesh_listen_all_dup (Processes config) empty_net)
      as (n & Hn & _); [constructor|done|].
    exists n. unfold LineMesh.mesh. by rewrite Hn.
  - destruct (GobMesh_listen_all_dup (Processes config) empty_net)
      as (n & Hn & _); [constructor| |].
    + cbn [empty_net listeners app]. intros Hnd. apply Hdup.
      unfold GobMesh.listen_addr in Hnd.
      assert (forall ps : list Process,
                NoDup ((fun p => ":" +:+ Port p) <$> ps) -> NoDup (Port <$> ps))
        as Hgen; [|by apply Hgen].
      induction ps as [|p ps IH]; [constructor|].
      rewrite !fmap_cons, !NoDup_cons. intros [Hp Hps]. split; [|by apply IH].
      intros (q & Hq & Hin)%list_elem_of_fmap. apply Hp.
      apply list_elem_of_fmap. exists q. by rewrite Hq.
    + exists n. unfold GobMesh.mesh. by rewrite Hn.
Qed.

Lemma address_in_use_witness :
  Forall (fun p => fixed_port (Port p) = true) (Processes same_addr)
  /\ Forall (fun p => fixed_port (Port p) = true) (Processes same_port)
  /\ ~ NoDup (addr <$> Processes same_addr)
  /\ ~ NoDup (Port <$> Processes same_port)
  /\ NoDup (addr <$> Processes same_port)
  /\ (exists n, LineMesh.mesh always_up same_addr = Fatal n)
  /\ (exists n, GobMesh.mesh always_up same_port = Crashed n).
Proof.
  assert (Forall (fun p => fixed_port (Port p) = true) (Processes same_addr))
    as F1 by (repeat constructor).
  assert (Forall (fun p => fixed_port (Port p) = true) (Processes same_port))
    as F2 by (repeat constructor).
  assert (~ NoDup (addr <$> Processes same_addr)) as H1.
  { intros H. apply NoDup_cons in H as [H _]. apply H. left. }
  assert (~ NoDup (Port <$> Processes same_port)) as H2.
  { intros H. apply NoDup_cons in H as [H _]. apply H. left. }
  split; [exact F1|]. split; [exact F2|].
  split; [exact H1|]. split; [exact H2|].
  split; [apply (bool_decide_unpack _); by vm_compute|].
  split.
  - exact (proj1 (address_in_use always_up same_addr F1) H1).
  - exact (proj2 (address_in_use always_up same_port F2) H2).
Defined.

(** ** Delay bounds the wrong way round *)

Lemma draw_delay_reversed r minDelay maxDelay :
  maxDelay <= minDelay -> MinInt64 <= maxDelay - minDelay ->
  draw_delay r minDelay maxDelay = None.
Proof.
  intros Hle Hlow. unfold draw_delay, Intn.
  rewrite wrap64_small by (unfold MinInt64, MaxInt64 in *; lia).
  by destruct (Z.leb_spec (maxDelay - minDelay) 0); [|lia].
Qed.

(** X18: with delay bounds that are [int]s and not negative, a send
    command for a connected destination panics in [rand.Intn] exactly
    when [maxDelay <= minDelay], in both variants; nothing is scheduled
    or printed by such a command. *)
Theorem send_panics_iff_bounds_reversed (rnd : nat -> Z) (now : string)
    (process : Process) (minDelay maxDelay : Z) (X text : string) (dest : Z)
    (conn : Conn) (rt : Runtime) :
  contains_byte SP X = false ->
  Atoi X = (dest, None) ->
  connections rt !! dest = Some conn ->
  is_int64 minDelay = true -> is_int64 maxDelay = true ->
  0 <= minDelay -> 0 <= maxDelay ->
  (LineText.handle_line rnd now process minDelay maxDelay
     ("send " +:+ X +:+ " " +:+ text) rt = Panic
   <-> maxDelay <= minDelay)
  /\ (Gob.handle_line rnd now process minDelay maxDelay
        ("send " +:+ X +:+ " " +:+ text) rt = Panic
      <-> maxDelay <= minDelay).
Proof.
  intros HX HA Hc Hmin Hmax H0 H0'.
  rewrite LineText_handle_send, Gob_handle_send by done.
  rewrite HA. cbn [fst]. rewrite Hc. unfold next_delay.
  pose proof Hmin as Hmin'. pose proof Hmax as Hmax'.
  apply is_int64_spec in Hmin', Hmax'. unfold MinInt64, MaxInt64 in *.
  destruct (Z.le_gt_cases maxDelay minDelay) as [Hle|Hlt].
  - rewrite draw_delay_reversed by (unfold MinInt64; lia). done.
  - destruct (draw_delay_total (rnd (draws rt)) minDelay maxDelay) as [d Hd];
      try done; [unfold MaxInt64; lia|].
    rewrite Hd. cbn [mbind Result_bind]. split; (split; [done|lia]).
Qed.

Lemma send_panics_iff_bounds_reversed_witness :
  contains_byte SP "2" = false
  /\ Atoi "2" = (2, None)
  /\ connections one_peer_runtime !! 2 = Some 0%nat
  /\ is_int64 200 = true /\ is_int64 100 = true /\ 0 <= 200 /\ 0 <= 100
  /\ (LineText.handle_line (fun _ => 7) "noon" P1 200 100
        ("send " +:+ "2" +:+ " " +:+ "hi") one_peer_runtime = Panic
      <-> 100 <= 200)
  /\ (Gob.handle_line (fun _ => 7) "noon" P1 200 100
        ("send " +:+ "2" +:+ " " +:+ "hi") one_peer_runtime = Panic
      <-> 100 <= 200).
Proof.
  split; [reflexivity|]. split; [reflexivity|]. split; [reflexivity|].
  split; [reflexivity|]. split; [reflexivity|]. split; [lia|]. split; [lia|].
  exact (send_panics_iff_bounds_reversed (fun _ => 7) "noon" P1 200 100 "2"
           "hi" 2 0%nat one_peer_runtime eq_refl eq_refl eq_refl
           eq_refl eq_refl ltac:(lia) ltac:(lia)).
Defined.

(** ** Two-byte line ends *)

Lemma dropCR_CR (l : string) : dropCR (l +:+ String CR "") = l.
Proof.
  induction l as [|a l IH]; [done|].
  change (String a l +:+ String CR "") with (String a (l +:+ String CR "")).
  cbn [dropCR]. destruct (l +:+ String CR "") eqn:E.
  - by destruct l.
  - by rewrite IH.
Qed.

Lemma scan_tokens_crlf line rest :
  contains_byte LF line = false ->
  slen line + 1 < MaxScanTokenSize ->
  scan_tokens (raw_lines (line +:+ String CR (String LF rest)))
  = (line :: fst (scan_tokens (raw_lines rest)),
     snd (scan_tokens (raw_lines rest))).
Proof.
  intros HLF Hlen.
  replace (line +:+ String CR (String LF rest))
    with ((line +:+ String CR "") +:+ String LF rest)
    by (by rewrite append_assoc).
  rewrite raw_lines_cons.
  - cbn [scan_tokens].
    destruct (Z.leb_spec MaxScanTokenSize (slen (line +:+ String CR ""))) as [H|_].
    { rewrite slen_append in H. change (slen (String CR "")) with 1 in H. lia. }
    rewrite dropCR_CR. by destruct (scan_tokens (raw_lines rest)).
  - rewrite contains_byte_append, HLF. reflexivity.
Qed.

Lemma Scanner_crlf (ls : list string) (e : option IOError) :
  Forall (fun l => contains_byte LF l = false
                   /\ ends_with_byte CR l = false
                   /\ slen l + 1 < MaxScanTokenSize) ls ->
  Scanner (mkReader (format_lines_crlf ls) e)
  = Scanner (mkReader (format_lines ls) e).
Proof.
  unfold Scanner. cbn [r_data r_err].
  induction 1 as [|l ls (HLF & HCR & Hlen) _ IH]; [done|].
  cbn [format_lines format_lines_crlf].
  rewrite scan_tokens_crlf, scan_tokens_cons by (done || lia).
  destruct (scan_tokens (raw_lines (format_lines_crlf ls))) as [ts1 e1].
  destruct (scan_tokens (raw_lines (format_lines ls))) as [ts2 e2].
  cbn [fst snd]. congruence.
Qed.

(** X19: a carriage return before every line feed changes nothing:
    [ParseConfig] returns the same for a configuration file with two-byte
    line ends, and the console loops do the same on such an input, as
    long as no line holds a line feed or ends in a further carriage
    return and every line stays below the scanner's limit. *)
Theorem carriage_returns_ignored (rnd : nat -> Z) (now : string)
    (process : Process) (minDelay maxDelay : Z) (rt : Runtime)
    (ls : list string) (e : option IOError) :
  Forall (fun l => contains_byte LF l = false
                   /\ ends_with_byte CR l = false
                   /\ slen l + 1 < MaxScanTokenSize) ls ->
  ParseConfig (config_file (format_lines_crlf ls)) "config.txt"
  = ParseConfig (config_file (format_lines ls)) "config.txt"
  /\ LineText.handleUserInput rnd now process minDelay maxDelay
       (mkReader (format_lines_crlf ls) e) rt
     = LineText.handleUserInput rnd now process minDelay maxDelay
         (mkReader (format_lines ls) e) rt
  /\ Gob.handleUserInput rnd now process minDelay maxDelay
       (mkReader (format_lines_crlf ls) e) rt
     = Gob.handleUserInput rnd now process minDelay maxDelay
         (mkReader (format_lines ls) e) rt.
Proof.
  intros Hls. split; [|split].
  - unfold ParseConfig, config_file.
    change ("config.txt" =? "config.txt")%string with true. cbv iota.
    by rewrite Scanner_crlf.
  - unfold LineText.handleUserInput. by rewrite Scanner_crlf.
  - unfold Gob.handleUserInput. by rewrite Scanner_crlf.
Qed.

Lemma carriage_returns_ignored_witness :
  Forall (fun l => contains_byte LF l = false
                   /\ ends_with_byte CR l = false
                   /\ slen l + 1 < MaxScanTokenSize)
         ["100 200"; "1 127.0.0.1 8001"; "2 127.0.0.1 8002"]
  /\ ParseConfig
       (config_file (format_lines_crlf
                       ["100 200"; "1 127.0.0.1 8001"; "2 127.0.0.1 8002"]))
       "config.txt"
     = Ok config2
  /\ ParseConfig
       (config_file (format_lines_crlf
                       ["100 200"; "1 127.0.0.1 8001"; "2 127.0.0.1 8002"]))
       "config.txt"
     = ParseConfig
         (config_file (format_lines
                         ["100 200"; "1 127.0.0.1 8001"; "2 127.0.0.1 8002"]))
         "config.txt".
Proof.
  assert (Forall (fun l => contains_byte LF l = false
                   /\ ends_with_byte CR l = false
                   /\ slen l + 1 < MaxScanTokenSize)
         ["100 200"; "1 127.0.0.1 8001"; "2 127.0.0.1 8002"]) as Hls.
  { repeat constructor. }
  split; [exact Hls|]. split; [reflexivity|].
  exact (proj1 (carriage_returns_ignored (fun _ => 7) "noon" P1 100 200
                  empty_runtime _ None Hls)).
Defined.

(** ** Processes that share an id *)

(** X20: two entries of the configuration with the same id are never
    connected to each other, in neither variant: the line-text variant
    dials lower ids only and the gob variant other ids only. In
    particular no process is connected to itself. *)
Theorem shared_id_never_connected (dial_ok : nat -> bool) (config : Config)
    (pms : list (Process * gmap Z Conn)) (n : Net) (p q : Process) :
  ID p = ID q ->
  LineMesh.mesh dial_ok config = Done pms n
  \/ GobMesh.mesh dial_ok config = Done pms n ->
  channels_between (net_wires n) p q = [].
Proof.
  intros Hid Hm. apply elem_of_nil_inv. intros w.
  unfold channels_between. rewrite list_elem_of_filter.
  intros [Hends Hw]. destruct Hm as [Hm|Hm].
  - rewrite (LineMesh_mesh_wires _ _ _ _ Hm) in Hw.
    apply line_wires_elem in Hw as (x & o & -> & _ & _ & Hlt).
    cbn in Hends. destruct Hends as [[-> ->]|[-> ->]]; lia.
  - destruct (GobMesh_mesh_done _ _ _ _ Hm) as (HW & _). rewrite HW in Hw.
    apply gob_wires_elem in Hw as (x & o & -> & _ & _ & Hne).
    cbn in Hends. destruct Hends as [[-> ->]|[-> ->]]; congruence.
Qed.

Lemma shared_id_never_connected_witness :
  exists pms n pms' n',
    ID P2 = ID twin
    /\ LineMesh.mesh always_up twin_ids = Done pms n
    /\ GobMesh.mesh always_up twin_ids = Done pms' n'
    /\ length (net_wires n) = 2%nat
    /\ length (net_wires n') = 4%nat
    /\ channels_between (net_wires n) P2 twin = []
    /\ channels_between (net_wires n') P2 twin = [].
Proof.
  destruct (LineMesh.mesh always_up twin_ids) as [pms n| |] eqn:Hm;
    [|by vm_compute in Hm..].
  destruct (GobMesh.mesh always_up twin_ids) as [pms' n'| |] eqn:Hm';
    [|by vm_compute in Hm'..].
  exists pms, n, pms', n'.
  split; [reflexivity|]. split; [reflexivity|]. split; [reflexivity|].
  split; [by vm_compute in Hm; injection Hm as <- <-|].
  split; [by vm_compute in Hm'; injection Hm' as <- <-|].
  split.
  - exact (shared_id_never_connected always_up twin_ids pms n P2 twin
             eq_refl (or_introl Hm)).
  - exact (shared_id_never_connected always_up twin_ids pms' n' P2 twin
             eq_refl (or_intror Hm')).
Defined.

(** ** What an established gob mesh has cost *)

Lemma GobMesh_dial_retry_effort dial_ok left : forall i p o n c n1,
  GobMesh.dial_retry dial_ok left i p o n = (Some c, n1) ->
  (attempts n1 <= attempts n + left)%nat
  /\ exists l, slept n1 = slept n ++ l
               /\ (attempts n1 = attempts n + 1 + length l)%nat
               /\ Forall (fun s => i + 1 <= s < i + Z.of_nat left) l.
Proof.
  induction left as [|left IH]; intros i p o n c n1 Hr; [discriminate|].
  cbn [GobMesh.dial_retry] in Hr. unfold Dial in Hr.
  destruct (dial_ok (attempts n)).
  - injection Hr as <- <-. cbn [attempts slept]. split; [lia|].
    exists []. rewrite app_nil_r. cbn [length]. split; [done|].
    split; [lia|constructor].
  - destruct left as [|left']; [discriminate|].
    apply IH in Hr as (Ha & l & Hs & Hal & Hl).
    cbn [net_sleep attempts slept] in Ha, Hs, Hal. split; [lia|].
    exists ((i + 1) :: l). rewrite Hs, <- app_assoc. cbn [app length].
    split; [done|]. split; [lia|]. constructor; [lia|].
    eapply Forall_impl; [exact Hl|]. cbn. intros s Hs'. lia.
Qed.

Lemma GobMesh_dial_loop_effort dial_ok p others : forall m n m' n',
  GobMesh.dial_loop dial_ok p others m n = Done m' n' ->
  (attempts n' <= attempts n + 5 * length (other_peers p others))%nat
  /\ exists l, slept n' = slept n ++ l
               /\ (attempts n'
                   = attempts n + length (other_peers p others) + length l)%nat
               /\ Forall (fun s => 1 <= s <= 4) l.
Proof.
  induction others as [|o rest IH]; intros m n m' n' Hd.
  - cbn in Hd. injection Hd as <- <-. unfold other_peers.
    rewrite filter_nil. cbn [length]. split; [lia|].
    exists []. rewrite app_nil_r. cbn [length]. split; [done|].
    split; [lia|constructor].
  - cbn [GobMesh.dial_loop] in Hd. unfold other_peers in *.
    destruct (Z.eqb_spec (ID o) (ID p)) as [Heq|Hne]; cbn [negb] in Hd.
    + rewrite filter_cons_False by (intros Hc; by apply Hc). by eapply IH.
    + destruct (GobMesh.dial_retry dial_ok GobMesh.retries 0 p o n)
        as [[conn|] n1] eqn:Hr; [|discriminate].
      apply GobMesh_dial_retry_effort in Hr as (Ha1 & l1 & Hs1 & Hal1 & Hl1).
      apply IH in Hd as (Ha & l & Hs & Hal & Hl).
      rewrite filter_cons_True by done. cbn [length].
      unfold GobMesh.retries in *. split; [lia|].
      exists (l1 ++ l). rewrite Hs, Hs1, <- app_assoc, length_app.
      split; [done|]. split; [lia|]. apply Forall_app. split; [|done].
      eapply Forall_impl; [exact Hl1|]. cbn. intros s Hs'. lia.
Qed.

Lemma length_gob_wires_cons procs p ps :
  length (gob_wires procs (p :: ps))
  = (length (other_peers p procs) + length (gob_wires procs ps))%nat.
Proof.
  unfold gob_wires. by rewrite bind_cons, length_app, length_fmap.
Qed.

Lemma GobMesh_dial_all_effort dial_ok config ps : forall n pms n',
  GobMesh.dial_all dial_ok config ps n = Done pms n' ->
  (attempts n'
   <= attempts n + 5 * length (gob_wires (Processes config) ps))%nat
  /\ exists l, slept n' = slept n ++ l
               /\ (attempts n'
                   = attempts n + length (gob_wires (Processes config) ps)
                     + length l)%nat
               /\ Forall (fun s => 1 <= s <= 4) l.
Proof.
  induction ps as [|p ps IH]; intros n pms n' Hd.
  - cbn in Hd. injection Hd as <- <-. cbn. split; [lia|].
    exists []. rewrite app_nil_r. cbn. split; [done|]. split; [lia|constructor].
  - cbn [GobMesh.dial_all] in Hd.
    destruct (GobMesh.dial_loop dial_ok p (Processes config) ∅ n)
      as [m n1| |] eqn:Hloop; [|discriminate..].
    destruct (GobMesh.dial_all dial_ok config ps n1)
      as [ms n2| |] eqn:Hrest; [|discriminate..].
    injection Hd as <- <-.
    apply GobMesh_dial_loop_effort in Hloop as (Ha1 & l1 & Hs1 & Hal1 & Hl1).
    apply IH in Hrest as (Ha2 & l2 & Hs2 & Hal2 & Hl2).
    rewrite length_gob_wires_cons. split; [lia|].
    exists (l1 ++ l2). rewrite Hs2, Hs1, <- app_assoc, length_app.
    split; [done|]. split; [lia|]. by apply Forall_app.
Qed.

Lemma GobMesh_listen_all_quiet ps : forall n n',
  GobMesh.listen_all ps n = Done tt n' ->
  attempts n' = attempts n /\ slept n' = slept n.
Proof.
  induction ps as [|p ps IH]; intros n n' Hd.
  - cbn in Hd. by injection Hd as <-.
  - cbn [GobMesh.listen_all] in Hd. unfold GobMesh.listen, net_listen in Hd.
    case_bool_decide; [discriminate|]. by apply IH in Hd.
Qed.

(** X21: an established gob mesh has made at least one and at most five
    dial attempts per connection; every failed attempt was followed by
    one sleep, and each sleep lasted between one and four seconds. *)
Theorem gob_mesh_effort (dial_ok : nat -> bool) (config : Config)
    (pms : list (Process * gmap Z Conn)) (n : Net) :
  GobMesh.mesh dial_ok config = Done pms n ->
  (length (net_wires n) <= attempts n <= 5 * length (net_wires n))%nat
  /\ attempts n = (length (net_wires n) + length (slept n))%nat
  /\ Forall (fun s => 1 <= s <= 4) (slept n).
Proof.
  intros Hm. pose proof (GobMesh_mesh_done _ _ _ _ Hm) as (HW & _).
  unfold GobMesh.mesh in Hm.
  destruct (GobMesh.listen_all (Processes config) empty_net)
    as [[] n1| |] eqn:Hl; [|discriminate..].
  apply GobMesh_listen_all_quiet in Hl as [HA1 HS1].
  apply GobMesh_dial_all_effort in Hm as (Ha & l & Hs & Hal & Hl).
  cbn [empty_net attempts slept] in HA1, HS1.
  rewrite HA1, HS1 in *. cbn [app] in Hs. rewrite HW, Hs.
  split; [lia|]. split; [lia|done].
Qed.

Lemma gob_mesh_effort_witness :
  exists pms n,
    GobMesh.mesh (up_after 2) config3 = Done pms n
    /\ slept n = [1; 2]
    /\ (length (net_wires n) <= attempts n <= 5 * length (net_wires n))%nat
    /\ attempts n = (length (net_wires n) + length (slept n))%nat
    /\ Forall (fun s => 1 <= s <= 4) (slept n).
Proof.
  destruct (GobMesh.mesh (up_after 2) config3) as [pms n| |] eqn:Hm;
    [|by vm_compute in Hm..].
  exists pms, n. split; [reflexivity|].
  split; [by vm_compute in Hm; injection Hm as <- <-|].
  exact (gob_mesh_effort (up_after 2) config3 pms n Hm).
Defined.
